(** * Lead Pipeline Engine: scoring, status transitions, commissions, dispatch

    A shallow embedding of the service layer of the insurance revenue engine
    (ScoringService, AutomationService, ActivityService, CommissionService,
    PolicyService, LeadService) and the properties of its specification.

    Conventions of the embedding.
    - Prisma enums are strings at run time and are kept as strings, so every
      [switch] keeps its [default] branch.
    - Scores and instants (milliseconds since the epoch) are integers [Z];
      premiums, rates and commission amounts are exact rationals [Q].
    - The entity store is a record of tables.  A service method is a
      computation in a state-and-exception monad: a thrown error leaves the
      writes made before it in place, as the code runs without transactions.
    - [JSON.parse] belongs to the platform; the development is parametric
      in it (class [Platform]).
    - The clock does not advance within one service call.
    - Fields that no modelled decision reads (names, carrier, titles, ...)
      are left out of the records, and helpers that only write to the console
      (message simulation, the logging-only automations) are left out of the
      services. *)

From Stdlib Require Import ZArith QArith List String Ascii Bool Lia.
Import ListNotations.

Set Warnings "-register-all".

Local Open Scope string_scope.
Local Open Scope Z_scope.

(* ================================================================= *)
(** ** JavaScript values read back from stored JSON text *)

Inductive JSON : Type :=
| JNull
| JBool (b : bool)
| JNum (q : Q)
| JStr (s : string)
| JArr (items : list JSON)
| JObj (fields : list (string * JSON)).

(** Result of a property read [v.k]. *)
Inductive Access : Type :=
| TypeError
| Undefined
| Value (v : JSON).

Fixpoint assoc (k : string) (fields : list (string * JSON)) : option JSON :=
  match fields with
  | [] => None
  | (k', v) :: rest => if String.eqb k k' then Some v else assoc k rest
  end.

(** [v.k] for the keys the services read ([trigger], [type], [status]): none
    of them is defined on a prototype, so only own properties of objects
    answer; reading a property of [null] throws a TypeError. *)
Definition get_property (v : JSON) (k : string) : Access :=
  match v with
  | JNull => TypeError
  | JObj fields =>
      match assoc k fields with
      | Some x => Value x
      | None => Undefined
      end
  | _ => Undefined
  end.

(** JavaScript truthiness. *)
Definition truthy (v : JSON) : bool :=
  match v with
  | JNull => false
  | JBool b => b
  | JNum q => negb (Qeq_bool q 0)
  | JStr s => negb (String.eqb s "")
  | JArr _ => true
  | JObj _ => true
  end.

Definition truthy_access (a : Access) : bool :=
  match a with
  | Value v => truthy v
  | _ => false
  end.

(** [a === s] for a string [s]. *)
Definition strict_eq_string (a : Access) (s : string) : bool :=
  match a with
  | Value (JStr t) => String.eqb t s
  | _ => false
  end.

(** The elements a [for ... of] loop visits; [None] when the value is not
    iterable (a TypeError). A string is visited character by character. *)
Definition iterate (v : JSON) : option (list JSON) :=
  match v with
  | JArr items => Some items
  | JStr s =>
      Some (map (fun c => JStr (String c EmptyString)) (list_ascii_of_string s))
  | _ => None
  end.

(** [JSON.parse]: [None] stands for the SyntaxError it throws. *)
Class Platform : Type := { JSON_parse : string -> option JSON }.

(* ================================================================= *)
(** ** Data model *)

Record Lead : Type := mkLead {
  lead_id : string;
  lead_agentId : string;
  lead_status : string;
  lead_intentLevel : string;
  lead_score : Z;
  lead_updatedAt : Z
}.

Record Activity : Type := mkActivity {
  act_agentId : string;
  act_leadId : string;
  act_type : string;
  act_outcome : option string;
  act_timestamp : Z
}.

Record Policy : Type := mkPolicy {
  pol_id : string;
  pol_agentId : string;
  pol_leadId : string;
  pol_productType : string;
  pol_premium : Q;
  pol_commissionRate : Q;
  pol_commissionAmount : Q;
  pol_status : string;
  pol_issueDate : option Z
}.

Record Commission : Type := mkCommission {
  com_policyId : string;
  com_agentId : string;
  com_amount : Q;
  com_type : string;
  com_status : string
}.

Record Campaign : Type := mkCampaign {
  camp_id : string;
  camp_agentId : string;
  camp_active : bool;
  camp_triggerCondition : string;
  camp_actions : string;
  camp_runCount : Z;
  camp_lastRunAt : option Z
}.

Inductive AutomationTrigger : Type :=
| LEAD_CREATED
| LEAD_STATUS_CHANGED
| ACTIVITY_LOGGED
| POLICY_CREATED
| POLICY_ISSUED
| COMMISSION_EARNED
| SCORE_CHANGED
| CUSTOM.

(** The string value of each member of the TypeScript enum. *)
Definition trigger_value (t : AutomationTrigger) : string :=
  match t with
  | LEAD_CREATED => "lead.created"
  | LEAD_STATUS_CHANGED => "lead.status_changed"
  | ACTIVITY_LOGGED => "activity.logged"
  | POLICY_CREATED => "policy.created"
  | POLICY_ISSUED => "policy.issued"
  | COMMISSION_EARNED => "commission.earned"
  | SCORE_CHANGED => "score.changed"
  | CUSTOM => "custom"
  end.

Record TriggerContext : Type := mkContext {
  ctx_trigger : AutomationTrigger;
  ctx_agentId : string;
  ctx_leadId : option string;
  ctx_policyId : option string
}.

(** What an observer of one run can see besides the store: the score log
    line, each context handed to the dispatcher, each call of
    [executeAction] with the campaign it runs for, and each error that a
    [catch] block logs. *)
Inductive Event : Type :=
| EvScoring (leadId : string) (previousScore currentScore : Z)
| EvDispatch (context : TriggerContext)
| EvAction (campaignId : string) (action : JSON)
| EvError (campaignId : string) (message : string).

Record World : Type := mkWorld {
  leads : list Lead;
  activities : list Activity;
  policies : list Policy;
  commissions : list Commission;
  campaigns : list Campaign;
  now : Z;
  trace : list Event
}.

(* ================================================================= *)
(** ** Computations over the store *)

Inductive Outcome (A : Type) : Type :=
| Ok (a : A)
| Throw (message : string).

Arguments Ok {A} a.
Arguments Throw {A} message.

Definition M (A : Type) : Type := World -> Outcome A * World.

Definition ret {A : Type} (a : A) : M A := fun w => (Ok a, w).

Definition bind {A B : Type} (m : M A) (k : A -> M B) : M B :=
  fun w =>
    match m w with
    | (Ok a, w') => k a w'
    | (Throw e, w') => (Throw e, w')
    end.

Definition throw {A : Type} (message : string) : M A :=
  fun w => (Throw message, w).

Definition try_catch {A : Type} (m : M A) (handler : string -> M A) : M A :=
  fun w =>
    match m w with
    | (Ok a, w') => (Ok a, w')
    | (Throw e, w') => handler e w'
    end.

Definition gets {A : Type} (f : World -> A) : M A := fun w => (Ok (f w), w).

Definition modify (f : World -> World) : M unit := fun w => (Ok tt, f w).

Declare Scope monad_scope.
Delimit Scope monad_scope with monad.
Notation "x <- m ;; k" := (bind m (fun x => k))
  (at level 61, m at next level, right associativity) : monad_scope.
Notation "m ;; k" := (bind m (fun _ => k))
  (at level 61, right associativity) : monad_scope.
Local Open Scope monad_scope.

(** [for (const x of xs) { await body(x) }] *)
Fixpoint for_each {A : Type} (xs : list A) (body : A -> M unit) : M unit :=
  match xs with
  | [] => ret tt
  | x :: rest => body x ;; for_each rest body
  end.

Definition when (b : bool) (m : M unit) : M unit := if b then m else ret tt.

Definition emit (e : Event) : M unit :=
  modify (fun w => mkWorld (leads w) (activities w) (policies w)
                           (commissions w) (campaigns w) (now w)
                           (trace w ++ [e])).

(* ================================================================= *)
(** ** The entity store (Prisma client) *)

Module prisma.

Definition set_leads (ls : list Lead) (w : World) : World :=
  mkWorld ls (activities w) (policies w) (commissions w) (campaigns w)
          (now w) (trace w).

Definition set_activities (acts : list Activity) (w : World) : World :=
  mkWorld (leads w) acts (policies w) (commissions w) (campaigns w)
          (now w) (trace w).

Definition set_policies (ps : list Policy) (w : World) : World :=
  mkWorld (leads w) (activities w) ps (commissions w) (campaigns w)
          (now w) (trace w).

Definition set_commissions (cs : list Commission) (w : World) : World :=
  mkWorld (leads w) (activities w) (policies w) cs (campaigns w)
          (now w) (trace w).

Definition set_campaigns (cs : list Campaign) (w : World) : World :=
  mkWorld (leads w) (activities w) (policies w) (commissions w) cs
          (now w) (trace w).

Definition find_lead (id : string) (ls : list Lead) : option Lead :=
  find (fun l => String.eqb (lead_id l) id) ls.

Definition find_policy (id : string) (ps : list Policy) : option Policy :=
  find (fun p => String.eqb (pol_id p) id) ps.

Definition find_campaign (id : string) (cs : list Campaign)
  : option Campaign :=
  find (fun c => String.eqb (camp_id c) id) cs.

(** Rewrites the row with key [id]. *)
Definition replace_lead (id : string) (f : Lead -> Lead) (ls : list Lead)
  : list Lead :=
  map (fun l => if String.eqb (lead_id l) id then f l else l) ls.

Definition replace_policy (id : string) (f : Policy -> Policy)
           (ps : list Policy) : list Policy :=
  map (fun p => if String.eqb (pol_id p) id then f p else p) ps.

Definition replace_campaign (id : string) (f : Campaign -> Campaign)
           (cs : list Campaign) : list Campaign :=
  map (fun c => if String.eqb (camp_id c) id then f c else c) cs.

(** [prisma.lead.findUnique({ where: { id } })] *)
Definition lead_findUnique (id : string) : M (option Lead) :=
  gets (fun w => find_lead id (leads w)).

(** Modelled from the spec: the update timestamp of a Lead, declared in the
    Prisma schema, which is not among the sources; [lead.updatedAt] is read
    as the time of the last update, so every update of the row sets it. *)
Definition touch (t : Z) (l : Lead) : Lead :=
  mkLead (lead_id l) (lead_agentId l) (lead_status l) (lead_intentLevel l)
         (lead_score l) t.

(** [prisma.lead.update({ where: { id }, data })]: rejects when no row has
    the key. *)
Definition lead_update (id : string) (data : Lead -> Lead) : M unit :=
  l <- lead_findUnique id ;;
  match l with
  | None => throw "Record to update not found"
  | Some _ =>
      modify (fun w =>
                set_leads (replace_lead id (fun l => touch (now w) (data l))
                                        (leads w)) w)
  end.

Definition policy_findUnique (id : string) : M (option Policy) :=
  gets (fun w => find_policy id (policies w)).

Definition policy_update (id : string) (data : Policy -> Policy) : M unit :=
  p <- policy_findUnique id ;;
  match p with
  | None => throw "Record to update not found"
  | Some _ =>
      modify (fun w => set_policies (replace_policy id data (policies w)) w)
  end.

Definition campaign_findUnique (id : string) : M (option Campaign) :=
  gets (fun w => find_campaign id (campaigns w)).

Definition campaign_update (id : string) (data : Campaign -> Campaign)
  : M unit :=
  c <- campaign_findUnique id ;;
  match c with
  | None => throw "Record to update not found"
  | Some _ =>
      modify (fun w =>
                set_campaigns (replace_campaign id data (campaigns w)) w)
  end.

(** [prisma.campaign.findMany({ where: { agentId, active: true } })] *)
Definition campaign_findMany_active (agentId : string)
  : M (list Campaign) :=
  gets (fun w =>
          filter (fun c => String.eqb (camp_agentId c) agentId
                           && camp_active c)
                 (campaigns w)).

(** [prisma.activity.create]: the new row carries the creation instant. *)
Definition activity_create (agentId leadId type : string)
           (outcome : option string) : M unit :=
  modify (fun w =>
            set_activities
              (mkActivity agentId leadId type outcome (now w)
                 :: activities w) w).

Definition commission_create (c : Commission) : M unit :=
  modify (fun w => set_commissions (commissions w ++ [c]) w).

(** Insertion by decreasing timestamp; rows with equal timestamps stay in
    table order (the most recently created first). *)
Fixpoint insert_desc (a : Activity) (sorted : list Activity)
  : list Activity :=
  match sorted with
  | [] => [a]
  | b :: rest =>
      if act_timestamp b <=? act_timestamp a
      then a :: b :: rest
      else b :: insert_desc a rest
  end.

Definition order_by_timestamp_desc (acts : list Activity) : list Activity :=
  fold_right insert_desc [] acts.

(** [include: { activities: { orderBy: { timestamp: 'desc' } } }] *)
Definition activities_of (leadId : string) (w : World) : list Activity :=
  order_by_timestamp_desc
    (filter (fun a => String.eqb (act_leadId a) leadId) (activities w)).

(** [prisma.policy.create]: the new row is stored after the existing ones. *)
Definition policy_create (p : Policy) : M unit :=
  modify (fun w => set_policies (policies w ++ [p]) w).

(** Insertion by decreasing score; rows with equal scores stay in table
    order. *)
Fixpoint insert_by_score (l : Lead) (sorted : list Lead) : list Lead :=
  match sorted with
  | [] => [l]
  | m :: rest =>
      if lead_score m <=? lead_score l
      then l :: m :: rest
      else m :: insert_by_score l rest
  end.

(** [orderBy: { score: 'desc' }] *)
Definition order_by_score_desc (ls : list Lead) : list Lead :=
  fold_right insert_by_score [] ls.

(** The commission table only grows and its rows are never moved, so the
    position of a row stands for the key that the store generates for it. *)
Fixpoint find_index {A : Type} (test : A -> bool) (rows : list A)
  : option nat :=
  match rows with
  | [] => None
  | row :: rest =>
      if test row then Some 0%nat else option_map S (find_index test rest)
  end.

Fixpoint update_at {A : Type} (index : nat) (f : A -> A) (rows : list A)
  : list A :=
  match rows, index with
  | [], _ => []
  | row :: rest, O => f row :: rest
  | row :: rest, S n => row :: update_at n f rest
  end.

(** [prisma.commission.findFirst({ where })]: the key of the first row, in
    table order, that passes the test. *)
Definition commission_findFirst (test : Commission -> bool)
  : M (option nat) :=
  gets (fun w => find_index test (commissions w)).

(** [prisma.commission.update({ where: { id }, data })] *)
Definition commission_update (id : nat) (data : Commission -> Commission)
  : M unit :=
  c <- gets (fun w => nth_error (commissions w) id) ;;
  match c with
  | None => throw "Record to update not found"
  | Some _ =>
      modify (fun w => set_commissions (update_at id data (commissions w)) w)
  end.

End prisma.

(* ================================================================= *)
(** ** Shared JavaScript idioms *)

(** [switch (x) { case k: return v; ... default: return d; }] *)
Fixpoint switch {A : Type} (x : string) (cases : list (string * A))
         (default : A) : A :=
  match cases with
  | [] => default
  | (k, v) :: rest => if String.eqb x k then v else switch x rest default
  end.

(** Truthiness of an optional string (an enum value or an id). *)
Definition truthy_string (o : option string) : bool :=
  match o with
  | Some s => negb (String.eqb s "")
  | None => false
  end.

(** Truthiness of a number. *)
Definition truthy_number (q : Q) : bool := negb (Qeq_bool q 0).

(** [x || 0] for a possibly undefined number. *)
Definition or_zero (o : option Q) : Q :=
  match o with
  | Some q => if truthy_number q then q else 0%Q
  | None => 0%Q
  end.

(** [arr.includes(x)] *)
Definition includes (arr : list string) (x : string) : bool :=
  existsb (String.eqb x) arr.

(* ================================================================= *)
(** ** ScoringService *)

Module ScoringService.

Module SCORING_CONFIG.
Definition BASE_SCORE : Z := 0.
Definition MAX_SCORE : Z := 100.
Definition INTENT_HOT : Z := 50.
Definition INTENT_WARM : Z := 30.
Definition INTENT_COLD : Z := 10.
Definition INTENT_UNKNOWN : Z := 0.
Definition INTENT_NONE : Z := -10.
Definition STATUS_NEW : Z := 0.
Definition STATUS_CONTACTED : Z := 5.
Definition STATUS_ENGAGED : Z := 15.
Definition STATUS_QUALIFIED : Z := 30.
Definition STATUS_PROPOSAL : Z := 45.
Definition STATUS_APPLICATION : Z := 60.
Definition STATUS_UNDERWRITING : Z := 75.
Definition STATUS_PLACED : Z := 100.
Definition STATUS_NOT_PLACED : Z := -20.
Definition STATUS_NOT_INTERESTED : Z := -30.
Definition STATUS_UNRESPONSIVE : Z := -10.
Definition STATUS_LOST : Z := -20.
Definition ACTIVITY_MEETING_COMPLETED : Z := 20.
Definition ACTIVITY_APPLICATION_SENT : Z := 40.
Definition ACTIVITY_PROPOSAL_SENT : Z := 15.
Definition ACTIVITY_CALL_INBOUND : Z := 10.
Definition ACTIVITY_CALL_OUTBOUND : Z := 5.
Definition ACTIVITY_TEXT_RECEIVED : Z := 8.
Definition ACTIVITY_TEXT_SENT : Z := 3.
Definition ACTIVITY_EMAIL_RECEIVED : Z := 7.
Definition ACTIVITY_EMAIL_SENT : Z := 2.
Definition ACTIVITY_APPOINTMENT_SET : Z := 15.
Definition ACTIVITY_DEFAULT : Z := 2.
Definition OUTCOME_POSITIVE : Z := 10.
Definition OUTCOME_INTERESTED : Z := 15.
Definition OUTCOME_SOLD : Z := 50.
Definition OUTCOME_NEUTRAL : Z := 0.
Definition OUTCOME_NEGATIVE : Z := -5.
Definition OUTCOME_NOT_INTERESTED : Z := -15.
Definition OUTCOME_NO_ANSWER : Z := -2.
Definition OUTCOME_LEFT_MESSAGE : Z := 2.
Definition TIME_DECAY_ENABLED : bool := true.
Definition TIME_DECAY_DAYS : list Z := [30; 60; 90].
Definition TIME_DECAY_AMOUNT : list Z := [5; 10; 20].
End SCORING_CONFIG.
Import SCORING_CONFIG.

Record LeadScoreBreakdown : Type := mkBreakdown {
  currentScore : Z;
  previousScore : Z;
  change : Z;
  baseScore : Z;
  intentScore : Z;
  statusScore : Z;
  activityScore : Z;
  outcomeScore : Z;
  timeDecay : Z
}.

Definition getIntentScore (intentLevel : string) : Z :=
  switch intentLevel
    [("HOT", INTENT_HOT); ("WARM", INTENT_WARM); ("COLD", INTENT_COLD);
     ("NONE", INTENT_NONE); ("UNKNOWN", INTENT_UNKNOWN)]
    INTENT_UNKNOWN.

Definition getStatusScore (status : string) : Z :=
  switch status
    [("PLACED", STATUS_PLACED); ("UNDERWRITING", STATUS_UNDERWRITING);
     ("APPLICATION", STATUS_APPLICATION); ("PROPOSAL", STATUS_PROPOSAL);
     ("QUALIFIED", STATUS_QUALIFIED); ("ENGAGED", STATUS_ENGAGED);
     ("CONTACTED", STATUS_CONTACTED); ("NEW", STATUS_NEW);
     ("UNRESPONSIVE", STATUS_UNRESPONSIVE); ("NOT_PLACED", STATUS_NOT_PLACED);
     ("LOST", STATUS_LOST); ("NOT_INTERESTED", STATUS_NOT_INTERESTED)]
    STATUS_NEW.

Definition getActivityTypeScore (type : string) : Z :=
  switch type
    [("MEETING_COMPLETED", ACTIVITY_MEETING_COMPLETED);
     ("APPLICATION_SENT", ACTIVITY_APPLICATION_SENT);
     ("PROPOSAL_SENT", ACTIVITY_PROPOSAL_SENT);
     ("CALL_INBOUND", ACTIVITY_CALL_INBOUND);
     ("CALL_OUTBOUND", ACTIVITY_CALL_OUTBOUND);
     ("TEXT_RECEIVED", ACTIVITY_TEXT_RECEIVED);
     ("TEXT_SENT", ACTIVITY_TEXT_SENT);
     ("EMAIL_RECEIVED", ACTIVITY_EMAIL_RECEIVED);
     ("EMAIL_SENT", ACTIVITY_EMAIL_SENT);
     ("APPOINTMENT_SET", ACTIVITY_APPOINTMENT_SET)]
    ACTIVITY_DEFAULT.

Definition getOutcomeScore (outcome : string) : Z :=
  switch outcome
    [("SOLD", OUTCOME_SOLD); ("INTERESTED", OUTCOME_INTERESTED);
     ("POSITIVE", OUTCOME_POSITIVE); ("NEUTRAL", OUTCOME_NEUTRAL);
     ("CALLBACK", OUTCOME_NEUTRAL); ("LEFT_MESSAGE", OUTCOME_NEUTRAL);
     ("FOLLOW_UP_SET", OUTCOME_NEUTRAL); ("NEGATIVE", OUTCOME_NEGATIVE);
     ("NOT_INTERESTED", OUTCOME_NOT_INTERESTED);
     ("NO_ANSWER", OUTCOME_NO_ANSWER)]
    OUTCOME_NEUTRAL.

(** [activities.slice(0, 10)], one [score += ...] per activity, then the
    cap. The early return on an empty list is the first branch. *)
Definition calculateActivityScore (activities : list Activity) : Z :=
  match activities with
  | [] => 0
  | _ =>
      let recentActivities := firstn 10 activities in
      let score :=
        fold_left (fun score activity =>
                     score + getActivityTypeScore (act_type activity))
                  recentActivities 0 in
      Z.min 40 score
  end.

(** [activities.slice(0, 5)]; an activity adds its modifier only
    [if (activity.outcome)]. *)
Definition calculateOutcomeScore (activities : list Activity) : Z :=
  match activities with
  | [] => 0
  | _ =>
      let recentActivities := firstn 5 activities in
      let score :=
        fold_left (fun score activity =>
                     if truthy_string (act_outcome activity)
                     then match act_outcome activity with
                          | Some outcome => score + getOutcomeScore outcome
                          | None => score
                          end
                     else score)
                  recentActivities 0 in
      Z.min 30 score
  end.

Definition MS_PER_DAY : Z := 1000 * 60 * 60 * 24.

(** The threshold loop of [calculateTimeDecay]: index [i] runs over
    [TIME_DECAY_DAYS] and a reached threshold overwrites [decay]. *)
Definition decayForDays (daysSinceActivity : Z) : Z :=
  fold_left (fun decay i =>
               if nth i TIME_DECAY_DAYS 0 <=? daysSinceActivity
               then nth i TIME_DECAY_AMOUNT 0
               else decay)
            (seq 0 (List.length TIME_DECAY_DAYS)) 0.

Definition daysSince (activities : list Activity) (lastUpdated today : Z) : Z :=
  let lastActivity :=
    match activities with
    | a :: _ => act_timestamp a
    | [] => lastUpdated
    end in
  (today - lastActivity) / MS_PER_DAY.

Definition calculateTimeDecay (activities : list Activity)
           (lastUpdated today : Z) : Z :=
  if negb TIME_DECAY_ENABLED then 0
  else decayForDays (daysSince activities lastUpdated today).

(** The body of [calculateLeadScore] once the lead and its activities
    (newest first) are loaded. *)
Definition computeScore (lead : Lead) (activities : list Activity)
           (today : Z) : LeadScoreBreakdown :=
  let previousScore := lead_score lead in
  let intentScore := getIntentScore (lead_intentLevel lead) in
  let statusScore := getStatusScore (lead_status lead) in
  let activityScore := calculateActivityScore activities in
  let outcomeScore := calculateOutcomeScore activities in
  let timeDecay :=
    calculateTimeDecay activities (lead_updatedAt lead) today in
  let newScore :=
    BASE_SCORE + intentScore + statusScore + activityScore + outcomeScore
    - timeDecay in
  let newScore := Z.max 0 (Z.min MAX_SCORE newScore) in
  mkBreakdown newScore previousScore (newScore - previousScore) BASE_SCORE
              intentScore statusScore activityScore outcomeScore timeDecay.

Definition calculateLeadScore (leadId : string) : M LeadScoreBreakdown :=
  lead <- prisma.lead_findUnique leadId ;;
  match lead with
  | None => throw "Lead not found"
  | Some lead =>
      activities <- gets (prisma.activities_of leadId) ;;
      today <- gets now ;;
      ret (computeScore lead activities today)
  end.

Definition set_score (score : Z) (l : Lead) : Lead :=
  mkLead (lead_id l) (lead_agentId l) (lead_status l) (lead_intentLevel l)
         score (lead_updatedAt l).

Definition updateLeadScore (leadId : string) : M LeadScoreBreakdown :=
  breakdown <- calculateLeadScore leadId ;;
  prisma.lead_update leadId (set_score (currentScore breakdown)) ;;
  emit (EvScoring leadId (previousScore breakdown) (currentScore breakdown)) ;;
  ret breakdown.

Record ScoreDistribution : Type := mkDistribution {
  hot : Z;
  warm : Z;
  cold : Z;
  inactive : Z;
  total : Z
}.

(** One turn of the counting loop of [getScoreDistribution]. *)
Definition count_lead (distribution : ScoreDistribution) (lead : Lead)
  : ScoreDistribution :=
  if 70 <=? lead_score lead then
    mkDistribution (hot distribution + 1) (warm distribution)
                   (cold distribution) (inactive distribution)
                   (total distribution)
  else if 40 <=? lead_score lead then
    mkDistribution (hot distribution) (warm distribution + 1)
                   (cold distribution) (inactive distribution)
                   (total distribution)
  else if 10 <=? lead_score lead then
    mkDistribution (hot distribution) (warm distribution)
                   (cold distribution + 1) (inactive distribution)
                   (total distribution)
  else
    mkDistribution (hot distribution) (warm distribution)
                   (cold distribution) (inactive distribution + 1)
                   (total distribution).

Definition getScoreDistribution (agentId : string) : M ScoreDistribution :=
  leads <- gets (fun w =>
                   filter (fun l => String.eqb (lead_agentId l) agentId)
                          (leads w)) ;;
  let distribution := mkDistribution 0 0 0 0 (Z.of_nat (List.length leads)) in
  ret (fold_left count_lead leads distribution).

End ScoringService.

(* ================================================================= *)
(** ** AutomationService (the trigger dispatcher) *)

Module AutomationService.

(** Modelled from the spec: the members of the [LeadStatus] enum of the
    Prisma schema, which is not among the sources; they are the statuses of
    the lead state machine, the ones [getConversionFunnel] counts. Prisma
    rejects any other value written to [Lead.status]. *)
Definition LeadStatus : list string :=
  ["NEW"; "CONTACTED"; "ENGAGED"; "QUALIFIED"; "PROPOSAL"; "APPLICATION";
   "UNDERWRITING"; "PLACED"; "NOT_PLACED"; "NOT_INTERESTED"; "LOST";
   "UNRESPONSIVE"].

Definition set_status (status : string) (l : Lead) : Lead :=
  mkLead (lead_id l) (lead_agentId l) status (lead_intentLevel l)
         (lead_score l) (lead_updatedAt l).

(** [prisma.lead.update({ where: { id }, data: { status: action.status } })]
    with an untyped [action.status]: [undefined] writes no column, a member
    of the enum is written, anything else fails validation. *)
Definition update_status_from_action (leadId : string) (status : Access)
  : M unit :=
  match status with
  | Undefined => prisma.lead_update leadId (fun l => l)
  | Value (JStr s) =>
      if includes LeadStatus s
      then prisma.lead_update leadId (set_status s)
      else throw "PrismaClientValidationError"
  | _ => throw "PrismaClientValidationError"
  end.

(** The simulated actions only write to the console; an unknown type is a
    warning. Reading [action.type] of [null] throws. *)
Definition executeAction (action : JSON) (context : TriggerContext) : M unit :=
  match get_property action "type" with
  | TypeError => throw "TypeError"
  | type =>
      if strict_eq_string type "send_email" then ret tt
      else if strict_eq_string type "send_sms" then ret tt
      else if strict_eq_string type "update_lead_status" then
        if truthy_string (ctx_leadId context) then
          match ctx_leadId context with
          | Some leadId =>
              update_status_from_action leadId (get_property action "status")
          | None => ret tt
          end
        else ret tt
      else if strict_eq_string type "create_task" then ret tt
      else if strict_eq_string type "log_note" then ret tt
      else if strict_eq_string type "webhook" then ret tt
      else ret tt
  end.

Definition bump_run (t : Z) (c : Campaign) : Campaign :=
  mkCampaign (camp_id c) (camp_agentId c) (camp_active c)
             (camp_triggerCondition c) (camp_actions c)
             (camp_runCount c + 1) (Some t).

Section WithPlatform.
Context `{Platform}.

Definition evaluateCampaignTrigger (campaignId : string)
           (context : TriggerContext) : M bool :=
  campaign <- prisma.campaign_findUnique campaignId ;;
  match campaign with
  | None => ret false
  | Some campaign =>
      try_catch
        (match JSON_parse (camp_triggerCondition campaign) with
         | None => throw "SyntaxError"
         | Some triggerCondition =>
             match get_property triggerCondition "trigger" with
             | TypeError => throw "TypeError"
             | trigger =>
                 if truthy_access trigger
                    && negb (strict_eq_string
                               trigger (trigger_value (ctx_trigger context)))
                 then ret false
                 else ret true
             end
         end)
        (fun error =>
           emit (EvError campaignId "Failed to evaluate campaign trigger") ;;
           ret false)
  end.

Definition executeCampaign (campaignId : string) (context : TriggerContext)
  : M unit :=
  campaign <- prisma.campaign_findUnique campaignId ;;
  match campaign with
  | None => ret tt
  | Some campaign =>
      try_catch
        (match JSON_parse (camp_actions campaign) with
         | None => throw "SyntaxError"
         | Some actions =>
             match iterate actions with
             | None => throw "TypeError"
             | Some items =>
                 for_each items
                   (fun action =>
                      emit (EvAction campaignId action) ;;
                      executeAction action context) ;;
                 t <- gets now ;;
                 prisma.campaign_update campaignId (bump_run t)
             end
         end)
        (fun error => emit (EvError campaignId "Failed to execute campaign"))
  end.

Definition checkCampaigns (context : TriggerContext) : M unit :=
  emit (EvDispatch context) ;;
  campaigns <- prisma.campaign_findMany_active (ctx_agentId context) ;;
  for_each campaigns
    (fun campaign =>
       shouldTrigger <- evaluateCampaignTrigger (camp_id campaign) context ;;
       when shouldTrigger (executeCampaign (camp_id campaign) context)).

Definition handleLeadCreated (lead : Lead) : M unit :=
  checkCampaigns
    (mkContext LEAD_CREATED (lead_agentId lead) (Some (lead_id lead)) None).

Definition handleLeadStatusChanged (leadId oldStatus newStatus : string)
  : M unit :=
  lead <- prisma.lead_findUnique leadId ;;
  match lead with
  | None => ret tt
  | Some lead =>
      checkCampaigns
        (mkContext LEAD_STATUS_CHANGED (lead_agentId lead) (Some leadId) None)
  end.

Definition handleActivityLogged (leadId activityType : string)
           (outcome : option string) : M unit :=
  lead <- prisma.lead_findUnique leadId ;;
  match lead with
  | None => ret tt
  | Some lead =>
      checkCampaigns
        (mkContext ACTIVITY_LOGGED (lead_agentId lead) (Some leadId) None)
  end.

Definition handlePolicyCreated (policyId leadId : string) : M unit :=
  lead <- prisma.lead_findUnique leadId ;;
  match lead with
  | None => ret tt
  | Some lead =>
      checkCampaigns
        (mkContext POLICY_CREATED (lead_agentId lead) (Some leadId)
                   (Some policyId))
  end.

Definition handlePolicyIssued (policyId leadId : string) : M unit :=
  lead <- prisma.lead_findUnique leadId ;;
  match lead with
  | None => ret tt
  | Some lead =>
      checkCampaigns
        (mkContext POLICY_ISSUED (lead_agentId lead) (Some leadId)
                   (Some policyId))
  end.

Definition handleScoreChanged (leadId : string) (oldScore newScore : Z)
  : M unit :=
  lead <- prisma.lead_findUnique leadId ;;
  match lead with
  | None => ret tt
  | Some lead =>
      let threshold := 20 in
      if Z.abs (newScore - oldScore) <? threshold then ret tt
      else
        checkCampaigns
          (mkContext SCORE_CHANGED (lead_agentId lead) (Some leadId) None)
  end.

Definition runCampaign (campaignId : string) : M unit :=
  campaign <- prisma.campaign_findUnique campaignId ;;
  match campaign with
  | None => throw "Campaign not found"
  | Some campaign =>
      ls <- gets (fun w =>
                    filter (fun l => String.eqb (lead_agentId l)
                                                (camp_agentId campaign))
                           (leads w)) ;;
      for_each ls
        (fun lead =>
           executeCampaign campaignId
             (mkContext CUSTOM (camp_agentId campaign) (Some (lead_id lead))
                        None))
  end.

Definition set_active (active : bool) (c : Campaign) : Campaign :=
  mkCampaign (camp_id c) (camp_agentId c) active (camp_triggerCondition c)
             (camp_actions c) (camp_runCount c) (camp_lastRunAt c).

Definition toggleCampaign (campaignId : string) : M unit :=
  campaign <- prisma.campaign_findUnique campaignId ;;
  match campaign with
  | None => throw (String.append "Campaign not found: " campaignId)
  | Some campaign =>
      prisma.campaign_update campaignId
        (set_active (negb (camp_active campaign)))
  end.

End WithPlatform.
End AutomationService.

(* ================================================================= *)
(** ** ActivityService *)

Module ActivityService.

(** The [switch] of [autoUpdateLeadStatus]: the status an activity asks
    for, [None] while [newStatus] stays [null]. *)
Definition derivedStatus (status activityType : string)
           (outcome : option string) : option string :=
  if includes ["CALL_OUTBOUND"; "CALL_INBOUND"] activityType then
    if String.eqb status "NEW" then Some "CONTACTED" else None
  else if includes ["MEETING_SCHEDULED"; "APPOINTMENT_SET"] activityType then
    if includes ["NEW"; "CONTACTED"] status then Some "ENGAGED" else None
  else if String.eqb activityType "MEETING_COMPLETED" then
    match outcome with
    | Some o =>
        if String.eqb o "INTERESTED" || String.eqb o "POSITIVE"
        then Some "QUALIFIED"
        else if String.eqb o "NOT_INTERESTED" then Some "NOT_INTERESTED"
        else None
    | None => None
    end
  else if String.eqb activityType "PROPOSAL_SENT" then
    if includes ["QUALIFIED"; "ENGAGED"] status then Some "PROPOSAL" else None
  else if String.eqb activityType "APPLICATION_SENT" then
    if includes ["PROPOSAL"; "QUALIFIED"] status then Some "APPLICATION"
    else None
  else None.

Section WithPlatform.
Context `{Platform}.

Definition autoUpdateLeadStatus (leadId activityType : string)
           (outcome : option string) : M unit :=
  lead <- prisma.lead_findUnique leadId ;;
  match lead with
  | None => ret tt
  | Some lead =>
      match derivedStatus (lead_status lead) activityType outcome with
      | Some newStatus =>
          if negb (String.eqb newStatus (lead_status lead)) then
            prisma.lead_update leadId
              (AutomationService.set_status newStatus) ;;
            AutomationService.handleLeadStatusChanged
              leadId (lead_status lead) newStatus
          else ret tt
      | None => ret tt
      end
  end.

Definition logActivity (agentId leadId type : string)
           (outcome : option string) : M unit :=
  lead <- prisma.lead_findUnique leadId ;;
  match lead with
  | None => throw "Lead not found"
  | Some _ =>
      prisma.activity_create agentId leadId type outcome ;;
      ScoringService.updateLeadScore leadId ;;
      AutomationService.handleActivityLogged leadId type outcome ;;
      autoUpdateLeadStatus leadId type outcome
  end.

End WithPlatform.
End ActivityService.

(* ================================================================= *)
(** ** CommissionService *)

Module CommissionService.

(** [table[key]], [None] when the object has no such key. *)
Fixpoint lookup (key : string) (table : list (string * Q)) : option Q :=
  match table with
  | [] => None
  | (k, v) :: rest => if String.eqb key k then Some v else lookup key rest
  end.

Definition DEFAULT_COMMISSION_RATES : list (string * Q) :=
  [("TERM_LIFE", 90 # 100); ("WHOLE_LIFE", 55 # 100);
   ("UNIVERSAL_LIFE", 55 # 100); ("FINAL_EXPENSE", 60 # 100);
   ("IUL", 50 # 100); ("HEALTH_ACA", 4 # 100);
   ("HEALTH_SHORT_TERM", 20 # 100); ("MEDICARE_SUPPLEMENT", 25 # 100);
   ("MEDICARE_ADVANTAGE", 30 # 100); ("DENTAL", 20 # 100);
   ("VISION", 15 # 100); ("DISABILITY_INCOME", 40 # 100);
   ("CRITICAL_ILLNESS", 35 # 100); ("LONG_TERM_CARE", 35 # 100);
   ("ANNUITY", 4 # 100); ("OTHER", 25 # 100)]%Q.

Definition RENEWAL_COMMISSION_RATES : list (string * Q) :=
  [("TERM_LIFE", 0 # 1000); ("WHOLE_LIFE", 35 # 1000);
   ("UNIVERSAL_LIFE", 35 # 1000); ("FINAL_EXPENSE", 30 # 1000);
   ("IUL", 25 # 1000); ("HEALTH_ACA", 40 # 1000);
   ("MEDICARE_SUPPLEMENT", 25 # 1000); ("MEDICARE_ADVANTAGE", 0 # 1000);
   ("ANNUITY", 10 # 1000)]%Q.

Record CommissionResult : Type := mkResult {
  commissionAmount : Q;
  commissionRate : Q;
  type : string
}.

(** [customRate] is the optional [commissionRate] parameter; callers that
    omit [type] pass its default ["FIRST_YEAR"]. *)
Definition calculateCommission (premium : Q) (productType : string)
           (customRate : option Q) (type : string) : CommissionResult :=
  let commissionRate :=
    match customRate with
    | Some r => Some r
    | None =>
        if String.eqb type "RENEWAL"
        then Some (or_zero (lookup productType RENEWAL_COMMISSION_RATES))
        else lookup productType DEFAULT_COMMISSION_RATES
    end in
  let commissionAmount := (premium * or_zero commissionRate)%Q in
  mkResult commissionAmount (or_zero commissionRate) type.

Definition createCommission (policyId agentId : string) (amount : Q)
           (type : string) : M unit :=
  prisma.commission_create (mkCommission policyId agentId amount type "PENDING").

Definition set_commission (amount rate : Q) (p : Policy) : Policy :=
  mkPolicy (pol_id p) (pol_agentId p) (pol_leadId p) (pol_productType p)
           (pol_premium p) rate amount (pol_status p) (pol_issueDate p).

Definition handlePolicyIssued (policyId : string) : M unit :=
  policy <- prisma.policy_findUnique policyId ;;
  match policy with
  | None => throw "Policy not found"
  | Some policy =>
      let result :=
        calculateCommission (pol_premium policy) (pol_productType policy)
                            None "FIRST_YEAR" in
      createCommission policyId (pol_agentId policy)
                       (commissionAmount result) (type result) ;;
      prisma.policy_update policyId
        (set_commission (commissionAmount result) (commissionRate result))
  end.

Definition createRenewalCommission (policyId : string) : M unit :=
  policy <- prisma.policy_findUnique policyId ;;
  match policy with
  | None => ret tt
  | Some policy =>
      if negb (String.eqb (pol_status policy) "ISSUED") then ret tt
      else
        match lookup (pol_productType policy) RENEWAL_COMMISSION_RATES with
        | None => ret tt
        | Some renewalRate =>
            if negb (truthy_number renewalRate) then ret tt
            else
              let result :=
                calculateCommission (pol_premium policy)
                                    (pol_productType policy) None "RENEWAL" in
              createCommission policyId (pol_agentId policy)
                               (commissionAmount result) "RENEWAL"
        end
  end.

Definition set_commission_status (status : string) (c : Commission)
  : Commission :=
  mkCommission (com_policyId c) (com_agentId c) (com_amount c) (com_type c)
               status.

(** The payment date, like the other columns that no decision reads, is not
    kept. *)
Definition markAsPaid (commissionId : nat) : M unit :=
  prisma.commission_update commissionId (set_commission_status "PAID").

Definition markPolicyCommissionAsPaid (policyId : string) : M unit :=
  commission <-
    prisma.commission_findFirst
      (fun c => String.eqb (com_policyId c) policyId
                && String.eqb (com_status c) "PENDING") ;;
  match commission with
  | None => throw (String.append "No pending commission found for policy: "
                            policyId)
  | Some id => markAsPaid id
  end.


(** The two counts of the summary. Its three amounts are obtained from the
    sums of the database by [Number(...)] and added as JavaScript numbers;
    they are not part of the model. *)
Record CommissionSummary : Type := mkSummary {
  pendingCount : Z;
  paidCount : Z
}.

Definition getCommissionSummary (agentId : string) : M CommissionSummary :=
  rows <- gets commissions ;;
  let selected status :=
    filter (fun c => String.eqb (com_agentId c) agentId
                     && String.eqb (com_status c) status) rows in
  let pending := Z.of_nat (List.length (selected "PENDING")) in
  let paid := Z.of_nat (List.length (selected "PAID")) in
  ret (mkSummary pending paid).

End CommissionService.

(* ================================================================= *)
(** ** PolicyService *)

Module PolicyService.

Record UpdatePolicyParams : Type := mkPolicyParams {
  productType : option string;
  premium : option Q;
  status : option string;
  issueDate : option Z
}.

(** The [data] object of the first [prisma.policy.update]: a column is
    written when its parameter is not [undefined]. *)
Definition policy_data (params : UpdatePolicyParams) (p : Policy) : Policy :=
  mkPolicy (pol_id p) (pol_agentId p) (pol_leadId p)
           (match productType params with
            | Some x => x
            | None => pol_productType p
            end)
           (match premium params with
            | Some x => x
            | None => pol_premium p
            end)
           (pol_commissionRate p) (pol_commissionAmount p)
           (match status params with
            | Some x => x
            | None => pol_status p
            end)
           (match issueDate params with
            | Some x => Some x
            | None => pol_issueDate p
            end).

Record CreatePolicyParams : Type := mkCreatePolicy {
  new_agentId : string;
  new_leadId : string;
  new_productType : string;
  new_premium : Q;
  new_commissionRate : option Q;
  new_status : option string
}.

Definition set_issueDate (t : Z) (p : Policy) : Policy :=
  mkPolicy (pol_id p) (pol_agentId p) (pol_leadId p) (pol_productType p)
           (pol_premium p) (pol_commissionRate p) (pol_commissionAmount p)
           (pol_status p) (Some t).

Section WithPlatform.
Context `{Platform}.

Definition handlePolicyIssued (policyId : string) : M unit :=
  policy <- prisma.policy_findUnique policyId ;;
  match policy with
  | None => ret tt
  | Some policy =>
      (match pol_issueDate policy with
       | None =>
           t <- gets now ;;
           prisma.policy_update policyId (set_issueDate t)
       | Some _ => ret tt
       end) ;;
      CommissionService.handlePolicyIssued policyId ;;
      prisma.lead_update (pol_leadId policy)
        (AutomationService.set_status "PLACED") ;;
      ActivityService.logActivity (pol_agentId policy) (pol_leadId policy)
                                  "NOTE" (Some "SOLD") ;;
      AutomationService.handlePolicyIssued policyId (pol_leadId policy)
  end.

Definition handlePolicyInUnderwriting (policyId : string) : M unit :=
  policy <- prisma.policy_findUnique policyId ;;
  match policy with
  | None => ret tt
  | Some policy =>
      prisma.lead_update (pol_leadId policy)
        (AutomationService.set_status "UNDERWRITING") ;;
      ActivityService.logActivity (pol_agentId policy) (pol_leadId policy)
                                  "NOTE" None ;;
      _ <- ScoringService.updateLeadScore (pol_leadId policy) ;;
      ret tt
  end.

Definition handlePolicyNotIssued (policyId status : string) : M unit :=
  policy <- prisma.policy_findUnique policyId ;;
  match policy with
  | None => ret tt
  | Some policy =>
      let leadStatus :=
        if String.eqb status "WITHDRAWN" then "LOST" else "NOT_PLACED" in
      prisma.lead_update (pol_leadId policy)
        (AutomationService.set_status leadStatus) ;;
      ActivityService.logActivity (pol_agentId policy) (pol_leadId policy)
                                  "NOTE" None ;;
      _ <- ScoringService.updateLeadScore (pol_leadId policy) ;;
      ret tt
  end.

Definition updatePolicy (policyId : string) (params : UpdatePolicyParams)
  : M unit :=
  policy <- prisma.policy_findUnique policyId ;;
  match policy with
  | None => throw "Policy not found"
  | Some policy =>
      let previousStatus := pol_status policy in
      prisma.policy_update policyId (policy_data params) ;;
      let updatedPolicy := policy_data params policy in
      (match premium params with
       | Some newPremium =>
           when (truthy_number newPremium
                 && String.eqb previousStatus "QUOTED"
                 && negb (truthy_string (status params)))
             (let commissionResult :=
                CommissionService.calculateCommission
                  newPremium (pol_productType updatedPolicy) None
                  "FIRST_YEAR" in
              prisma.policy_update policyId
                (CommissionService.set_commission
                   (CommissionService.commissionAmount commissionResult)
                   (CommissionService.commissionRate commissionResult)))
       | None => ret tt
       end) ;;
      when (match status params with
            | Some s => String.eqb s "ISSUED"
            | None => false
            end
            && negb (String.eqb previousStatus "ISSUED"))
        (handlePolicyIssued policyId) ;;
      when (match status params with
            | Some s => String.eqb s "UNDERWRITING"
            | None => false
            end
            && negb (String.eqb previousStatus "UNDERWRITING"))
        (handlePolicyInUnderwriting policyId) ;;
      match status params with
      | Some s =>
          when (truthy_string (status params)
                && includes ["DECLINED"; "POSTPONED"; "WITHDRAWN"] s)
            (handlePolicyNotIssued policyId s)
      | None => ret tt
      end
  end.

Definition updatePolicyStatus (policyId newStatus : string)
           (issueDate : option Z) : M unit :=
  updatePolicy policyId (mkPolicyParams None None (Some newStatus) issueDate).

(** [policyId] is the key that [prisma.policy.create] generates for the
    new row; [status] defaults to APPLIED. The stale [lead] read at the start
    decides whether the lead is moved to APPLICATION. *)
Definition createPolicy (policyId : string) (params : CreatePolicyParams)
  : M unit :=
  let agentId := new_agentId params in
  let leadId := new_leadId params in
  let status :=
    match new_status params with
    | Some s => s
    | None => "APPLIED"
    end in
  lead <- prisma.lead_findUnique leadId ;;
  match lead with
  | None => throw (String.append "Lead not found: " leadId)
  | Some lead =>
      let commissionResult :=
        CommissionService.calculateCommission
          (new_premium params) (new_productType params)
          (new_commissionRate params) "FIRST_YEAR" in
      prisma.policy_create
        (mkPolicy policyId agentId leadId (new_productType params)
                  (new_premium params)
                  (CommissionService.commissionRate commissionResult)
                  (CommissionService.commissionAmount commissionResult)
                  status None) ;;
      ActivityService.logActivity agentId leadId "APPLICATION_SENT" None ;;
      when (negb (String.eqb (lead_status lead) "APPLICATION")
            && negb (String.eqb (lead_status lead) "UNDERWRITING"))
        (prisma.lead_update leadId
           (AutomationService.set_status "APPLICATION")) ;;
      _ <- ScoringService.updateLeadScore leadId ;;
      AutomationService.handlePolicyCreated policyId leadId ;;
      when (String.eqb status "ISSUED") (handlePolicyIssued policyId)
  end.

End WithPlatform.
End PolicyService.

(* ================================================================= *)
(** ** LeadService *)

Module LeadService.

Record UpdateLeadParams : Type := mkLeadParams {
  status : option string;
  intentLevel : option string
}.

Definition lead_data (params : UpdateLeadParams) (l : Lead) : Lead :=
  mkLead (lead_id l) (lead_agentId l)
         (match status params with
          | Some x => x
          | None => lead_status l
          end)
         (match intentLevel params with
          | Some x => x
          | None => lead_intentLevel l
          end)
         (lead_score l) (lead_updatedAt l).

Section WithPlatform.
Context `{Platform}.

Definition updateLead (leadId : string) (params : UpdateLeadParams) : M unit :=
  lead <- prisma.lead_findUnique leadId ;;
  match lead with
  | None => throw "Lead not found"
  | Some lead =>
      let previousStatus := lead_status lead in
      prisma.lead_update leadId (lead_data params) ;;
      (if truthy_string (status params) || truthy_string (intentLevel params)
       then _ <- ScoringService.updateLeadScore leadId ;; ret tt
       else ret tt) ;;
      match status params with
      | Some newStatus =>
          when (truthy_string (status params)
                && negb (String.eqb newStatus previousStatus))
            (AutomationService.handleLeadStatusChanged
               leadId previousStatus newStatus)
      | None => ret tt
      end
  end.

Definition updateStatus (leadId newStatus : string) : M unit :=
  updateLead leadId (mkLeadParams (Some newStatus) None).

Definition updateIntentLevel (leadId newIntentLevel : string) : M unit :=
  updateLead leadId (mkLeadParams None (Some newIntentLevel)).

(** The rows of the query; the activities it includes with each row are
    not part of the selection. [minScore] defaults to 70. *)
Definition getHotLeads (agentId : string) (minScore : Z) : M (list Lead) :=
  gets (fun w =>
          prisma.order_by_score_desc
            (filter (fun l =>
                       String.eqb (lead_agentId l) agentId
                       && (minScore <=? lead_score l)
                       && negb (includes ["PLACED"; "NOT_INTERESTED"; "LOST"]
                                         (lead_status l)))
                    (leads w))).

End WithPlatform.
End LeadService.

(* ================================================================= *)
(** ** The specification's wording of the outcome component *)

Module Spec.

(** SOLD +50, INTERESTED +15, POSITIVE +10, NEGATIVE -5, NOT_INTERESTED -15,
    NO_ANSWER -2, else 0. *)
Definition outcome_modifier (outcome : string) : Z :=
  switch outcome
    [("SOLD", 50); ("INTERESTED", 15); ("POSITIVE", 10); ("NEGATIVE", -5);
     ("NOT_INTERESTED", -15); ("NO_ANSWER", -2)]
    0.

Definition has_outcome (a : Activity) : bool := truthy_string (act_outcome a).

Definition modifier_of (a : Activity) : Z :=
  match act_outcome a with
  | Some outcome => outcome_modifier outcome
  | None => 0
  end.

Definition sum_modifiers (acts : list Activity) : Z :=
  fold_right (fun a total => modifier_of a + total) 0 acts.

(** As worded: the five most recent among the activities that have an
    outcome, so an activity without outcome does not take one of the five
    places. *)
Definition outcomeScore_worded (acts : list Activity) : Z :=
  Z.min 30 (sum_modifiers (firstn 5 (filter has_outcome acts))).

(** The window read the other way: the five most recent activities, of
    which those that have an outcome count. *)
Definition outcomeScore_window (acts : list Activity) : Z :=
  Z.min 30 (sum_modifiers (filter has_outcome (firstn 5 acts))).

End Spec.

(* ================================================================= *)
(** ** Sample data for the concrete instances *)

Module Samples.

(** The double quote, and a JSON string literal without escapes. *)
Definition dq : string := String "034"%char EmptyString.

Definition quoted (s : string) : string := dq ++ s ++ dq.

(** The text [{"k":"v"}]. *)
Definition object1 (k v : string) : string :=
  "{" ++ quoted k ++ ":" ++ quoted v ++ "}".

Definition note (outcome : option string) (t : Z) : Activity :=
  mkActivity "A1" "L1" "NOTE" outcome t.

(** Five recent notes without outcome, then an older sale. *)
Definition five_notes_then_sale : list Activity :=
  [note None 600; note None 500; note None 400; note None 300;
   note None 200; note (Some "SOLD") 100].

Definition lead1 (status : string) : Lead :=
  mkLead "L1" "A1" status "HOT" 0 0.

Definition world_of (ls : list Lead) (ps : list Policy) (cs : list Campaign)
  : World :=
  mkWorld ls [] ps [] cs 1000 [].

(** Stored texts: [{"trigger":"score.changed"}], [{}],
    [[{"type":"send_email"},{"type":"create_task"}]],
    [[{"type":"update_lead_status","status":"HOT"},{"type":"send_email"}]],
    [[null,{"type":"send_email"}]] and a text that is not JSON. *)
Definition on_score_changed_text : string := object1 "trigger" "score.changed".

Definition empty_object_text : string := "{}".

Definition two_actions_text : string :=
  "[" ++ object1 "type" "send_email" ++ ","
      ++ object1 "type" "create_task" ++ "]".

Definition bad_status_text : string :=
  "[{" ++ quoted "type" ++ ":" ++ quoted "update_lead_status" ++ ","
       ++ quoted "status" ++ ":" ++ quoted "HOT" ++ "},"
       ++ object1 "type" "send_email" ++ "]".

Definition null_first_text : string :=
  "[null," ++ object1 "type" "send_email" ++ "]".

Definition malformed_text : string := "not json".

Definition send_email : JSON := JObj [("type", JStr "send_email")].

Definition create_task : JSON := JObj [("type", JStr "create_task")].

Definition set_status_hot : JSON :=
  JObj [("type", JStr "update_lead_status"); ("status", JStr "HOT")].

(** [JSON.parse] on the texts above: each JSON text with its value; the
    text that is not JSON has no value. *)
Definition sample_parse (text : string) : option JSON :=
  switch text
    [(on_score_changed_text, Some (JObj [("trigger", JStr "score.changed")]));
     (empty_object_text, Some (JObj []));
     (two_actions_text, Some (JArr [send_email; create_task]));
     (bad_status_text, Some (JArr [set_status_hot; send_email]));
     (null_first_text, Some (JArr [JNull; send_email]))]
    None.

Definition platform : Platform := {| JSON_parse := sample_parse |}.

Definition campaign (id condition actions : string) : Campaign :=
  mkCampaign id "A1" true condition actions 0 None.

(** Active campaigns of agent A1. Four are configured for score changes:
    C1 has unreadable actions, the first action of C2 carries a status that
    is not in the enum, C3 is sound, the first action of C4 is [null]. C5
    has a condition without trigger kind, the condition of C6 is
    unreadable. *)
Definition unreadable_campaign : Campaign :=
  campaign "C1" on_score_changed_text malformed_text.

Definition failing_campaign : Campaign :=
  campaign "C2" on_score_changed_text bad_status_text.

Definition sound_campaign : Campaign :=
  campaign "C3" on_score_changed_text two_actions_text.

Definition null_campaign : Campaign :=
  campaign "C4" on_score_changed_text null_first_text.

Definition any_event_campaign : Campaign :=
  campaign "C5" empty_object_text two_actions_text.

Definition broken_condition_campaign : Campaign :=
  campaign "C6" malformed_text two_actions_text.

Definition dispatch_world : World :=
  world_of [lead1 "NEW"] []
           [unreadable_campaign; failing_campaign; sound_campaign;
            null_campaign; any_event_campaign; broken_condition_campaign].

(** A TERM_LIFE policy of lead L1: premium 1200, commission 90% = 1080. *)
Definition policy1 (status : string) : Policy :=
  mkPolicy "P1" "A1" "L1" "TERM_LIFE" 1200 (90 # 100) 1080 status None.

Definition policy_world : World :=
  world_of [lead1 "APPLICATION"] [policy1 "APPLIED"] [sound_campaign].

Definition quoted_policy_world : World :=
  world_of [lead1 "APPLICATION"] [policy1 "QUOTED"] [sound_campaign].

Definition score_changed_context : TriggerContext :=
  mkContext SCORE_CHANGED "A1" (Some "L1") None.

Definition activity_logged_context : TriggerContext :=
  mkContext ACTIVITY_LOGGED "A1" (Some "L1") None.

(** An issued WHOLE_LIFE policy of lead L1: premium 2000, commission 55%. *)
Definition whole_life_policy : Policy :=
  mkPolicy "P2" "A1" "L1" "WHOLE_LIFE" 2000 (55 # 100) 1100 "ISSUED" (Some 500).

(** The ledger of agent A1 after two issued policies: the first-year
    commission of P1 is paid, that of P2 is pending; one commission of
    another agent is pending. *)
Definition ledger_world : World :=
  mkWorld [lead1 "PLACED"] [] [policy1 "ISSUED"; whole_life_policy]
          [mkCommission "P1" "A1" 1080 "FIRST_YEAR" "PAID";
           mkCommission "P9" "A2" 300 "FIRST_YEAR" "PENDING";
           mkCommission "P2" "A1" 1100 "FIRST_YEAR" "PENDING"]
          [] 1000 [].

(** A campaign of agent A1 that is switched off and is configured for
    score changes, in a store with two leads of A1 and one of A2. *)
Definition switched_off_campaign : Campaign :=
  mkCampaign "C7" "A1" false on_score_changed_text two_actions_text 0 None.

Definition switched_off_world : World :=
  world_of [lead1 "NEW"; mkLead "L2" "A2" "NEW" "WARM" 0 0;
            mkLead "L3" "A1" "ENGAGED" "COLD" 0 0]
           [] [sound_campaign; switched_off_campaign].

(** [JSON.parse] that also reads the text [null]. *)
Definition parse_with_null (text : string) : option JSON :=
  if String.eqb text "null" then Some JNull else sample_parse text.

Definition platform_with_null : Platform :=
  {| JSON_parse := parse_with_null |}.

(** An active campaign of agent A1 whose stored condition is the text
    [null], beside one whose condition is [{}], for lead L1. *)
Definition null_condition_campaign : Campaign :=
  campaign "C8" "null" two_actions_text.

Definition null_condition_world : World :=
  world_of [lead1 "NEW"] [] [any_event_campaign; null_condition_campaign].

(** Lead L1, contacted, with one outbound call on record. *)
Definition scored_world : World :=
  mkWorld [lead1 "CONTACTED"]
          [mkActivity "A1" "L1" "CALL_OUTBOUND" (Some "LEFT_MESSAGE") 900]
          [] [] [] 1000 [].

End Samples.

(* ================================================================= *)
(** ** Vocabulary of the properties *)

Local Open Scope list_scope.

Module Vocabulary.

(** The actions that the trace shows as run for a campaign, in order. *)
Fixpoint actions_run (campaignId : string) (t : list Event) : list JSON :=
  match t with
  | [] => []
  | EvAction c a :: rest =>
      if String.eqb c campaignId
      then a :: actions_run campaignId rest
      else actions_run campaignId rest
  | _ :: rest => actions_run campaignId rest
  end.

(** How many failures the trace shows as logged for a campaign. *)
Fixpoint errors_logged (campaignId : string) (t : list Event) : nat :=
  match t with
  | [] => 0
  | EvError c _ :: rest =>
      if String.eqb c campaignId
      then S (errors_logged campaignId rest)
      else errors_logged campaignId rest
  | _ :: rest => errors_logged campaignId rest
  end.

(** A stored action that cannot throw once the lead of the context exists:
    it is not [null], and an [update_lead_status] carries a member of the
    status enum or no status at all. *)
Definition action_runs (action : JSON) : bool :=
  match get_property action "type" with
  | TypeError => false
  | type =>
      if strict_eq_string type "update_lead_status" then
        match get_property action "status" with
        | Undefined => true
        | Value (JStr s) => includes AutomationService.LeadStatus s
        | _ => false
        end
      else true
  end.

(** The test [evaluateCampaignTrigger] applies to a parsed condition. *)
Definition trigger_matches (condition : JSON) (kind : AutomationTrigger)
  : bool :=
  match get_property condition "trigger" with
  | TypeError => false
  | trigger =>
      negb (truthy_access trigger
            && negb (strict_eq_string trigger (trigger_value kind)))
  end.

(** Primary keys are unique. *)
Fixpoint distinct (ids : list string) : bool :=
  match ids with
  | [] => true
  | id :: rest => negb (includes rest id) && distinct rest
  end.

(** The lead an event is about is stored. *)
Definition lead_known (context : TriggerContext) (w : World) : bool :=
  match ctx_leadId context with
  | Some id =>
      match prisma.find_lead id (leads w) with
      | Some _ => true
      | None => false
      end
  | None => true
  end.

(** The columns of a campaign that a dispatch never writes. *)
Definition camp_static (c : Campaign)
  : string * string * bool * string * string :=
  (camp_id c, camp_agentId c, camp_active c, camp_triggerCondition c,
   camp_actions c).

(** An event a computation may add when it may only dispatch trigger kinds
    in [T]. *)
Definition allowed (T : AutomationTrigger -> Prop) (e : Event) : Prop :=
  match e with
  | EvDispatch context => T (ctx_trigger context)
  | _ => True
  end.

(** An event about a campaign is about one in [S]. *)
Definition about (S : string -> Prop) (e : Event) : Prop :=
  match e with
  | EvAction c _ => S c
  | EvError c _ => S c
  | _ => True
  end.

(** What a computation leaves alone: policies, commissions, the clock, the
    keys of the leads, the static columns of the campaigns, every campaign
    outside [S]; it only appends to the trace, dispatching kinds in [T] and
    running actions or logging failures for campaigns in [S]. *)
Record frame (T : AutomationTrigger -> Prop) (S : string -> Prop)
       (w w' : World) : Prop := mkFrame {
  fr_policies : policies w' = policies w;
  fr_commissions : commissions w' = commissions w;
  fr_now : now w' = now w;
  fr_leads : map lead_id (leads w') = map lead_id (leads w);
  fr_static : map camp_static (campaigns w') = map camp_static (campaigns w);
  fr_others : forall id, ~ S id ->
      prisma.find_campaign id (campaigns w')
      = prisma.find_campaign id (campaigns w);
  fr_trace : exists t,
      trace w' = trace w ++ t
      /\ Forall (allowed T) t
      /\ forall id, ~ S id ->
           actions_run id t = [] /\ errors_logged id t = 0%nat
}.

Definition preserves {A : Type} (T : AutomationTrigger -> Prop)
           (S : string -> Prop) (m : M A) : Prop :=
  forall w, frame T S w (snd (m w)).

(** The computation returns normally from every store. *)
Definition total {A : Type} (m : M A) : Prop :=
  forall w, exists a, fst (m w) = Ok a.

(** A stored action that throws in the given context: it is [null], or it
    is an [update_lead_status] for a lead whose status is not a member of
    the enum. *)
Definition action_throws (context : TriggerContext) (action : JSON) : bool :=
  match get_property action "type" with
  | TypeError => true
  | type =>
      strict_eq_string type "update_lead_status"
      && truthy_string (ctx_leadId context)
      && match get_property action "status" with
         | Undefined => false
         | Value (JStr s) => negb (includes AutomationService.LeadStatus s)
         | _ => true
         end
  end.

(** What one dispatch did for a campaign: its row afterwards, the actions
    run for it in order, and the number of failures logged for it. *)
Definition campaign_outcome (campaignId : string) (row : Campaign)
           (ran : list JSON) (failures : nat) (w w' : World) : Prop :=
  prisma.find_campaign campaignId (campaigns w') = Some row
  /\ exists t,
       trace w' = trace w ++ t
       /\ actions_run campaignId t = ran
       /\ errors_logged campaignId t = failures.

Section WithPlatform.
Context `{Platform}.

(** The body of the loop of [checkCampaigns]. *)
Definition dispatch_to (context : TriggerContext) (campaign : Campaign)
  : M unit :=
  (shouldTrigger <-
     AutomationService.evaluateCampaignTrigger (camp_id campaign) context ;;
   when shouldTrigger
     (AutomationService.executeCampaign (camp_id campaign) context))%monad.

End WithPlatform.

(** The store after [updateLeadScore] wrote the score and logged it. *)
Definition scored (id : string) (b : ScoringService.LeadScoreBreakdown)
           (w : World) : World :=
  mkWorld
    (prisma.replace_lead id
       (fun l => prisma.touch (now w)
                   (ScoringService.set_score (ScoringService.currentScore b) l))
       (leads w))
    (activities w) (policies w) (commissions w) (campaigns w) (now w)
    (trace w
     ++ [EvScoring id (ScoringService.previousScore b)
                   (ScoringService.currentScore b)]).

(** The trigger kinds handed to the dispatcher, in order. *)
Fixpoint dispatched (t : list Event) : list AutomationTrigger :=
  match t with
  | [] => []
  | EvDispatch context :: rest => ctx_trigger context :: dispatched rest
  | _ :: rest => dispatched rest
  end.

(** The score log lines of a lead, in order. *)
Fixpoint scorings (leadId : string) (t : list Event) : list (Z * Z) :=
  match t with
  | [] => []
  | EvScoring l previous current :: rest =>
      if String.eqb l leadId then (previous, current) :: scorings leadId rest
      else scorings leadId rest
  | _ :: rest => scorings leadId rest
  end.

(** The computation leaves the commission table alone. *)
Definition keeps_commissions {A : Type} (m : M A) : Prop :=
  forall w, commissions (snd (m w)) = commissions w.

(** The happy path of the lead pipeline, in order. *)
Definition pipeline : list string :=
  ["NEW"; "CONTACTED"; "ENGAGED"; "QUALIFIED"; "PROPOSAL"; "APPLICATION";
   "UNDERWRITING"; "PLACED"].

(** Position of a status on the happy path. *)
Fixpoint position (status : string) (path : list string) : option nat :=
  match path with
  | [] => None
  | s :: rest =>
      if String.eqb status s then Some 0%nat
      else option_map S (position status rest)
  end.

(** The body of the loop of [calculateOutcomeScore]. *)
Definition outcome_step (score : Z) (activity : Activity) : Z :=
  if truthy_string (act_outcome activity)
  then match act_outcome activity with
       | Some outcome => score + ScoringService.getOutcomeScore outcome
       | None => score
       end
  else score.

(** Scores in decreasing order (equal scores allowed). *)
Fixpoint descending (scores : list Z) : Prop :=
  match scores with
  | [] => True
  | score :: rest => Forall (fun later => later <= score) rest /\ descending rest
  end.

(** Number of rows that pass a test, as a JavaScript number. *)
Definition count {A : Type} (test : A -> bool) (rows : list A) : Z :=
  Z.of_nat (List.length (filter test rows)).

(** The rows that [getCommissionSummary] selects for one status. *)
Definition selected (agentId status : string) (rows : list Commission)
  : list Commission :=
  filter (fun c => String.eqb (com_agentId c) agentId
                   && String.eqb (com_status c) status) rows.

(** The share of one row in the selection of a status. *)
Definition share (agentId status : string) (c : Commission)
  : list Commission :=
  if String.eqb (com_agentId c) agentId && String.eqb (com_status c) status
  then [c] else [].

(** The computation keeps a relation between the store before and the
    store after, whether it returns or throws. *)
Definition respects {A : Type} (R : World -> World -> Prop) (m : M A)
  : Prop :=
  forall w, R w (snd (m w)).

(** The store when the clock reads [t]. *)
Definition at_time (t : Z) (w : World) : World :=
  mkWorld (leads w) (activities w) (policies w) (commissions w) (campaigns w)
          t (trace w).

(** Whether [autoUpdateLeadStatus] writes a status, for a lead that it finds
    in [status]. *)
Definition moves (status activityType : string) (outcome : option string)
  : bool :=
  match ActivityService.derivedStatus status activityType outcome with
  | Some newStatus => negb (String.eqb newStatus status)
  | None => false
  end.

(** The columns of a lead that only the services write. *)
Definition lead_core (l : Lead) : string * string * string * Z :=
  (lead_id l, lead_agentId l, lead_intentLevel l, lead_score l).

(** What neither a dispatch nor a derived status update does: create an
    activity, write the key, the agent, the intent level or the score of a
    lead, or log a score. *)
Record quiet (w w' : World) : Prop := mkQuiet {
  qu_activities : activities w' = activities w;
  qu_leads : map lead_core (leads w') = map lead_core (leads w);
  qu_trace : exists t,
      trace w' = trace w ++ t /\ forall leadId, scorings leadId t = []
}.

End Vocabulary.

(* ================================================================= *)
(** * Properties *)

(** ** Generic facts *)

Lemma switch_cons {A : Type} (x k : string) (v : A) rest d :
  switch x ((k, v) :: rest) d = if String.eqb x k then v else switch x rest d.
Proof. reflexivity. Qed.

Lemma find_lead_replace (id : string) (f : Lead -> Lead) (ls : list Lead) :
  (forall l, lead_id (f l) = lead_id l) ->
  prisma.find_lead id (prisma.replace_lead id f ls)
  = option_map f (prisma.find_lead id ls).
Proof.
  intros Hid. unfold prisma.find_lead, prisma.replace_lead.
  induction ls as [|l ls IH]; [reflexivity|].
  cbn [map find].
  destruct (String.eqb (lead_id l) id) eqn:E.
  - rewrite Hid, E. reflexivity.
  - rewrite E. exact IH.
Qed.

Lemma find_lead_id (id : string) (ls : list Lead) (l : Lead) :
  prisma.find_lead id ls = Some l -> lead_id l = id.
Proof.
  unfold prisma.find_lead. intros Hf.
  apply find_some in Hf. destruct Hf as [_ Hf].
  now apply String.eqb_eq.
Qed.

(* ================================================================= *)
(** ** Scoring engine *)

Module ScoringFacts.
Import ScoringService ScoringService.SCORING_CONFIG.
Import Vocabulary.

Lemma clamp_bounds (x : Z) : 0 <= Z.max 0 (Z.min 100 x) <= 100.
Proof. lia. Qed.

Lemma computeScore_current (lead : Lead) (acts : list Activity) (today : Z) :
  let b := computeScore lead acts today in
  currentScore b
  = Z.max 0 (Z.min 100 (intentScore b + statusScore b + activityScore b
                        + outcomeScore b - timeDecay b)).
Proof. reflexivity. Qed.

(** A component sum above the range: a HOT lead that is PLACED. *)
Example overflow_is_clamped :
  let b := computeScore (mkLead "L1" "A1" "PLACED" "HOT" 0 0) [] 0 in
  intentScore b + statusScore b = 150 /\ currentScore b = 100.
Proof. split; reflexivity. Qed.

(** A component sum below the range: no intent and not interested. *)
Example underflow_is_clamped :
  let b := computeScore (mkLead "L1" "A1" "NOT_INTERESTED" "NONE" 0 0) [] 0 in
  intentScore b + statusScore b = -40 /\ currentScore b = 0.
Proof. split; reflexivity. Qed.

(** C1. For every lead and every activity history the score that
    [calculateLeadScore] computes is the component sum
    intent + status + activity + outcome - decay clamped to [0,100], and for
    every stored lead [updateLeadScore] returns that score and writes it to
    the lead's row. *)
Theorem score_clamped_and_persisted :
  (forall lead acts today,
      let b := computeScore lead acts today in
      currentScore b
      = Z.max 0 (Z.min 100 (intentScore b + statusScore b + activityScore b
                            + outcomeScore b - timeDecay b))
      /\ 0 <= currentScore b <= 100)
  /\ (forall w leadId lead,
         prisma.find_lead leadId (leads w) = Some lead ->
         let b := computeScore lead (prisma.activities_of leadId w) (now w) in
         exists w',
           updateLeadScore leadId w = (Ok b, w')
           /\ option_map lead_score (prisma.find_lead leadId (leads w'))
              = Some (currentScore b)
           /\ 0 <= currentScore b <= 100).
Proof.
  split.
  - intros lead acts today b. split; [reflexivity|].
    subst b. cbn [currentScore computeScore]. apply clamp_bounds.
  - intros w leadId lead Hfind b.
    unfold updateLeadScore, calculateLeadScore, prisma.lead_update,
      prisma.lead_findUnique, emit, bind, gets, modify, ret.
    cbn [leads]. rewrite Hfind. cbn [leads now]. rewrite Hfind.
    eexists. split; [reflexivity|]. split.
    + cbn [leads prisma.set_leads].
      rewrite find_lead_replace by reflexivity.
      rewrite Hfind. reflexivity.
    + subst b. cbn [currentScore computeScore]. apply clamp_bounds.
Qed.

Lemma score_clamped_and_persisted_witness :
  exists w',
    updateLeadScore "L1"
      (Samples.world_of [Samples.lead1 "PLACED"] [] [])
    = (Ok (computeScore (Samples.lead1 "PLACED") [] 1000), w')
    /\ option_map lead_score (prisma.find_lead "L1" (leads w')) = Some 100
    /\ 0 <= 100 <= 100.
Proof.
  exact (proj2 score_clamped_and_persisted
           (Samples.world_of [Samples.lead1 "PLACED"] [] []) "L1"
           (Samples.lead1 "PLACED") eq_refl).
Defined.

(** *** The outcome component *)

Lemma getOutcomeScore_modifier (o : string) :
  getOutcomeScore o = Spec.outcome_modifier o.
Proof.
  unfold getOutcomeScore, Spec.outcome_modifier.
  repeat rewrite switch_cons.
  repeat match goal with
         | |- context [String.eqb o ?k] =>
             destruct (String.eqb_spec o k) as [->|_]; [reflexivity|]
         end.
  reflexivity.
Qed.

Lemma sum_modifiers_cons (a : Activity) (acts : list Activity) :
  Spec.sum_modifiers (a :: acts) = Spec.modifier_of a + Spec.sum_modifiers acts.
Proof. reflexivity. Qed.

Lemma outcome_step_modifier (score : Z) (a : Activity) :
  outcome_step score a
  = if Spec.has_outcome a then score + Spec.modifier_of a else score.
Proof.
  unfold outcome_step, Spec.has_outcome, Spec.modifier_of.
  destruct (act_outcome a) as [o|]; [|reflexivity].
  now rewrite getOutcomeScore_modifier.
Qed.

Lemma outcome_loop (acts : list Activity) (score : Z) :
  fold_left outcome_step acts score
  = score + Spec.sum_modifiers (filter Spec.has_outcome acts).
Proof.
  revert score. induction acts as [|a acts IH]; intros score.
  - cbn. lia.
  - cbn [fold_left filter]. rewrite IH, outcome_step_modifier.
    destruct (Spec.has_outcome a).
    + rewrite sum_modifiers_cons. lia.
    + reflexivity.
Qed.

Lemma calculateOutcomeScore_window (acts : list Activity) :
  calculateOutcomeScore acts = Spec.outcomeScore_window acts.
Proof.
  unfold calculateOutcomeScore, Spec.outcomeScore_window.
  destruct acts as [|a acts]; [reflexivity|].
  change (fun score activity => _) with outcome_step.
  rewrite outcome_loop. reflexivity.
Qed.

(** What the code computes: the sum of the per-outcome modifiers over those
    of the 5 most recent activities that have an outcome, an activity
    without outcome taking one of the five places, capped at 30. *)
Lemma outcome_score_of_recent_window (acts : list Activity) :
  calculateOutcomeScore acts
  = Z.min 30 (Spec.sum_modifiers (filter Spec.has_outcome (firstn 5 acts)))
  /\ calculateOutcomeScore acts <= 30.
Proof.
  rewrite calculateOutcomeScore_window. unfold Spec.outcomeScore_window.
  split; [reflexivity | lia].
Qed.

(** Where every one of the 5 most recent activities has an outcome, the
    two readings agree. *)
Lemma outcome_score_when_recent_have_outcomes (acts : list Activity) :
  forallb Spec.has_outcome (firstn 5 acts) = true ->
  calculateOutcomeScore acts = Spec.outcomeScore_worded acts.
Proof.
  intros Hall. rewrite calculateOutcomeScore_window.
  unfold Spec.outcomeScore_window, Spec.outcomeScore_worded.
  do 2 f_equal.
  assert (G : forall n (l : list Activity),
             forallb Spec.has_outcome (firstn n l) = true ->
             filter Spec.has_outcome (firstn n l)
             = firstn n (filter Spec.has_outcome l)).
  { induction n as [|n IH]; intros l Hl; [reflexivity|].
    destruct l as [|a l]; [reflexivity|].
    cbn [firstn forallb] in Hl. apply andb_true_iff in Hl as [Ha Hl].
    cbn [firstn filter]. rewrite Ha. cbn [firstn]. now rewrite IH. }
  now apply G.
Qed.

(** C7 fails on the code. The outcome component is to be the capped sum of
    the modifiers over the 5 most recent activities that have an outcome.
    With five recent notes that carry no outcome and an older sale, these
    are the sale alone (capped sum 30); the code takes the five most recent
    activities first, finds no outcome among them and returns 0. *)
Theorem outcome_score_not_five_latest_outcomes :
  calculateOutcomeScore Samples.five_notes_then_sale = 0
  /\ Spec.outcomeScore_worded Samples.five_notes_then_sale = 30
  /\ calculateOutcomeScore Samples.five_notes_then_sale
     <> Spec.outcomeScore_worded Samples.five_notes_then_sale.
Proof. repeat split; try reflexivity. discriminate. Qed.

(** *** Time decay *)

Lemma decayForDays_thresholds (d : Z) :
  decayForDays d
  = if 90 <=? d then 20 else if 60 <=? d then 10 else if 30 <=? d then 5 else 0.
Proof.
  unfold decayForDays. cbn.
  destruct (Z.leb_spec 90 d), (Z.leb_spec 60 d), (Z.leb_spec 30 d);
    try reflexivity; lia.
Qed.

(** C8. The time-decay penalty is a function of the whole days since the
    most recent activity (since the last update when there is none); it is
    20 from 90 days, 10 from 60 days, 5 from 30 days and 0 below, the largest
    reached threshold winning; it never decreases as the days grow; so
    decay(31) >= decay(29) >= decay(0). *)
Theorem time_decay_monotone :
  (forall a acts lastUpdated today,
      calculateTimeDecay (a :: acts) lastUpdated today
      = decayForDays ((today - act_timestamp a) / MS_PER_DAY))
  /\ (forall lastUpdated today,
         calculateTimeDecay [] lastUpdated today
         = decayForDays ((today - lastUpdated) / MS_PER_DAY))
  /\ (forall d,
         decayForDays d
         = if 90 <=? d then 20
           else if 60 <=? d then 10
           else if 30 <=? d then 5
           else 0)
  /\ (forall d, In (decayForDays d) [0; 5; 10; 20])
  /\ (forall d1 d2, d1 <= d2 -> decayForDays d1 <= decayForDays d2)
  /\ decayForDays 31 >= decayForDays 29
  /\ decayForDays 29 >= decayForDays 0.
Proof.
  repeat split; try reflexivity.
  - intros d. rewrite decayForDays_thresholds. cbn.
    destruct (90 <=? d); [tauto|].
    destruct (60 <=? d); [tauto|].
    destruct (30 <=? d); tauto.
  - intros d1 d2 Hle. rewrite !decayForDays_thresholds.
    destruct (Z.leb_spec 90 d1), (Z.leb_spec 60 d1), (Z.leb_spec 30 d1),
      (Z.leb_spec 90 d2), (Z.leb_spec 60 d2), (Z.leb_spec 30 d2); lia.
  - rewrite !decayForDays_thresholds. cbn. lia.
  - rewrite !decayForDays_thresholds. cbn. lia.
Qed.

Lemma time_decay_monotone_witness :
  decayForDays 45 <= decayForDays 75.
Proof.
  apply (proj1 (proj2 (proj2 (proj2 (proj2 time_decay_monotone))))).
  lia.
Defined.

End ScoringFacts.

(* ================================================================= *)
(** ** Frame rules *)

Module FrameRules.
Import Vocabulary.

Lemma actions_run_app (id : string) (t1 t2 : list Event) :
  actions_run id (t1 ++ t2) = actions_run id t1 ++ actions_run id t2.
Proof.
  induction t1 as [|e t1 IH]; [reflexivity|].
  destruct e; cbn [app actions_run]; try exact IH.
  destruct (String.eqb campaignId id); cbn [app]; now rewrite IH.
Qed.

Lemma errors_logged_app (id : string) (t1 t2 : list Event) :
  errors_logged id (t1 ++ t2)
  = (errors_logged id t1 + errors_logged id t2)%nat.
Proof.
  induction t1 as [|e t1 IH]; [reflexivity|].
  destruct e; cbn [app errors_logged]; try exact IH.
  destruct (String.eqb campaignId id); cbn [Nat.add]; now rewrite IH.
Qed.

Ltac no_events :=
  exists []; rewrite app_nil_r;
  split; [reflexivity | split; [constructor | intros; split; reflexivity]].

Lemma frame_refl T S w : frame T S w w.
Proof. constructor; try reflexivity. no_events. Qed.

Lemma frame_trans T S w1 w2 w3 :
  frame T S w1 w2 -> frame T S w2 w3 -> frame T S w1 w3.
Proof.
  intros [P1 C1 N1 L1 S1 O1 (t1 & E1 & A1 & R1)]
         [P2 C2 N2 L2 S2 O2 (t2 & E2 & A2 & R2)].
  constructor; try congruence.
  - intros id Hid. rewrite O2, O1 by assumption. reflexivity.
  - exists (t1 ++ t2). split; [|split].
    + rewrite E2, E1, app_assoc. reflexivity.
    + apply Forall_app. split; assumption.
    + intros id Hid. rewrite actions_run_app, errors_logged_app.
      destruct (R1 id Hid) as [-> ->]. destruct (R2 id Hid) as [-> ->].
      split; reflexivity.
Qed.

Lemma frame_weaken (T T' : AutomationTrigger -> Prop) (S S' : string -> Prop)
      w w' :
  (forall k, T k -> T' k) -> (forall id, S id -> S' id) ->
  frame T S w w' -> frame T' S' w w'.
Proof.
  intros HT HS [P1 C1 N1 L1 S1 O1 (t1 & E1 & A1 & R1)].
  constructor; try assumption.
  - intros id Hid. apply O1. intros Hs. apply Hid, HS, Hs.
  - exists t1. split; [assumption | split].
    + eapply Forall_impl; [|exact A1].
      intros [ | c | | ]; cbn; auto.
    + intros id Hid. apply R1. intros Hs. apply Hid, HS, Hs.
Qed.

Section Rules.
Variable T : AutomationTrigger -> Prop.
Variable S : string -> Prop.

Lemma preserves_ret {A} (a : A) : preserves T S (ret a).
Proof. intros w. apply frame_refl. Qed.

Lemma preserves_throw {A} e : preserves T S (@throw A e).
Proof. intros w. apply frame_refl. Qed.

Lemma preserves_gets {A} (f : World -> A) : preserves T S (gets f).
Proof. intros w. apply frame_refl. Qed.

Lemma preserves_bind {A B} (m : M A) (k : A -> M B) :
  preserves T S m -> (forall a, preserves T S (k a)) ->
  preserves T S (bind m k).
Proof.
  intros Hm Hk w. unfold bind. specialize (Hm w).
  destruct (m w) as [[a|e] w1]; cbn [snd] in *; [|exact Hm].
  eapply frame_trans; [exact Hm | apply Hk].
Qed.

Lemma preserves_try_catch {A} (m : M A) (h : string -> M A) :
  preserves T S m -> (forall e, preserves T S (h e)) ->
  preserves T S (try_catch m h).
Proof.
  intros Hm Hh w. unfold try_catch. specialize (Hm w).
  destruct (m w) as [[a|e] w1]; cbn [snd] in *; [exact Hm|].
  eapply frame_trans; [exact Hm | apply Hh].
Qed.

Lemma preserves_when (b : bool) (m : M unit) :
  preserves T S m -> preserves T S (when b m).
Proof. destruct b; cbn; [auto | intros _; apply preserves_ret]. Qed.

Lemma preserves_for_each {A} (xs : list A) (body : A -> M unit) :
  (forall x, preserves T S (body x)) -> preserves T S (for_each xs body).
Proof.
  intros Hb. induction xs as [|x xs IH]; cbn [for_each].
  - apply preserves_ret.
  - apply preserves_bind; [apply Hb | intros _; exact IH].
Qed.

(** An event may be added when its kind is allowed and, if it is about a
    campaign, the campaign is in [S]. *)
Lemma preserves_emit (e : Event) :
  allowed T e -> about S e -> preserves T S (emit e).
Proof.
  intros He Hs w. constructor; try reflexivity.
  exists [e]. cbn [emit modify snd trace]. split; [reflexivity | split].
  - repeat constructor. exact He.
  - intros id Hid. destruct e; try (split; reflexivity);
      cbn [actions_run errors_logged about] in *;
      (destruct (String.eqb_spec campaignId id) as [->|];
       [contradiction | split; reflexivity]).
Qed.

Lemma map_replace_lead_id id f ls :
  (forall l, lead_id (f l) = lead_id l) ->
  map lead_id (prisma.replace_lead id f ls) = map lead_id ls.
Proof.
  intros Hf. unfold prisma.replace_lead. rewrite map_map.
  apply map_ext. intros l. destruct (String.eqb (lead_id l) id); auto.
Qed.

Lemma preserves_lead_update id (data : Lead -> Lead) :
  (forall l, lead_id (data l) = lead_id l) ->
  preserves T S (prisma.lead_update id data).
Proof.
  intros Hd w. unfold prisma.lead_update, prisma.lead_findUnique, bind, gets.
  destruct (prisma.find_lead id (leads w)); [|apply frame_refl].
  cbn [modify snd]. constructor; try reflexivity.
  - cbn [leads prisma.set_leads]. apply map_replace_lead_id.
    intros x. cbn. apply Hd.
  - cbn [trace prisma.set_leads]. no_events.
Qed.

Lemma preserves_activity_create a l ty o :
  preserves T S (prisma.activity_create a l ty o).
Proof. intros w. constructor; try reflexivity. cbn. no_events. Qed.

End Rules.

(** *** Returning normally *)

Lemma total_ret {A} (a : A) : total (ret a).
Proof. intros w. now exists a. Qed.

Lemma total_gets {A} (f : World -> A) : total (gets f).
Proof. intros w. now exists (f w). Qed.

Lemma total_emit (e : Event) : total (emit e).
Proof. intros w. now exists tt. Qed.

Lemma total_bind {A B} (m : M A) (k : A -> M B) :
  total m -> (forall a, total (k a)) -> total (bind m k).
Proof.
  intros Hm Hk w. unfold bind. destruct (Hm w) as [a Ha].
  destruct (m w) as [o w1]. cbn [fst] in Ha. subst o. apply Hk.
Qed.

Lemma total_try_catch {A} (m : M A) (h : string -> M A) :
  (forall e, total (h e)) -> total (try_catch m h).
Proof.
  intros Hh w. unfold try_catch.
  destruct (m w) as [[a|e] w1]; [now exists a | apply Hh].
Qed.

Lemma total_when (b : bool) (m : M unit) : total m -> total (when b m).
Proof. destruct b; cbn; [auto | intros _; apply total_ret]. Qed.

Lemma total_for_each {A} (xs : list A) (body : A -> M unit) :
  (forall x, total (body x)) -> total (for_each xs body).
Proof.
  intros Hb. induction xs as [|x xs IH]; cbn [for_each].
  - apply total_ret.
  - apply total_bind; [apply Hb | intros _; exact IH].
Qed.

(** A total computation of [unit] and its frame, for one run. *)
Lemma run_total_frame T S (m : M unit) (w : World) :
  total m -> preserves T S m ->
  exists w', m w = (Ok tt, w') /\ frame T S w w'.
Proof.
  intros Ht Hp. destruct (Ht w) as [[] Ha]. specialize (Hp w).
  destruct (m w) as [o w']. cbn [fst snd] in *. subst o.
  exists w'. split; [reflexivity | exact Hp].
Qed.

Lemma for_each_app {A} (xs ys : list A) (body : A -> M unit) (w : World) :
  for_each (xs ++ ys) body w
  = bind (for_each xs body) (fun _ => for_each ys body) w.
Proof.
  revert w. induction xs as [|x xs IH]; intros w.
  - cbn [app for_each]. unfold bind, ret. reflexivity.
  - cbn [app for_each]. unfold bind in *.
    destruct (body x w) as [[[]|e] w1]; [apply IH | reflexivity].
Qed.

(** *** Stored rows *)

Lemma find_lead_none (id : string) (ls : list Lead) :
  prisma.find_lead id ls = None <-> ~ In id (map lead_id ls).
Proof.
  unfold prisma.find_lead. induction ls as [|l ls IH]; cbn [find map In].
  - tauto.
  - destruct (String.eqb_spec (lead_id l) id) as [E|E].
    + split; [discriminate | intros Hn; exfalso; apply Hn; now left].
    + rewrite IH. tauto.
Qed.

Lemma lead_known_frame T S ctx w w' :
  frame T S w w' -> lead_known ctx w = true -> lead_known ctx w' = true.
Proof.
  intros F. unfold lead_known. destruct (ctx_leadId ctx) as [id|]; [|auto].
  destruct (prisma.find_lead id (leads w)) eqn:E; [|discriminate].
  intros _. destruct (prisma.find_lead id (leads w')) eqn:E'; [reflexivity|].
  apply find_lead_none in E'. rewrite (fr_leads _ _ _ _ F) in E'.
  apply find_lead_none in E'. congruence.
Qed.

Lemma find_campaign_replace_same id f cs :
  (forall c, camp_id (f c) = camp_id c) ->
  prisma.find_campaign id (prisma.replace_campaign id f cs)
  = option_map f (prisma.find_campaign id cs).
Proof.
  intros Hid. unfold prisma.find_campaign, prisma.replace_campaign.
  induction cs as [|c cs IH]; [reflexivity|].
  cbn [map find].
  destruct (String.eqb (camp_id c) id) eqn:E.
  - rewrite Hid, E. reflexivity.
  - rewrite E. exact IH.
Qed.

Lemma find_campaign_replace_other id id' f cs :
  id' <> id -> (forall c, camp_id (f c) = camp_id c) ->
  prisma.find_campaign id' (prisma.replace_campaign id f cs)
  = prisma.find_campaign id' cs.
Proof.
  intros Hne Hid. unfold prisma.find_campaign, prisma.replace_campaign.
  induction cs as [|c cs IH]; [reflexivity|].
  cbn [map find].
  destruct (String.eqb_spec (camp_id c) id) as [E|E].
  - rewrite Hid. destruct (String.eqb_spec (camp_id c) id'); [congruence|].
    exact IH.
  - rewrite IH. reflexivity.
Qed.

Lemma preserves_campaign_bump T (S : string -> Prop) id t :
  S id ->
  preserves T S (prisma.campaign_update id (AutomationService.bump_run t)).
Proof.
  intros Hs w.
  unfold prisma.campaign_update, prisma.campaign_findUnique, bind, gets.
  destruct (prisma.find_campaign id (campaigns w)); [|apply frame_refl].
  cbn [modify snd]. constructor; try reflexivity.
  - cbn [campaigns prisma.set_campaigns]. unfold prisma.replace_campaign.
    rewrite map_map. apply map_ext. intros x.
    destruct (String.eqb (camp_id x) id); reflexivity.
  - intros id' Hid'. cbn [campaigns prisma.set_campaigns].
    apply find_campaign_replace_other; [|reflexivity].
    intros ->. contradiction.
  - cbn [trace prisma.set_campaigns]. no_events.
Qed.

Lemma distinct_NoDup (ids : list string) :
  distinct ids = true -> NoDup ids.
Proof.
  induction ids as [|id ids IH]; cbn [distinct]; intros Hd; [constructor|].
  apply andb_true_iff in Hd as [Hn Hd]. constructor; [|auto].
  intros Hin. apply negb_true_iff in Hn.
  unfold includes in Hn. rewrite <- not_true_iff_false in Hn. apply Hn.
  apply existsb_exists. exists id. split; [exact Hin | apply String.eqb_refl].
Qed.

(** A selection of campaigns keeps the keys distinct. *)
Lemma selected_ids_distinct (keep : Campaign -> bool) (cs : list Campaign) :
  NoDup (map camp_id cs) -> NoDup (map camp_id (filter keep cs)).
Proof.
  intros Hnd. induction cs as [|c cs IH]; [constructor|].
  cbn [map] in Hnd. apply NoDup_cons_iff in Hnd as [Hni Hnd].
  cbn [filter]. destruct (keep c) eqn:K; [|now apply IH].
  cbn [map]. apply NoDup_cons; [|now apply IH].
  rewrite in_map_iff. intros (c' & Eid & Hin).
  apply filter_In in Hin as [Hin _].
  apply Hni. rewrite <- Eid. now apply in_map.
Qed.

Lemma find_campaign_unique (cs : list Campaign) (c : Campaign) :
  NoDup (map camp_id cs) -> In c cs ->
  prisma.find_campaign (camp_id c) cs = Some c.
Proof.
  unfold prisma.find_campaign.
  induction cs as [|c' cs IH]; intros Hnd Hin; [destruct Hin|].
  cbn [map] in Hnd. inversion Hnd as [|? ? Hni Hnd']; subst.
  cbn [find]. destruct Hin as [-> | Hin].
  - now rewrite String.eqb_refl.
  - destruct (String.eqb_spec (camp_id c') (camp_id c)) as [E|E]; [|auto].
    exfalso. apply Hni. rewrite E. now apply in_map.
Qed.

End FrameRules.

(* ================================================================= *)
(** ** The dispatcher *)

Module DispatcherFacts.
Import Vocabulary FrameRules AutomationService.

Lemma lead_update_ok id data w l :
  prisma.find_lead id (leads w) = Some l ->
  exists w', prisma.lead_update id data w = (Ok tt, w').
Proof.
  intros Hf. unfold prisma.lead_update, prisma.lead_findUnique, bind, gets.
  rewrite Hf. eexists. reflexivity.
Qed.

Lemma preserves_update_status T S id st :
  preserves T S (update_status_from_action id st).
Proof.
  unfold update_status_from_action.
  destruct st as [| |[]]; try apply preserves_throw.
  - now apply preserves_lead_update.
  - destruct (includes LeadStatus s); [|apply preserves_throw].
    now apply preserves_lead_update.
Qed.

Lemma preserves_executeAction T S a ctx : preserves T S (executeAction a ctx).
Proof.
  unfold executeAction.
  destruct (get_property a "type") eqn:E; [apply preserves_throw| |];
    repeat match goal with
           | |- context [if ?b then _ else _] => destruct b
           end;
    try apply preserves_ret;
    (destruct (ctx_leadId ctx);
     [apply preserves_update_status | apply preserves_ret]).
Qed.

Lemma executeAction_ok a ctx w :
  action_runs a = true -> lead_known ctx w = true ->
  exists w', executeAction a ctx w = (Ok tt, w').
Proof.
  unfold action_runs, executeAction, lead_known. intros Ha Hl.
  destruct (get_property a "type") eqn:E; [discriminate| |].
  - cbn in *. eexists. reflexivity.
  - destruct (strict_eq_string (Value v) "send_email");
      [eexists; reflexivity|].
    destruct (strict_eq_string (Value v) "send_sms");
      [eexists; reflexivity|].
    destruct (strict_eq_string (Value v) "update_lead_status").
    + destruct (ctx_leadId ctx) as [id|]; cbn [truthy_string].
      * destruct (negb (String.eqb id "")); [|eexists; reflexivity].
        destruct (prisma.find_lead id (leads w)) eqn:F; [|discriminate].
        unfold update_status_from_action.
        destruct (get_property a "status") as [| |[]]; try discriminate.
        -- eapply lead_update_ok; eassumption.
        -- rewrite Ha. eapply lead_update_ok; eassumption.
      * eexists. reflexivity.
    + repeat match goal with
             | |- context [if ?b then _ else _] => destruct b
             end; eexists; reflexivity.
Qed.

Lemma strict_eq_string_inv a s :
  strict_eq_string a s = true -> a = Value (JStr s).
Proof.
  destruct a as [| |[]]; try discriminate. cbn.
  intros E. apply String.eqb_eq in E. now subst.
Qed.

Lemma executeAction_throws a ctx w :
  action_throws ctx a = true ->
  exists e, executeAction a ctx w = (Throw e, w).
Proof.
  unfold action_throws, executeAction. intros Ha.
  destruct (get_property a "type") eqn:E; [eexists; reflexivity|discriminate|].
  apply andb_true_iff in Ha as [Ha Hs]. apply andb_true_iff in Ha as [Ht Hl].
  apply strict_eq_string_inv in Ht. injection Ht as ->. cbn.
  rewrite Hl. destruct (ctx_leadId ctx) as [id|]; [|discriminate].
  unfold update_status_from_action.
  destruct (get_property a "status") as [| |[]]; try discriminate;
    try (eexists; reflexivity).
  apply negb_true_iff in Hs. rewrite Hs. eexists. reflexivity.
Qed.

Section WithPlatform.
Context `{Platform}.

(** *** One campaign *)

Lemma total_evaluate cid ctx : total (evaluateCampaignTrigger cid ctx).
Proof.
  unfold evaluateCampaignTrigger.
  apply total_bind; [apply total_gets|]. intros [c|]; [|apply total_ret].
  apply total_try_catch. intros e.
  apply total_bind; [apply total_emit | intros _; apply total_ret].
Qed.

Lemma preserves_evaluate T (S : string -> Prop) cid ctx :
  S cid -> preserves T S (evaluateCampaignTrigger cid ctx).
Proof.
  intros Hs. unfold evaluateCampaignTrigger.
  apply preserves_bind; [apply preserves_gets|].
  intros [c|]; [|apply preserves_ret].
  apply preserves_try_catch.
  - destruct (JSON_parse (camp_triggerCondition c)) as [v|];
      [|apply preserves_throw].
    destruct (get_property v "trigger"); [apply preserves_throw| |];
      match goal with
      | |- context [if ?b then _ else _] => destruct b
      end; apply preserves_ret.
  - intros e. apply preserves_bind; [|intros _; apply preserves_ret].
    apply preserves_emit; [exact I | exact Hs].
Qed.

Lemma evaluate_true cid ctx w c v :
  prisma.find_campaign cid (campaigns w) = Some c ->
  JSON_parse (camp_triggerCondition c) = Some v ->
  trigger_matches v (ctx_trigger ctx) = true ->
  evaluateCampaignTrigger cid ctx w = (Ok true, w).
Proof.
  intros Hf Hp Hm.
  unfold evaluateCampaignTrigger, prisma.campaign_findUnique, bind, gets,
    try_catch.
  rewrite Hf, Hp. unfold trigger_matches in Hm.
  destruct (get_property v "trigger"); [discriminate| |];
    apply negb_true_iff in Hm; rewrite Hm; reflexivity.
Qed.

Lemma total_executeCampaign cid ctx : total (executeCampaign cid ctx).
Proof.
  unfold executeCampaign.
  apply total_bind; [apply total_gets|]. intros [c|]; [|apply total_ret].
  apply total_try_catch. intros e. apply total_emit.
Qed.

Lemma preserves_run_actions T (S : string -> Prop) cid ctx items :
  S cid ->
  preserves T S
    (for_each items
       (fun action => emit (EvAction cid action) ;; executeAction action ctx)
     )%monad.
Proof.
  intros Hs. apply preserves_for_each. intros a.
  apply preserves_bind; [|intros _; apply preserves_executeAction].
  apply preserves_emit; [exact I | exact Hs].
Qed.

Lemma preserves_executeCampaign T (S : string -> Prop) cid ctx :
  S cid -> preserves T S (executeCampaign cid ctx).
Proof.
  intros Hs. unfold executeCampaign.
  apply preserves_bind; [apply preserves_gets|].
  intros [c|]; [|apply preserves_ret].
  apply preserves_try_catch.
  - destruct (JSON_parse (camp_actions c)) as [v|]; [|apply preserves_throw].
    destruct (iterate v) as [items|]; [|apply preserves_throw].
    apply preserves_bind; [now apply preserves_run_actions|]. intros _.
    apply preserves_bind; [apply preserves_gets|]. intros t.
    now apply preserves_campaign_bump.
  - intros e. apply preserves_emit; [exact I | exact Hs].
Qed.

(** The action loop when every action runs. *)
Lemma run_actions_ok cid ctx items w :
  forallb action_runs items = true -> lead_known ctx w = true ->
  exists w',
    for_each items
      (fun action => emit (EvAction cid action) ;; executeAction action ctx)
      w = (Ok tt, w')
    /\ now w' = now w
    /\ lead_known ctx w' = true
    /\ prisma.find_campaign cid (campaigns w')
       = prisma.find_campaign cid (campaigns w)
    /\ exists t,
         trace w' = trace w ++ t
         /\ actions_run cid t = items /\ errors_logged cid t = 0%nat.
Proof.
  revert w. induction items as [|a items IH]; intros w Hall Hl.
  - exists w. cbn [for_each ret]. repeat split; try assumption.
    exists []. now rewrite app_nil_r.
  - cbn [forallb] in Hall. apply andb_true_iff in Hall as [Ha Hall].
    cbn [for_each]. unfold bind at 1 2. cbn [emit modify].
    set (w1 := mkWorld _ _ _ _ _ _ _).
    assert (Hl1 : lead_known ctx w1 = true) by exact Hl.
    destruct (executeAction_ok a ctx w1 Ha Hl1) as [w2 E2].
    pose proof (preserves_executeAction (fun _ => False) (fun _ => False)
                  a ctx w1) as F.
    rewrite E2 in *. cbn [snd] in F.
    destruct (IH w2 Hall (lead_known_frame _ _ _ _ _ F Hl1))
      as (w3 & E3 & N3 & L3 & C3 & t3 & T3 & A3 & R3).
    exists w3. rewrite E3. repeat split; try assumption.
    + rewrite N3. apply (fr_now _ _ _ _ F).
    + rewrite C3. apply (fr_others _ _ _ _ F). tauto.
    + destruct (fr_trace _ _ _ _ F) as (t2 & T2 & _ & A2).
      destruct (A2 cid (fun x => x)) as [A2a A2e].
      exists ([EvAction cid a] ++ t2 ++ t3). split; [|split].
      * rewrite T3, T2. subst w1. cbn [trace].
        now rewrite <- !app_assoc.
      * rewrite !actions_run_app, A2a, A3.
        cbn [actions_run]. now rewrite String.eqb_refl.
      * rewrite !errors_logged_app, A2e, R3. reflexivity.
Qed.

(** The action loop when an action throws: the actions before it and the
    failing one are the only ones tried. *)
Lemma run_actions_fail cid ctx before bad after w :
  forallb action_runs before = true -> action_throws ctx bad = true ->
  lead_known ctx w = true ->
  exists e w',
    for_each (before ++ bad :: after)
      (fun action => emit (EvAction cid action) ;; executeAction action ctx)
      w = (Throw e, w')
    /\ prisma.find_campaign cid (campaigns w')
       = prisma.find_campaign cid (campaigns w)
    /\ exists t,
         trace w' = trace w ++ t
         /\ actions_run cid t = before ++ [bad]
         /\ errors_logged cid t = 0%nat.
Proof.
  intros Hall Hbad Hl.
  destruct (run_actions_ok cid ctx before w Hall Hl)
    as (w1 & E1 & _ & _ & C1 & t1 & T1 & A1 & R1).
  rewrite for_each_app. unfold bind at 1. rewrite E1.
  cbn [for_each]. unfold bind at 1 2. cbn [emit modify].
  set (w2 := mkWorld _ _ _ _ _ _ _).
  destruct (executeAction_throws bad ctx w2 Hbad) as [e E2].
  rewrite E2. exists e, w2. split; [reflexivity|]. split; [exact C1|].
  exists (t1 ++ [EvAction cid bad]). subst w2. cbn [trace]. split; [|split].
  - now rewrite T1, app_assoc.
  - rewrite actions_run_app, A1. cbn [actions_run].
    now rewrite String.eqb_refl.
  - rewrite errors_logged_app, R1. reflexivity.
Qed.

(** *** What one turn of the loop does for its own campaign *)

Lemma outcome_then_frame T (S : string -> Prop) cid row ran errs w w1 w2 :
  campaign_outcome cid row ran errs w w1 -> frame T S w1 w2 -> ~ S cid ->
  campaign_outcome cid row ran errs w w2.
Proof.
  intros (C1 & t1 & T1 & A1 & R1) F Hs. split.
  - rewrite (fr_others _ _ _ _ F); assumption.
  - destruct (fr_trace _ _ _ _ F) as (t2 & T2 & _ & A2).
    destruct (A2 cid Hs) as [A2a A2e].
    exists (t1 ++ t2). split; [|split].
    + now rewrite T2, T1, app_assoc.
    + rewrite actions_run_app, A1, A2a. apply app_nil_r.
    + rewrite errors_logged_app, R1, A2e. apply Nat.add_0_r.
Qed.

Lemma frame_then_outcome T (S : string -> Prop) cid row ran errs w w1 w2 :
  frame T S w w1 -> ~ S cid -> campaign_outcome cid row ran errs w1 w2 ->
  campaign_outcome cid row ran errs w w2.
Proof.
  intros F Hs (C2 & t2 & T2 & A2 & R2). split; [exact C2|].
  destruct (fr_trace _ _ _ _ F) as (t1 & T1 & _ & A1).
  destruct (A1 cid Hs) as [A1a A1e].
  exists (t1 ++ t2). split; [|split].
  - now rewrite T2, T1, app_assoc.
  - rewrite actions_run_app, A2, A1a. reflexivity.
  - rewrite errors_logged_app, R2, A1e. reflexivity.
Qed.

(** The trigger matches and every action runs: the actions are run in
    order, once each, and the run is counted. *)
Lemma turn_runs ctx w c v a items :
  prisma.find_campaign (camp_id c) (campaigns w) = Some c ->
  JSON_parse (camp_triggerCondition c) = Some v ->
  trigger_matches v (ctx_trigger ctx) = true ->
  JSON_parse (camp_actions c) = Some a -> iterate a = Some items ->
  forallb action_runs items = true -> lead_known ctx w = true ->
  exists w',
    dispatch_to ctx c w = (Ok tt, w')
    /\ campaign_outcome (camp_id c) (bump_run (now w) c) items 0 w w'.
Proof.
  intros Hf Hv Hm Hp Hi Hall Hl.
  destruct (run_actions_ok (camp_id c) ctx items w Hall Hl)
    as (w1 & E1 & N1 & _ & C1 & t1 & T1 & A1 & R1).
  unfold dispatch_to. unfold bind at 1.
  rewrite (evaluate_true _ ctx w c v Hf Hv Hm). cbn [when].
  unfold executeCampaign, prisma.campaign_findUnique, try_catch.
  unfold bind at 1. unfold gets at 1. rewrite Hf, Hp, Hi.
  unfold bind at 1. rewrite E1.
  unfold bind at 1. unfold gets at 1.
  unfold prisma.campaign_update, prisma.campaign_findUnique, bind, gets.
  rewrite C1, Hf. cbn [modify].
  eexists. split; [reflexivity|]. split.
  - cbn [campaigns prisma.set_campaigns].
    rewrite find_campaign_replace_same by reflexivity.
    rewrite C1, Hf, N1. reflexivity.
  - exists t1. cbn [trace prisma.set_campaigns]. now repeat split.
Qed.

(** The trigger matches and an action throws: the later actions are not
    run, the run is not counted, the failure is logged. *)
Lemma turn_action_fails ctx w c v a before bad after :
  prisma.find_campaign (camp_id c) (campaigns w) = Some c ->
  JSON_parse (camp_triggerCondition c) = Some v ->
  trigger_matches v (ctx_trigger ctx) = true ->
  JSON_parse (camp_actions c) = Some a ->
  iterate a = Some (before ++ bad :: after) ->
  forallb action_runs before = true -> action_throws ctx bad = true ->
  lead_known ctx w = true ->
  exists w',
    dispatch_to ctx c w = (Ok tt, w')
    /\ campaign_outcome (camp_id c) c (before ++ [bad]) 1 w w'.
Proof.
  intros Hf Hv Hm Hp Hi Hall Hbad Hl.
  destruct (run_actions_fail (camp_id c) ctx before bad after w Hall Hbad Hl)
    as (e & w1 & E1 & C1 & t1 & T1 & A1 & R1).
  unfold dispatch_to. unfold bind at 1.
  rewrite (evaluate_true _ ctx w c v Hf Hv Hm). cbn [when].
  unfold executeCampaign, prisma.campaign_findUnique, try_catch.
  unfold bind at 1. unfold gets at 1. rewrite Hf, Hp, Hi.
  unfold bind at 1. rewrite E1. cbn [emit modify].
  eexists. split; [reflexivity|]. split.
  - cbn [campaigns]. now rewrite C1.
  - exists (t1 ++ [EvError (camp_id c) "Failed to execute campaign"]).
    cbn [trace]. split; [|split].
    + now rewrite T1, app_assoc.
    + rewrite actions_run_app, A1. cbn. apply app_nil_r.
    + rewrite errors_logged_app, R1. cbn [errors_logged].
      now rewrite String.eqb_refl.
Qed.

(** The trigger matches and the stored actions cannot be read as a list:
    nothing is run, the failure is logged. *)
Lemma turn_actions_unreadable ctx w c v :
  prisma.find_campaign (camp_id c) (campaigns w) = Some c ->
  JSON_parse (camp_triggerCondition c) = Some v ->
  trigger_matches v (ctx_trigger ctx) = true ->
  match JSON_parse (camp_actions c) with
  | Some a => iterate a = None
  | None => True
  end ->
  exists w',
    dispatch_to ctx c w = (Ok tt, w')
    /\ campaign_outcome (camp_id c) c [] 1 w w'.
Proof.
  intros Hf Hv Hm Hp.
  unfold dispatch_to. unfold bind at 1.
  rewrite (evaluate_true _ ctx w c v Hf Hv Hm). cbn [when].
  unfold executeCampaign, prisma.campaign_findUnique, try_catch.
  unfold bind at 1. unfold gets at 1. rewrite Hf.
  assert (E : (match JSON_parse (camp_actions c) with
               | Some actions =>
                   match iterate actions with
                   | Some items =>
                       (for_each items
                          (fun action =>
                             emit (EvAction (camp_id c) action) ;;
                             executeAction action ctx) ;;
                        t <- gets now ;;
                        prisma.campaign_update (camp_id c) (bump_run t))%monad
                   | None => throw "TypeError"
                   end
               | None => throw "SyntaxError"
               end) w = (Throw (match JSON_parse (camp_actions c) with
                                | Some _ => "TypeError"
                                | None => "SyntaxError"
                                end), w)).
  { destruct (JSON_parse (camp_actions c)); [rewrite Hp|]; reflexivity. }
  rewrite E. cbn [emit modify].
  eexists. split; [reflexivity|]. split; [exact Hf|].
  exists [EvError (camp_id c) "Failed to execute campaign"].
  cbn. rewrite String.eqb_refl. now repeat split.
Qed.

(** The stored trigger condition cannot be read (it does not parse, or it
    is [null]): the campaign is skipped, the failure is logged. *)
Lemma turn_trigger_unreadable ctx w c :
  prisma.find_campaign (camp_id c) (campaigns w) = Some c ->
  match JSON_parse (camp_triggerCondition c) with
  | Some v => get_property v "trigger" = TypeError
  | None => True
  end ->
  exists w',
    dispatch_to ctx c w = (Ok tt, w')
    /\ campaign_outcome (camp_id c) c [] 1 w w'.
Proof.
  intros Hf Hp.
  unfold dispatch_to, evaluateCampaignTrigger, prisma.campaign_findUnique,
    try_catch.
  unfold bind at 1 2. unfold gets at 1. rewrite Hf.
  destruct (JSON_parse (camp_triggerCondition c)) as [v|];
    [rewrite Hp|]; cbn; (eexists; split; [reflexivity|]; split; [exact Hf|]);
    exists [EvError (camp_id c) "Failed to evaluate campaign trigger"];
    cbn; rewrite String.eqb_refl; now repeat split.
Qed.

(** The campaign is configured for another trigger kind: nothing is run
    and nothing is logged for it. *)
Lemma turn_other_kind ctx w c v :
  prisma.find_campaign (camp_id c) (campaigns w) = Some c ->
  JSON_parse (camp_triggerCondition c) = Some v ->
  get_property v "trigger" <> TypeError ->
  trigger_matches v (ctx_trigger ctx) = false ->
  exists w',
    dispatch_to ctx c w = (Ok tt, w')
    /\ campaign_outcome (camp_id c) c [] 0 w w'.
Proof.
  intros Hf Hv Hne Hm.
  unfold dispatch_to, evaluateCampaignTrigger, prisma.campaign_findUnique,
    try_catch.
  unfold bind at 1 2. unfold gets at 1. rewrite Hf, Hv.
  unfold trigger_matches in Hm.
  destruct (get_property v "trigger"); [congruence| |];
    apply negb_false_iff in Hm; rewrite Hm; cbn;
    (exists w; split; [reflexivity|]; split; [exact Hf|]);
    exists []; now rewrite app_nil_r.
Qed.

(** *** The loop over the active campaigns *)

Lemma total_dispatch_to ctx c : total (dispatch_to ctx c).
Proof.
  apply total_bind; [apply total_evaluate|]. intros b.
  apply total_when, total_executeCampaign.
Qed.

Lemma preserves_dispatch_to T (S : string -> Prop) ctx c :
  S (camp_id c) -> preserves T S (dispatch_to ctx c).
Proof.
  intros Hs. apply preserves_bind; [now apply preserves_evaluate|]. intros b.
  now apply preserves_when, preserves_executeCampaign.
Qed.

Lemma loop_frame T ctx cs w :
  exists w',
    for_each cs (dispatch_to ctx) w = (Ok tt, w')
    /\ frame T (fun id => In id (map camp_id cs)) w w'.
Proof.
  revert w. induction cs as [|c cs IH]; intros w.
  - exists w. split; [reflexivity | apply frame_refl].
  - destruct (run_total_frame T (fun id => id = camp_id c)
                (dispatch_to ctx c) w (total_dispatch_to ctx c)
                (preserves_dispatch_to _ _ ctx c eq_refl))
      as (w1 & E1 & F1).
    destruct (IH w1) as (w2 & E2 & F2).
    exists w2. cbn [for_each]. unfold bind. rewrite E1. split; [exact E2|].
    eapply frame_trans.
    + eapply frame_weaken; [| |exact F1]; cbn; intuition (subst; auto).
    + eapply frame_weaken; [| |exact F2]; cbn; intuition.
Qed.

(** Isolation: whatever the turn of a campaign does for it at the moment
    it is reached, the whole loop does for it, whatever the other campaigns
    of the list do. *)
Lemma loop_own ctx c row ran errs t0 cs :
  (forall w,
      now w = t0 ->
      prisma.find_campaign (camp_id c) (campaigns w) = Some c ->
      lead_known ctx w = true ->
      exists w',
        dispatch_to ctx c w = (Ok tt, w')
        /\ campaign_outcome (camp_id c) row ran errs w w') ->
  NoDup (map camp_id cs) -> In c cs ->
  forall w,
    now w = t0 ->
    prisma.find_campaign (camp_id c) (campaigns w) = Some c ->
    lead_known ctx w = true ->
    exists w',
      for_each cs (dispatch_to ctx) w = (Ok tt, w')
      /\ campaign_outcome (camp_id c) row ran errs w w'.
Proof.
  intros Hturn.
  induction cs as [|c' cs IH]; intros Hnd Hin w Hn Hf Hl; [destruct Hin|].
  cbn [map] in Hnd. inversion Hnd as [|? ? Hni Hnd']; subst.
  cbn [for_each]. unfold bind at 1.
  destruct Hin as [-> | Hin].
  - destruct (Hturn w eq_refl Hf Hl) as (w1 & E1 & O1). rewrite E1.
    destruct (loop_frame (fun _ => True) ctx cs w1) as (w2 & E2 & F2).
    exists w2. split; [exact E2|].
    eapply outcome_then_frame; eassumption.
  - assert (Hne : camp_id c <> camp_id c').
    { intros E. apply Hni. rewrite <- E. now apply in_map. }
    destruct (run_total_frame (fun _ => True) (fun id => id = camp_id c')
                (dispatch_to ctx c') w (total_dispatch_to ctx c')
                (preserves_dispatch_to _ _ ctx c' eq_refl))
      as (w1 & E1 & F1).
    rewrite E1.
    destruct (IH Hnd' Hin w1) as (w2 & E2 & O2).
    + apply (fr_now _ _ _ _ F1).
    + rewrite (fr_others _ _ _ _ F1); assumption.
    + eapply lead_known_frame; eassumption.
    + exists w2. split; [exact E2|].
      eapply frame_then_outcome; eassumption.
Qed.

Lemma checkCampaigns_unfold ctx w :
  checkCampaigns ctx w
  = for_each
      (filter (fun c => String.eqb (camp_agentId c) (ctx_agentId ctx)
                        && camp_active c)
              (campaigns w))
      (dispatch_to ctx)
      (snd (emit (EvDispatch ctx) w)).
Proof. reflexivity. Qed.

Lemma total_checkCampaigns ctx : total (checkCampaigns ctx).
Proof.
  unfold checkCampaigns.
  apply total_bind; [apply total_emit|]. intros _.
  apply total_bind; [apply total_gets|]. intros cs.
  apply total_for_each. intros c. apply (total_dispatch_to ctx c).
Qed.

Lemma preserves_checkCampaigns (T : AutomationTrigger -> Prop) ctx :
  T (ctx_trigger ctx) -> preserves T (fun _ => True) (checkCampaigns ctx).
Proof.
  intros Ht. unfold checkCampaigns.
  apply preserves_bind; [now apply preserves_emit|]. intros _.
  apply preserves_bind; [apply preserves_gets|]. intros cs.
  apply preserves_for_each. intros c.
  now apply (preserves_dispatch_to T (fun _ => True) ctx c).
Qed.

(** The dispatcher does for an active campaign of the event's agent what
    the campaign's own turn does. *)
Lemma checkCampaigns_own ctx c row ran errs w :
  (forall w1,
      now w1 = now w ->
      prisma.find_campaign (camp_id c) (campaigns w1) = Some c ->
      lead_known ctx w1 = true ->
      exists w',
        dispatch_to ctx c w1 = (Ok tt, w')
        /\ campaign_outcome (camp_id c) row ran errs w1 w') ->
  distinct (map camp_id (campaigns w)) = true -> In c (campaigns w) ->
  camp_active c = true -> camp_agentId c = ctx_agentId ctx ->
  lead_known ctx w = true ->
  exists w',
    checkCampaigns ctx w = (Ok tt, w')
    /\ campaign_outcome (camp_id c) row ran errs w w'.
Proof.
  intros Hturn Hd Hin Hact Hag Hl.
  apply distinct_NoDup in Hd.
  rewrite checkCampaigns_unfold. cbn [emit modify snd].
  set (w1 := mkWorld _ _ _ _ _ _ _).
  destruct (loop_own ctx c row ran errs (now w)
              (filter (fun c => String.eqb (camp_agentId c) (ctx_agentId ctx)
                                && camp_active c)
                      (campaigns w))
              Hturn) with (w := w1) as (w2 & E2 & C2 & t2 & T2 & A2 & R2).
  - now apply selected_ids_distinct.
  - apply filter_In. split; [exact Hin|].
    rewrite Hag, String.eqb_refl, Hact. reflexivity.
  - reflexivity.
  - now apply find_campaign_unique.
  - exact Hl.
  - exists w2. split; [exact E2|]. split; [exact C2|].
    exists ([EvDispatch ctx] ++ t2). subst w1. cbn [trace] in T2.
    split; [|split].
    + now rewrite T2, <- app_assoc.
    + exact A2.
    + exact R2.
Qed.

End WithPlatform.
End DispatcherFacts.

(* ================================================================= *)
(** ** The dispatcher's contract *)

Module DispatcherClaims.
Import Vocabulary FrameRules AutomationService DispatcherFacts.

Section WithPlatform.
Context `{Platform}.

(** C3, as the code has it. For every score-changed event: if the
    absolute difference between new and old score is less than 20 the store
    and the trace are left as they were (no campaign is matched, no action
    is executed); if it is at least 20 and the lead is stored, every active
    campaign of the lead's agent whose configured trigger kind is
    score.changed and whose stored actions are a list of actions that do not
    fail has each of these actions executed exactly once, in order, and its
    runCount incremented by exactly 1 with lastRunAt set, with no failure
    logged for it. *)
Theorem score_changed_dispatch :
  (forall w leadId oldScore newScore,
      Z.abs (newScore - oldScore) < 20 ->
      handleScoreChanged leadId oldScore newScore w = (Ok tt, w))
  /\ (forall w leadId lead oldScore newScore c v items,
         prisma.find_lead leadId (leads w) = Some lead ->
         20 <= Z.abs (newScore - oldScore) ->
         distinct (map camp_id (campaigns w)) = true ->
         In c (campaigns w) ->
         camp_active c = true ->
         camp_agentId c = lead_agentId lead ->
         JSON_parse (camp_triggerCondition c) = Some v ->
         get_property v "trigger" = Value (JStr "score.changed") ->
         JSON_parse (camp_actions c) = Some (JArr items) ->
         forallb action_runs items = true ->
         exists w',
           handleScoreChanged leadId oldScore newScore w = (Ok tt, w')
           /\ campaign_outcome (camp_id c) (bump_run (now w) c) items 0 w w'
           /\ camp_runCount (bump_run (now w) c) = camp_runCount c + 1
           /\ camp_lastRunAt (bump_run (now w) c) = Some (now w)).
Proof.
  split.
  - intros w leadId oldScore newScore Hlt. apply Z.ltb_lt in Hlt.
    unfold handleScoreChanged, prisma.lead_findUnique, bind, gets.
    destruct (prisma.find_lead leadId (leads w)); [|reflexivity].
    now rewrite Hlt.
  - intros w leadId lead oldScore newScore c v items
           Hf Hge Hd Hin Hact Hag Hv Ht Ha Hall.
    apply Z.ltb_ge in Hge.
    set (ctx := mkContext SCORE_CHANGED (lead_agentId lead) (Some leadId) None).
    assert (Hs : handleScoreChanged leadId oldScore newScore w
                 = checkCampaigns ctx w).
    { unfold handleScoreChanged, prisma.lead_findUnique.
      unfold bind at 1. unfold gets at 1. now rewrite Hf, Hge. }
    rewrite Hs.
    assert (Hl : lead_known ctx w = true).
    { unfold lead_known. cbn [ctx_leadId ctx]. now rewrite Hf. }
    destruct (checkCampaigns_own ctx c (bump_run (now w) c) items 0%nat w)
      as (w' & E & O); try assumption.
    + intros w1 N1 F1 L1. rewrite <- N1.
      apply (turn_runs ctx w1 c v (JArr items) items); try assumption.
      * unfold trigger_matches. rewrite Ht. reflexivity.
      * reflexivity.
    + exists w'. split; [exact E|]. split; [exact O|]. split; reflexivity.
Qed.

(** C9, as the code has it. A dispatch never throws to its caller, and
    what it does for an active campaign of the event's agent depends on
    that campaign alone, whatever the other campaigns do: a campaign whose
    stored trigger condition cannot be read is skipped with one logged
    failure; a matching campaign whose stored actions cannot be read runs
    nothing and has one failure logged; a matching campaign whose actions
    all run has them run once each, in order, and its run counted; a
    matching campaign one of whose actions fails has the actions up to the
    failing one tried, the later ones not, its run not counted, and one
    failure logged. *)
Theorem dispatch_isolates_campaigns (context : TriggerContext) (w : World) :
  (exists w', checkCampaigns context w = (Ok tt, w'))
  /\ (forall c,
         distinct (map camp_id (campaigns w)) = true ->
         In c (campaigns w) ->
         camp_active c = true ->
         camp_agentId c = ctx_agentId context ->
         lead_known context w = true ->
         (match JSON_parse (camp_triggerCondition c) with
          | Some v => get_property v "trigger" = TypeError
          | None => True
          end ->
          exists w',
            checkCampaigns context w = (Ok tt, w')
            /\ campaign_outcome (camp_id c) c [] 1 w w')
         /\ (forall v,
                JSON_parse (camp_triggerCondition c) = Some v ->
                trigger_matches v (ctx_trigger context) = true ->
                (match JSON_parse (camp_actions c) with
                 | Some a => iterate a = None
                 | None => True
                 end ->
                 exists w',
                   checkCampaigns context w = (Ok tt, w')
                   /\ campaign_outcome (camp_id c) c [] 1 w w')
                /\ (forall a items,
                       JSON_parse (camp_actions c) = Some a ->
                       iterate a = Some items ->
                       (forallb action_runs items = true ->
                        exists w',
                          checkCampaigns context w = (Ok tt, w')
                          /\ campaign_outcome (camp_id c)
                                              (bump_run (now w) c)
                                              items 0 w w')
                       /\ (forall before bad after,
                              items = before ++ bad :: after ->
                              forallb action_runs before = true ->
                              action_throws context bad = true ->
                              exists w',
                                checkCampaigns context w = (Ok tt, w')
                                /\ campaign_outcome (camp_id c) c
                                                    (before ++ [bad]) 1
                                                    w w')))).
Proof.
  split.
  - destruct (total_checkCampaigns context w) as [[] E].
    destruct (checkCampaigns context w) as [o w']. cbn [fst] in E. subst o.
    now exists w'.
  - intros c Hd Hin Hact Hag Hl. split.
    + intros Hbad.
      apply (checkCampaigns_own context c c [] 1%nat w); try assumption.
      intros w1 _ F1 _. now apply turn_trigger_unreadable.
    + intros v Hv Hm. split.
      * intros Hbad.
        apply (checkCampaigns_own context c c [] 1%nat w); try assumption.
        intros w1 _ F1 _. now apply (turn_actions_unreadable context w1 c v).
      * intros a items Ha Hi. split.
        -- intros Hall.
           apply (checkCampaigns_own context c (bump_run (now w) c) items
                                     0%nat w); try assumption.
           intros w1 N1 F1 L1. rewrite <- N1.
           now apply (turn_runs context w1 c v a items).
        -- intros before bad after -> Hall Hthrow.
           apply (checkCampaigns_own context c c (before ++ [bad]) 1%nat w);
             try assumption.
           intros w1 _ F1 L1.
           now apply (turn_action_fails context w1 c v a before bad after).
Qed.

(** C10. For every event of any trigger kind, a stored campaign whose
    trigger condition parses to a value without a [trigger] property is
    treated as matching, unless that value is [null]: the trigger evaluation
    returns true and changes nothing, so the dispatch of any event of its
    agent about a stored lead runs the actions of the campaign (once each,
    in order) and counts the run, when the campaign is active and its stored
    actions are a list of actions none of which fails. For the condition
    [null] the property cannot be read: the evaluation logs the failure and
    returns false, and the dispatch runs nothing for the campaign. *)
Theorem condition_without_trigger_matches
        (context : TriggerContext) (w : World) (c : Campaign) (v : JSON) :
  prisma.find_campaign (camp_id c) (campaigns w) = Some c ->
  JSON_parse (camp_triggerCondition c) = Some v ->
  (forall x, get_property v "trigger" <> Value x) ->
  (v <> JNull ->
   evaluateCampaignTrigger (camp_id c) context w = (Ok true, w)
   /\ (forall a items,
          distinct (map camp_id (campaigns w)) = true ->
          In c (campaigns w) ->
          camp_active c = true ->
          camp_agentId c = ctx_agentId context ->
          lead_known context w = true ->
          JSON_parse (camp_actions c) = Some a ->
          iterate a = Some items ->
          forallb action_runs items = true ->
          exists w',
            checkCampaigns context w = (Ok tt, w')
            /\ campaign_outcome (camp_id c) (bump_run (now w) c) items 0
                                w w'))
  /\ (v = JNull ->
      evaluateCampaignTrigger (camp_id c) context w
      = (Ok false,
         mkWorld (leads w) (activities w) (policies w) (commissions w)
                 (campaigns w) (now w)
                 (trace w
                  ++ [EvError (camp_id c)
                              "Failed to evaluate campaign trigger"]))
      /\ (distinct (map camp_id (campaigns w)) = true ->
          In c (campaigns w) ->
          camp_active c = true ->
          camp_agentId c = ctx_agentId context ->
          lead_known context w = true ->
          exists w',
            checkCampaigns context w = (Ok tt, w')
            /\ campaign_outcome (camp_id c) c [] 1 w w')).
Proof.
  intros Hf Hv Hno. split.
  - intros Hnn.
    assert (Hu : get_property v "trigger" = Undefined).
    { destruct v as [| | | | |fields]; try reflexivity; [contradiction|].
      cbn [get_property] in *.
      destruct (assoc "trigger" fields) as [x|]; [|reflexivity].
      now destruct (Hno x). }
    assert (Hm : trigger_matches v (ctx_trigger context) = true).
    { unfold trigger_matches. now rewrite Hu. }
    split.
    + now apply (evaluate_true _ context w c v).
    + intros a items Hd Hin Hact Hag Hl Ha Hi Hall.
      apply (checkCampaigns_own context c (bump_run (now w) c) items 0%nat w);
        try assumption.
      intros w1 N1 F1 L1. rewrite <- N1.
      now apply (turn_runs context w1 c v a items).
  - intros ->. split.
    + unfold evaluateCampaignTrigger, prisma.campaign_findUnique, bind, gets,
        try_catch.
      rewrite Hf, Hv. reflexivity.
    + intros Hd Hin Hact Hag Hl.
      apply (checkCampaigns_own context c c [] 1%nat w); try assumption.
      intros w1 _ F1 _.
      apply (turn_trigger_unreadable context w1 c F1).
      now rewrite Hv.
Qed.

End WithPlatform.

(** *** Concrete dispatches *)

Ltac pick_row := cbn; repeat (first [left; reflexivity | right]).

Lemma score_changed_dispatch_witness :
  exists w',
    @handleScoreChanged Samples.platform "L1" 10 40 Samples.dispatch_world
    = (Ok tt, w')
    /\ campaign_outcome "C3" (bump_run 1000 Samples.sound_campaign)
                        [Samples.send_email; Samples.create_task] 0
                        Samples.dispatch_world w'
    /\ camp_runCount (bump_run 1000 Samples.sound_campaign) = 0 + 1
    /\ camp_lastRunAt (bump_run 1000 Samples.sound_campaign) = Some 1000.
Proof.
  refine (proj2 (@score_changed_dispatch Samples.platform)
                Samples.dispatch_world "L1" (Samples.lead1 "NEW") 10 40
                Samples.sound_campaign
                (JObj [("trigger", JStr "score.changed")])
                [Samples.send_email; Samples.create_task]
                eq_refl _ eq_refl _ eq_refl eq_refl eq_refl eq_refl eq_refl
                eq_refl).
  - cbv. discriminate.
  - pick_row.
Defined.

(** C3, as stated, fails. The score moves from 10 to 40. Campaign C1 is
    active, is configured for score.changed and has stored actions that do
    not parse: its runCount stays 0. Campaign C2 is active, is configured
    for score.changed and has two configured actions of which the first
    fails: the second is never executed and its runCount stays 0. *)
Lemma score_changed_run_not_counted :
  let w := Samples.dispatch_world in
  let w' := snd (@handleScoreChanged Samples.platform "L1" 10 40 w) in
  20 <= Z.abs (40 - 10)
  /\ prisma.find_campaign "C1" (campaigns w) = Some Samples.unreadable_campaign
  /\ prisma.find_campaign "C2" (campaigns w) = Some Samples.failing_campaign
  /\ camp_active Samples.unreadable_campaign = true
  /\ camp_active Samples.failing_campaign = true
  /\ Samples.sample_parse (camp_triggerCondition Samples.unreadable_campaign)
     = Some (JObj [("trigger", JStr (trigger_value SCORE_CHANGED))])
  /\ Samples.sample_parse (camp_triggerCondition Samples.failing_campaign)
     = Some (JObj [("trigger", JStr (trigger_value SCORE_CHANGED))])
  /\ Samples.sample_parse (camp_actions Samples.failing_campaign)
     = Some (JArr [Samples.set_status_hot; Samples.send_email])
  /\ option_map camp_runCount (prisma.find_campaign "C1" (campaigns w'))
     = Some 0
  /\ option_map camp_runCount (prisma.find_campaign "C2" (campaigns w'))
     = Some 0
  /\ actions_run "C2" (trace w') = [Samples.set_status_hot].
Proof. cbv zeta. split; [cbv; discriminate|]. repeat split. Qed.

Lemma dispatch_isolates_campaigns_witness :
  (exists w',
      @checkCampaigns Samples.platform Samples.score_changed_context
                      Samples.dispatch_world = (Ok tt, w')
      /\ campaign_outcome "C6" Samples.broken_condition_campaign [] 1
                          Samples.dispatch_world w')
  /\ (exists w',
         @checkCampaigns Samples.platform Samples.score_changed_context
                         Samples.dispatch_world = (Ok tt, w')
         /\ campaign_outcome "C1" Samples.unreadable_campaign [] 1
                             Samples.dispatch_world w')
  /\ (exists w',
         @checkCampaigns Samples.platform Samples.score_changed_context
                         Samples.dispatch_world = (Ok tt, w')
         /\ campaign_outcome "C3" (bump_run 1000 Samples.sound_campaign)
                             [Samples.send_email; Samples.create_task] 0
                             Samples.dispatch_world w')
  /\ (exists w',
         @checkCampaigns Samples.platform Samples.score_changed_context
                         Samples.dispatch_world = (Ok tt, w')
         /\ campaign_outcome "C2" Samples.failing_campaign
                             ([] ++ [Samples.set_status_hot]) 1
                             Samples.dispatch_world w').
Proof.
  pose proof (@dispatch_isolates_campaigns Samples.platform
                Samples.score_changed_context Samples.dispatch_world) as D.
  split; [|split; [|split]].
  - refine (proj1 (proj2 D Samples.broken_condition_campaign
                     eq_refl _ eq_refl eq_refl eq_refl) I).
    pick_row.
  - refine (proj1 (proj2 (proj2 D Samples.unreadable_campaign
                            eq_refl _ eq_refl eq_refl eq_refl)
                     (JObj [("trigger", JStr "score.changed")])
                     eq_refl eq_refl) I).
    pick_row.
  - refine (proj1 (proj2 (proj2 (proj2 D Samples.sound_campaign
                                   eq_refl _ eq_refl eq_refl eq_refl)
                            (JObj [("trigger", JStr "score.changed")])
                            eq_refl eq_refl)
                     (JArr [Samples.send_email; Samples.create_task])
                     [Samples.send_email; Samples.create_task]
                     eq_refl eq_refl) eq_refl).
    pick_row.
  - refine (proj2 (proj2 (proj2 (proj2 D Samples.failing_campaign
                                   eq_refl _ eq_refl eq_refl eq_refl)
                            (JObj [("trigger", JStr "score.changed")])
                            eq_refl eq_refl)
                     (JArr [Samples.set_status_hot; Samples.send_email])
                     [Samples.set_status_hot; Samples.send_email]
                     eq_refl eq_refl)
              [] Samples.set_status_hot [Samples.send_email]
              eq_refl eq_refl eq_refl).
    pick_row.
Defined.

(** C9, as stated, fails for actions. Campaign C4 is active, matches the
    event and has the stored actions [[null, {"type":"send_email"}]]: the
    first one fails, and the send_email action after it is never run. *)
Lemma failing_action_stops_later_actions :
  let w := Samples.dispatch_world in
  let w' := snd (@checkCampaigns Samples.platform
                   Samples.score_changed_context w) in
  prisma.find_campaign "C4" (campaigns w) = Some Samples.null_campaign
  /\ Samples.sample_parse (camp_actions Samples.null_campaign)
     = Some (JArr [JNull; Samples.send_email])
  /\ actions_run "C4" (trace w') = [JNull]
  /\ ~ In (EvAction "C4" Samples.send_email) (trace w')
  /\ errors_logged "C4" (trace w') = 1%nat.
Proof.
  cbv zeta. repeat split.
  vm_compute. intuition discriminate.
Qed.

Lemma condition_without_trigger_matches_witness :
  (@evaluateCampaignTrigger Samples.platform "C5"
      Samples.activity_logged_context Samples.dispatch_world
   = (Ok true, Samples.dispatch_world)
   /\ exists w',
        @checkCampaigns Samples.platform Samples.activity_logged_context
                        Samples.dispatch_world = (Ok tt, w')
        /\ campaign_outcome "C5" (bump_run 1000 Samples.any_event_campaign)
                            [Samples.send_email; Samples.create_task] 0
                            Samples.dispatch_world w')
  /\ exists w',
       @checkCampaigns Samples.platform_with_null
                       Samples.activity_logged_context
                       Samples.null_condition_world = (Ok tt, w')
       /\ campaign_outcome "C8" Samples.null_condition_campaign [] 1
                           Samples.null_condition_world w'.
Proof.
  split.
  - destruct (@condition_without_trigger_matches Samples.platform
                Samples.activity_logged_context Samples.dispatch_world
                Samples.any_event_campaign (JObj [])
                eq_refl eq_refl ltac:(discriminate)) as [Hobj _].
    destruct (Hobj ltac:(discriminate)) as [E R].
    split; [exact E|].
    refine (R (JArr [Samples.send_email; Samples.create_task])
              [Samples.send_email; Samples.create_task]
              eq_refl _ eq_refl eq_refl eq_refl eq_refl eq_refl eq_refl).
    pick_row.
  - destruct (@condition_without_trigger_matches Samples.platform_with_null
                Samples.activity_logged_context Samples.null_condition_world
                Samples.null_condition_campaign JNull
                eq_refl eq_refl ltac:(discriminate)) as [_ Hnull].
    refine (proj2 (Hnull eq_refl) eq_refl _ eq_refl eq_refl eq_refl).
    pick_row.
Defined.

(** C10, as stated, fails for the stored condition [null]. Campaign C8 is
    active, belongs to the agent of the event, and its condition is valid
    JSON without a [trigger] key; the evaluation returns false, and the
    dispatch runs none of its two actions and does not count a run. Campaign
    C5 beside it, with the condition [{}], has both actions run. *)
Lemma null_condition_matches_nothing :
  let w := Samples.null_condition_world in
  let w' := snd (@checkCampaigns Samples.platform_with_null
                   Samples.activity_logged_context w) in
  prisma.find_campaign "C8" (campaigns w)
  = Some Samples.null_condition_campaign
  /\ camp_active Samples.null_condition_campaign = true
  /\ Samples.parse_with_null
       (camp_triggerCondition Samples.null_condition_campaign)
     = Some JNull
  /\ fst (@evaluateCampaignTrigger Samples.platform_with_null "C8"
            Samples.activity_logged_context w)
     = Ok false
  /\ actions_run "C8" (trace w') = []
  /\ option_map camp_runCount (prisma.find_campaign "C8" (campaigns w'))
     = Some 0
  /\ actions_run "C5" (trace w')
     = [Samples.send_email; Samples.create_task].
Proof. cbv zeta. repeat split. Qed.

End DispatcherClaims.

(* ================================================================= *)
(** ** Frames of the services *)

Module ServiceFacts.
Import Vocabulary FrameRules DispatcherFacts.

Lemma touch_id t l : lead_id (prisma.touch t l) = lead_id l.
Proof. reflexivity. Qed.

Lemma lead_update_run id data w l :
  prisma.find_lead id (leads w) = Some l ->
  prisma.lead_update id data w
  = (Ok tt,
     prisma.set_leads
       (prisma.replace_lead id (fun l => prisma.touch (now w) (data l))
                            (leads w)) w).
Proof.
  intros Hf. unfold prisma.lead_update, prisma.lead_findUnique, bind, gets.
  now rewrite Hf.
Qed.

Lemma find_lead_after_update id data w l :
  (forall l, lead_id (data l) = lead_id l) ->
  prisma.find_lead id (leads w) = Some l ->
  prisma.find_lead id
    (prisma.replace_lead id (fun l => prisma.touch (now w) (data l)) (leads w))
  = Some (prisma.touch (now w) (data l)).
Proof.
  intros Hd Hf. rewrite find_lead_replace, Hf; [reflexivity|].
  intros x. cbn. apply Hd.
Qed.

Lemma find_lead_frame T S id w w' l :
  frame T S w w' -> prisma.find_lead id (leads w) = Some l ->
  exists l', prisma.find_lead id (leads w') = Some l'.
Proof.
  intros F Hf. destruct (prisma.find_lead id (leads w')) eqn:E; [eauto|].
  apply find_lead_none in E. rewrite (fr_leads _ _ _ _ F) in E.
  apply find_lead_none in E. congruence.
Qed.

(** *** ScoringService *)

Lemma preserves_calculateLeadScore T S id :
  preserves T S (ScoringService.calculateLeadScore id).
Proof.
  unfold ScoringService.calculateLeadScore.
  apply preserves_bind; [apply preserves_gets|].
  intros [l|]; [|apply preserves_throw].
  apply preserves_bind; [apply preserves_gets|]. intros acts.
  apply preserves_bind; [apply preserves_gets|]. intros t.
  apply preserves_ret.
Qed.

Lemma preserves_updateLeadScore T S id :
  preserves T S (ScoringService.updateLeadScore id).
Proof.
  unfold ScoringService.updateLeadScore.
  apply preserves_bind; [apply preserves_calculateLeadScore|]. intros b.
  apply preserves_bind; [now apply preserves_lead_update|]. intros _.
  apply preserves_bind; [|intros _; apply preserves_ret].
  apply preserves_emit; exact I.
Qed.

Lemma updateLeadScore_run id w l :
  prisma.find_lead id (leads w) = Some l ->
  let b := ScoringService.computeScore l (prisma.activities_of id w) (now w) in
  ScoringService.updateLeadScore id w = (Ok b, scored id b w).
Proof.
  intros Hf b.
  unfold ScoringService.updateLeadScore, ScoringService.calculateLeadScore,
    prisma.lead_update, prisma.lead_findUnique, emit, bind, gets, modify, ret.
  cbn [leads]. rewrite Hf. cbn [leads now]. rewrite Hf. reflexivity.
Qed.

Section WithPlatform.
Context `{Platform}.

(** *** AutomationService *)

Lemma preserves_handler (T : AutomationTrigger -> Prop)
      (kind : AutomationTrigger) (leadId : string) (policyId : option string) :
  T kind ->
  preserves T (fun _ => True)
    (lead <- prisma.lead_findUnique leadId ;;
     match lead with
     | None => ret tt
     | Some lead =>
         AutomationService.checkCampaigns
           (mkContext kind (lead_agentId lead) (Some leadId) policyId)
     end)%monad.
Proof.
  intros Ht. apply preserves_bind; [apply preserves_gets|].
  intros [l|]; [|apply preserves_ret].
  now apply preserves_checkCampaigns.
Qed.

Lemma total_handler (kind : AutomationTrigger) (leadId : string)
      (policyId : option string) :
  total
    (lead <- prisma.lead_findUnique leadId ;;
     match lead with
     | None => ret tt
     | Some lead =>
         AutomationService.checkCampaigns
           (mkContext kind (lead_agentId lead) (Some leadId) policyId)
     end)%monad.
Proof.
  apply total_bind; [apply total_gets|].
  intros [l|]; [|apply total_ret]. apply total_checkCampaigns.
Qed.

(** One dispatch hands its context to the dispatcher and nothing else. *)
Lemma checkCampaigns_trace ctx w :
  exists w' rest,
    AutomationService.checkCampaigns ctx w = (Ok tt, w')
    /\ trace w' = trace w ++ EvDispatch ctx :: rest
    /\ Forall (allowed (fun _ => False)) rest
    /\ frame (fun k => k = ctx_trigger ctx) (fun _ => True) w w'.
Proof.
  rewrite checkCampaigns_unfold. cbn [emit modify snd].
  set (w1 := mkWorld _ _ _ _ _ _ _).
  destruct (loop_frame (fun _ => False) ctx
              (filter (fun c => String.eqb (camp_agentId c) (ctx_agentId ctx)
                                && camp_active c) (campaigns w)) w1)
    as (w2 & E2 & F2).
  destruct (fr_trace _ _ _ _ F2) as (t2 & T2 & A2 & _).
  exists w2, t2. split; [exact E2|]. split; [|split; [exact A2|]].
  - rewrite T2. subst w1. cbn [trace]. now rewrite <- app_assoc.
  - pose proof (preserves_checkCampaigns (fun k => k = ctx_trigger ctx) ctx
                  eq_refl w) as F.
    rewrite checkCampaigns_unfold in F. cbn [emit modify snd] in F.
    fold w1 in F. now rewrite E2 in F.
Qed.

(** *** ActivityService *)

Lemma derivedStatus_note status outcome :
  ActivityService.derivedStatus status "NOTE" outcome = None.
Proof. reflexivity. Qed.

Lemma preserves_autoUpdate (T : AutomationTrigger -> Prop) leadId ty outcome :
  T LEAD_STATUS_CHANGED ->
  preserves T (fun _ => True)
    (ActivityService.autoUpdateLeadStatus leadId ty outcome).
Proof.
  intros Ht. unfold ActivityService.autoUpdateLeadStatus.
  apply preserves_bind; [apply preserves_gets|].
  intros [l|]; [|apply preserves_ret].
  destruct (ActivityService.derivedStatus (lead_status l) ty outcome);
    [|apply preserves_ret].
  destruct (negb _); [|apply preserves_ret].
  apply preserves_bind; [now apply preserves_lead_update|]. intros _.
  now apply (preserves_handler T LEAD_STATUS_CHANGED leadId None).
Qed.

Lemma preserves_logActivity (T : AutomationTrigger -> Prop)
      agentId leadId ty outcome :
  T ACTIVITY_LOGGED -> T LEAD_STATUS_CHANGED ->
  preserves T (fun _ => True)
    (ActivityService.logActivity agentId leadId ty outcome).
Proof.
  intros Ha Hs. unfold ActivityService.logActivity.
  apply preserves_bind; [apply preserves_gets|].
  intros [l|]; [|apply preserves_throw].
  apply preserves_bind; [apply preserves_activity_create|]. intros _.
  apply preserves_bind; [apply preserves_updateLeadScore|]. intros _.
  apply preserves_bind;
    [now apply (preserves_handler T ACTIVITY_LOGGED leadId None)|]. intros _.
  now apply preserves_autoUpdate.
Qed.

End WithPlatform.
End ServiceFacts.

(* ================================================================= *)
(** ** Policies and commissions *)

Module PolicyFacts.
Import Vocabulary FrameRules DispatcherFacts ServiceFacts.
Import CommissionService.

Lemma snd_bind {A B} (m : M A) (k : A -> M B) (w : World) :
  snd (bind m k w)
  = match m w with
    | (Ok a, w1) => snd (k a w1)
    | (Throw _, w1) => w1
    end.
Proof. unfold bind. now destruct (m w) as [[a|e] w1]. Qed.

Lemma kc_ret {A} (a : A) : keeps_commissions (ret a).
Proof. now intros w. Qed.

Lemma kc_bind {A B} (m : M A) (k : A -> M B) :
  keeps_commissions m -> (forall a, keeps_commissions (k a)) ->
  keeps_commissions (bind m k).
Proof.
  intros Hm Hk w. rewrite snd_bind. specialize (Hm w).
  destruct (m w) as [[a|e] w1]; cbn [snd] in *; [|exact Hm].
  now rewrite Hk.
Qed.

Lemma kc_when (b : bool) (m : M unit) :
  keeps_commissions m -> keeps_commissions (when b m).
Proof. destruct b; cbn; [auto | intros _; apply kc_ret]. Qed.

Lemma kc_frame {A} T S (m : M A) : preserves T S m -> keeps_commissions m.
Proof. intros Hp w. apply (fr_commissions _ _ _ _ (Hp w)). Qed.

Lemma kc_policy_update id data :
  keeps_commissions (prisma.policy_update id data).
Proof.
  intros w. unfold prisma.policy_update, prisma.policy_findUnique, bind, gets.
  now destruct (prisma.find_policy id (policies w)).
Qed.

Lemma find_policy_replace id f ps :
  (forall p, pol_id (f p) = pol_id p) ->
  prisma.find_policy id (prisma.replace_policy id f ps)
  = option_map f (prisma.find_policy id ps).
Proof.
  intros Hid. unfold prisma.find_policy, prisma.replace_policy.
  induction ps as [|p ps IH]; [reflexivity|].
  cbn [map find].
  destruct (String.eqb (pol_id p) id) eqn:E.
  - rewrite Hid, E. reflexivity.
  - rewrite E. exact IH.
Qed.

Lemma policy_update_run id data w p :
  prisma.find_policy id (policies w) = Some p ->
  prisma.policy_update id data w
  = (Ok tt, prisma.set_policies (prisma.replace_policy id data (policies w)) w).
Proof.
  intros Hf. unfold prisma.policy_update, prisma.policy_findUnique, bind, gets.
  now rewrite Hf.
Qed.

(** Every product type of the first-year table has a rate that is not
    zero, so [rate || 0] is the rate. *)
Lemma default_rate_truthy (productType : string) (rate : Q) :
  lookup productType DEFAULT_COMMISSION_RATES = Some rate ->
  or_zero (Some rate) = rate.
Proof.
  unfold DEFAULT_COMMISSION_RATES. cbn [lookup].
  repeat match goal with
         | |- context [String.eqb productType ?k] =>
             destruct (String.eqb productType k);
             [intros [= <-]; reflexivity|]
         end.
  discriminate.
Qed.

(** The commission that issuing a policy creates. *)
Lemma commission_on_issue id w p :
  prisma.find_policy id (policies w) = Some p ->
  exists w',
    CommissionService.handlePolicyIssued id w = (Ok tt, w')
    /\ commissions w'
       = commissions w
         ++ [mkCommission id (pol_agentId p)
               (pol_premium p
                * or_zero (lookup (pol_productType p) DEFAULT_COMMISSION_RATES))
               "FIRST_YEAR" "PENDING"].
Proof.
  intros Hf.
  unfold CommissionService.handlePolicyIssued, prisma.policy_findUnique.
  unfold bind at 1. unfold gets at 1. rewrite Hf.
  unfold createCommission, prisma.commission_create.
  unfold bind at 1. cbn [modify].
  erewrite policy_update_run by (cbn [policies prisma.set_commissions];
                                 exact Hf).
  eexists. split; reflexivity.
Qed.

Section WithPlatform.
Context `{Platform}.

Lemma kc_logActivity agentId leadId ty outcome :
  keeps_commissions (ActivityService.logActivity agentId leadId ty outcome).
Proof.
  eapply kc_frame. apply (preserves_logActivity (fun _ => True)); exact I.
Qed.

Lemma kc_updateLeadScore leadId :
  keeps_commissions (ScoringService.updateLeadScore leadId).
Proof.
  eapply kc_frame.
  apply (preserves_updateLeadScore (fun _ => True) (fun _ => True)).
Qed.

Lemma kc_lead_update id data :
  (forall l, lead_id (data l) = lead_id l) ->
  keeps_commissions (prisma.lead_update id data).
Proof.
  intros Hd. eapply kc_frame.
  now apply (preserves_lead_update (fun _ => True) (fun _ => True)).
Qed.

Lemma kc_handlePolicyInUnderwriting id :
  keeps_commissions (PolicyService.handlePolicyInUnderwriting id).
Proof.
  unfold PolicyService.handlePolicyInUnderwriting.
  apply kc_bind; [now intros w|]. intros [p|]; [|apply kc_ret].
  apply kc_bind; [now apply kc_lead_update|]. intros _.
  apply kc_bind; [apply kc_logActivity|]. intros _.
  apply kc_bind; [apply kc_updateLeadScore|]. intros _. apply kc_ret.
Qed.

Lemma kc_handlePolicyNotIssued id s :
  keeps_commissions (PolicyService.handlePolicyNotIssued id s).
Proof.
  unfold PolicyService.handlePolicyNotIssued.
  apply kc_bind; [now intros w|]. intros [p|]; [|apply kc_ret].
  apply kc_bind; [now apply kc_lead_update|]. intros _.
  apply kc_bind; [apply kc_logActivity|]. intros _.
  apply kc_bind; [apply kc_updateLeadScore|]. intros _. apply kc_ret.
Qed.

(** Issuing creates the commission before anything that can fail, and
    nothing after it touches the commission table. *)
Lemma issue_appends_commission id w p :
  prisma.find_policy id (policies w) = Some p ->
  commissions (snd (PolicyService.handlePolicyIssued id w))
  = commissions w
    ++ [mkCommission id (pol_agentId p)
          (pol_premium p
           * or_zero (lookup (pol_productType p) DEFAULT_COMMISSION_RATES))
          "FIRST_YEAR" "PENDING"].
Proof.
  intros Hf.
  unfold PolicyService.handlePolicyIssued, prisma.policy_findUnique.
  rewrite snd_bind. unfold gets at 1. rewrite Hf.
  rewrite snd_bind.
  assert (E1 : exists w1 p1,
             (match pol_issueDate p with
              | Some _ => ret tt
              | None =>
                  (t <- gets now ;;
                   prisma.policy_update id (PolicyService.set_issueDate t)
                  )%monad
              end) w = (Ok tt, w1)
             /\ commissions w1 = commissions w
             /\ prisma.find_policy id (policies w1) = Some p1
             /\ pol_agentId p1 = pol_agentId p
             /\ pol_premium p1 = pol_premium p
             /\ pol_productType p1 = pol_productType p).
  { destruct (pol_issueDate p).
    - exists w, p. now repeat split.
    - unfold bind, gets. erewrite policy_update_run by exact Hf.
      eexists _, (PolicyService.set_issueDate (now w) p).
      split; [reflexivity|]. split; [reflexivity|]. split; [|now repeat split].
      cbn [policies prisma.set_policies].
      rewrite find_policy_replace by reflexivity. now rewrite Hf. }
  destruct E1 as (w1 & p1 & E1 & C1 & F1 & Ag & Pr & Pt). rewrite E1.
  rewrite snd_bind.
  destruct (commission_on_issue id w1 p1 F1) as (w2 & E2 & C2). rewrite E2.
  match goal with
  | |- commissions (snd (?m w2)) = _ =>
      assert (K : keeps_commissions m)
  end.
  { apply kc_bind; [now apply kc_lead_update|]. intros _.
    apply kc_bind; [apply kc_logActivity|]. intros _.
    eapply kc_frame.
    apply (preserves_handler (fun _ => True) POLICY_ISSUED _ _ I). }
  rewrite K, C2, C1, Ag, Pr, Pt. reflexivity.
Qed.

Lemma bind_tail_keeps {A B} (m : M A) (k : A -> M B) (w : World) :
  (forall a, keeps_commissions (k a)) ->
  commissions (snd (bind m k w)) = commissions (snd (m w)).
Proof.
  intros Hk. rewrite snd_bind.
  destruct (m w) as [[a|e] w1]; cbn [snd]; [apply Hk | reflexivity].
Qed.

Lemma kc_premium_branch id (params : PolicyService.UpdatePolicyParams)
      (previousStatus productType : string) :
  keeps_commissions
    (match PolicyService.premium params with
     | Some newPremium =>
         when (truthy_number newPremium
               && String.eqb previousStatus "QUOTED"
               && negb (truthy_string (PolicyService.status params)))
           (let commissionResult :=
              calculateCommission newPremium productType None "FIRST_YEAR" in
            prisma.policy_update id
              (set_commission (commissionAmount commissionResult)
                              (commissionRate commissionResult)))
     | None => ret tt
     end).
Proof.
  destruct (PolicyService.premium params); [|apply kc_ret].
  apply kc_when, kc_policy_update.
Qed.

Lemma kc_after_issue id (params : PolicyService.UpdatePolicyParams)
      (previousStatus : string) :
  keeps_commissions
    (when (match PolicyService.status params with
           | Some s => String.eqb s "UNDERWRITING"
           | None => false
           end
           && negb (String.eqb previousStatus "UNDERWRITING"))
       (PolicyService.handlePolicyInUnderwriting id) ;;
     match PolicyService.status params with
     | Some s =>
         when (truthy_string (PolicyService.status params)
               && includes ["DECLINED"; "POSTPONED"; "WITHDRAWN"] s)
           (PolicyService.handlePolicyNotIssued id s)
     | None => ret tt
     end)%monad.
Proof.
  apply kc_bind; [apply kc_when, kc_handlePolicyInUnderwriting|]. intros _.
  destruct (PolicyService.status params); [|apply kc_ret].
  apply kc_when, kc_handlePolicyNotIssued.
Qed.

(** C2. For every stored policy, an update that sets the status to ISSUED
    from any other status appends exactly one commission to the commission
    table: a PENDING FIRST_YEAR commission of the policy whose amount is the
    policy's premium times the first-year rate of its product type; every
    other update, a second ISSUED-to-ISSUED update among them, leaves the
    commission table as it was. *)
Theorem issue_creates_one_commission
        (w : World) (policyId : string) (policy : Policy)
        (params : PolicyService.UpdatePolicyParams) :
  prisma.find_policy policyId (policies w) = Some policy ->
  let issued := PolicyService.policy_data params policy in
  let w' := snd (PolicyService.updatePolicy policyId params w) in
  (PolicyService.status params = Some "ISSUED" ->
   pol_status policy <> "ISSUED" ->
   forall rate,
     lookup (pol_productType issued) DEFAULT_COMMISSION_RATES = Some rate ->
     commissions w'
     = commissions w
       ++ [mkCommission policyId (pol_agentId policy)
                        (pol_premium issued * rate) "FIRST_YEAR" "PENDING"])
  /\ (PolicyService.status params <> Some "ISSUED"
      \/ pol_status policy = "ISSUED" ->
      commissions w' = commissions w).
Proof.
  intros Hf issued w'. subst w'.
  pose (w1 := prisma.set_policies
                (prisma.replace_policy policyId
                   (PolicyService.policy_data params) (policies w)) w).
  assert (F1 : prisma.find_policy policyId (policies w1) = Some issued).
  { subst w1. cbn [policies prisma.set_policies].
    rewrite find_policy_replace by reflexivity. now rewrite Hf. }
  split.
  - intros Hs Hprev rate Hrate.
    unfold PolicyService.updatePolicy, prisma.policy_findUnique.
    rewrite snd_bind. unfold gets at 1. rewrite Hf.
    rewrite snd_bind. erewrite policy_update_run by exact Hf. fold w1.
    rewrite snd_bind.
    assert (E : (match PolicyService.premium params with
                 | Some newPremium =>
                     when (truthy_number newPremium
                           && String.eqb (pol_status policy) "QUOTED"
                           && negb (truthy_string (PolicyService.status params)))
                       (let commissionResult :=
                          calculateCommission
                            newPremium
                            (pol_productType
                               (PolicyService.policy_data params policy))
                            None "FIRST_YEAR" in
                        prisma.policy_update policyId
                          (set_commission (commissionAmount commissionResult)
                                          (commissionRate commissionResult)))
                 | None => ret tt
                 end) w1 = (Ok tt, w1)).
    { rewrite Hs. cbn [truthy_string String.eqb Ascii.eqb Bool.eqb negb].
      destruct (PolicyService.premium params); [|reflexivity].
      now rewrite andb_false_r. }
    cbv zeta in E. rewrite E.
    rewrite bind_tail_keeps by (intros; apply kc_after_issue).
    rewrite Hs. rewrite String.eqb_refl.
    destruct (String.eqb_spec (pol_status policy) "ISSUED") as [|_];
      [contradiction|].
    cbn [andb negb when].
    rewrite (issue_appends_commission policyId w1 issued F1).
    rewrite Hrate, (default_rate_truthy _ _ Hrate). reflexivity.
  - intros Hno.
    assert (C : (match PolicyService.status params with
                 | Some s => String.eqb s "ISSUED"
                 | None => false
                 end && negb (String.eqb (pol_status policy) "ISSUED"))
                = false).
    { destruct Hno as [Hno | ->]; [|now rewrite andb_false_r].
      destruct (PolicyService.status params) as [s|]; [|reflexivity].
      destruct (String.eqb_spec s "ISSUED") as [->|]; [congruence|reflexivity]. }
    unfold PolicyService.updatePolicy, prisma.policy_findUnique.
    rewrite snd_bind. unfold gets at 1. rewrite Hf.
    rewrite snd_bind. erewrite policy_update_run by exact Hf. fold w1.
    match goal with
    | |- commissions (snd (?m w1)) = _ =>
        assert (K : keeps_commissions m)
    end.
    { apply kc_bind; [apply kc_premium_branch|]. intros _.
      apply kc_bind; [rewrite C; apply kc_ret|]. intros _.
      apply kc_after_issue. }
    rewrite K. reflexivity.
Qed.

End WithPlatform.

(** *** Concrete policies *)

Lemma issue_creates_one_commission_witness :
  commissions
    (snd (@PolicyService.updatePolicy Samples.platform "P1"
            (PolicyService.mkPolicyParams None None (Some "ISSUED") None)
            Samples.policy_world))
  = [mkCommission "P1" "A1" (1200 * (90 # 100)) "FIRST_YEAR" "PENDING"].
Proof.
  exact (proj1 (@issue_creates_one_commission Samples.platform
                  Samples.policy_world "P1" (Samples.policy1 "APPLIED")
                  (PolicyService.mkPolicyParams None None (Some "ISSUED") None)
                  eq_refl)
               eq_refl ltac:(discriminate) (90 # 100)%Q eq_refl).
Defined.

(** Issuing once creates one commission; issuing the issued policy again
    creates none; another update of the issued policy creates none. *)
Example second_issue_adds_nothing :
  let issue :=
    @PolicyService.updatePolicy Samples.platform "P1"
       (PolicyService.mkPolicyParams None None (Some "ISSUED") None) in
  let w1 := snd (issue Samples.policy_world) in
  let w2 := snd (issue w1) in
  let w3 :=
    snd (@PolicyService.updatePolicy Samples.platform "P1"
           (PolicyService.mkPolicyParams None (Some 2400%Q) None None) w2) in
  List.length (commissions w1) = 1%nat
  /\ commissions w2 = commissions w1
  /\ commissions w3 = commissions w1
  /\ option_map pol_status (prisma.find_policy "P1" (policies w2))
     = Some "ISSUED"
  /\ option_map lead_status (prisma.find_lead "L1" (leads w1)) = Some "PLACED".
Proof. vm_compute. repeat split. Qed.

End PolicyFacts.

(* ================================================================= *)
(** ** Status changes, recomputation and events *)

Module StatusFacts.
Import Vocabulary FrameRules DispatcherFacts ServiceFacts PolicyFacts.

Lemma find_lead_scored id b w l :
  prisma.find_lead id (leads w) = Some l ->
  prisma.find_lead id (leads (scored id b w))
  = Some (prisma.touch (now w)
            (ScoringService.set_score (ScoringService.currentScore b) l)).
Proof.
  intros Hf. unfold scored. cbn [leads].
  rewrite find_lead_replace by reflexivity. now rewrite Hf.
Qed.

Section WithPlatform.
Context `{Platform}.

Lemma handleActivityLogged_run leadId ty outcome w l :
  prisma.find_lead leadId (leads w) = Some l ->
  AutomationService.handleActivityLogged leadId ty outcome w
  = AutomationService.checkCampaigns
      (mkContext ACTIVITY_LOGGED (lead_agentId l) (Some leadId) None) w.
Proof.
  intros Hf.
  unfold AutomationService.handleActivityLogged, prisma.lead_findUnique.
  unfold bind at 1. unfold gets at 1. now rewrite Hf.
Qed.

Lemma handleLeadStatusChanged_run leadId old new w l :
  prisma.find_lead leadId (leads w) = Some l ->
  AutomationService.handleLeadStatusChanged leadId old new w
  = AutomationService.checkCampaigns
      (mkContext LEAD_STATUS_CHANGED (lead_agentId l) (Some leadId) None) w.
Proof.
  intros Hf.
  unfold AutomationService.handleLeadStatusChanged, prisma.lead_findUnique.
  unfold bind at 1. unfold gets at 1. now rewrite Hf.
Qed.

(** Logging a note: the activity is stored, the score is recomputed from
    the lead as it is stored at that moment, and one ACTIVITY_LOGGED event
    goes to the dispatcher; the status is not derived from a note. *)
Lemma logActivity_note_run agentId leadId outcome w l :
  prisma.find_lead leadId (leads w) = Some l ->
  let w1 :=
    prisma.set_activities
      (mkActivity agentId leadId "NOTE" outcome (now w) :: activities w) w in
  let b := ScoringService.computeScore l (prisma.activities_of leadId w1)
                                       (now w) in
  exists w' rest,
    ActivityService.logActivity agentId leadId "NOTE" outcome w = (Ok tt, w')
    /\ trace w'
       = trace w
         ++ EvScoring leadId (lead_score l) (ScoringService.currentScore b)
         :: EvDispatch
              (mkContext ACTIVITY_LOGGED (lead_agentId l) (Some leadId) None)
         :: rest
    /\ Forall (allowed (fun _ => False)) rest
    /\ exists l', prisma.find_lead leadId (leads w') = Some l'.
Proof.
  intros Hf w1 b.
  unfold ActivityService.logActivity, prisma.lead_findUnique.
  unfold bind at 1. unfold gets at 1. rewrite Hf.
  unfold bind at 1. unfold prisma.activity_create at 1. cbn [modify].
  fold w1.
  assert (Hf1 : prisma.find_lead leadId (leads w1) = Some l) by exact Hf.
  unfold bind at 1. rewrite (updateLeadScore_run leadId w1 l Hf1).
  change (now w1) with (now w). fold b.
  set (w2 := scored leadId b w1).
  pose proof (find_lead_scored leadId b w1 l Hf1) as Hf2. fold w2 in Hf2.
  unfold bind at 1. rewrite (handleActivityLogged_run _ _ _ w2 _ Hf2).
  cbn [lead_agentId prisma.touch ScoringService.set_score].
  destruct (checkCampaigns_trace
              (mkContext ACTIVITY_LOGGED (lead_agentId l) (Some leadId) None)
              w2) as (w3 & rest & E3 & T3 & A3 & F3).
  rewrite E3.
  destruct (find_lead_frame _ _ leadId w2 w3 _ F3 Hf2) as [l3 Hf3].
  unfold ActivityService.autoUpdateLeadStatus, prisma.lead_findUnique.
  unfold bind, gets. rewrite Hf3. rewrite derivedStatus_note.
  exists w3, rest. split; [reflexivity|]. split; [|split; [exact A3|eauto]].
  rewrite T3. subst w2. unfold scored. cbn [trace].
  subst w1. cbn [trace prisma.set_activities].
  now rewrite <- app_assoc.
Qed.

(** The handler of a declined, postponed or withdrawn policy. *)
Lemma handlePolicyNotIssued_run policyId s w policy lead :
  prisma.find_policy policyId (policies w) = Some policy ->
  prisma.find_lead (pol_leadId policy) (leads w) = Some lead ->
  let leadId := pol_leadId policy in
  let leadStatus :=
    if String.eqb s "WITHDRAWN" then "LOST" else "NOT_PLACED" in
  let placed :=
    prisma.touch (now w) (AutomationService.set_status leadStatus lead) in
  let w1 :=
    prisma.set_activities
      (mkActivity (pol_agentId policy) leadId "NOTE" None (now w)
         :: activities w) w in
  let b := ScoringService.computeScore placed (prisma.activities_of leadId w1)
                                       (now w) in
  exists w' rest previous current,
    PolicyService.handlePolicyNotIssued policyId s w = (Ok tt, w')
    /\ trace w'
       = trace w
         ++ EvScoring leadId (lead_score lead) (ScoringService.currentScore b)
         :: EvDispatch
              (mkContext ACTIVITY_LOGGED (lead_agentId lead) (Some leadId) None)
         :: rest ++ [EvScoring leadId previous current]
    /\ Forall (allowed (fun _ => False)) rest.
Proof.
  intros Hp Hl leadId leadStatus placed w1 b.
  unfold PolicyService.handlePolicyNotIssued, prisma.policy_findUnique.
  unfold bind at 1. unfold gets at 1. rewrite Hp.
  fold leadId. fold leadStatus.
  unfold bind at 1. rewrite (lead_update_run leadId _ w lead Hl).
  set (w2 := prisma.set_leads _ w).
  assert (Hl2 : prisma.find_lead leadId (leads w2) = Some placed).
  { subst w2. cbn [leads prisma.set_leads].
    now apply find_lead_after_update. }
  destruct (logActivity_note_run (pol_agentId policy) leadId None w2 placed Hl2)
    as (w3 & rest & E3 & T3 & A3 & l3 & Hl3).
  unfold bind at 1. rewrite E3.
  unfold bind at 1. rewrite (updateLeadScore_run leadId w3 l3 Hl3).
  cbn [ret].
  eexists _, rest, _, _. split; [reflexivity|]. split; [|exact A3].
  unfold scored. cbn [trace]. rewrite T3.
  subst w2. cbn [trace prisma.set_leads now activities].
  rewrite <- app_assoc. reflexivity.
Qed.

(** An explicit edit that changes the status. *)
Lemma updateLead_run leadId newStatus intent w lead :
  prisma.find_lead leadId (leads w) = Some lead ->
  newStatus <> "" -> newStatus <> lead_status lead ->
  let params := LeadService.mkLeadParams (Some newStatus) intent in
  let edited := prisma.touch (now w) (LeadService.lead_data params lead) in
  let b := ScoringService.computeScore edited (prisma.activities_of leadId w)
                                       (now w) in
  exists w' rest,
    LeadService.updateLead leadId params w = (Ok tt, w')
    /\ trace w'
       = trace w
         ++ EvScoring leadId (lead_score lead) (ScoringService.currentScore b)
         :: EvDispatch
              (mkContext LEAD_STATUS_CHANGED (lead_agentId lead) (Some leadId)
                         None)
         :: rest
    /\ Forall (allowed (fun _ => False)) rest.
Proof.
  intros Hl Hne Hch params edited b.
  unfold LeadService.updateLead, prisma.lead_findUnique.
  unfold bind at 1. unfold gets at 1. rewrite Hl.
  unfold bind at 1. rewrite (lead_update_run leadId _ w lead Hl).
  set (w1 := prisma.set_leads _ w).
  assert (Hl1 : prisma.find_lead leadId (leads w1) = Some edited).
  { subst w1. cbn [leads prisma.set_leads].
    now apply find_lead_after_update. }
  assert (Ht : truthy_string (Some newStatus) = true).
  { cbn. now destruct (String.eqb_spec newStatus ""). }
  assert (Hc : negb (String.eqb newStatus (lead_status lead)) = true).
  { now destruct (String.eqb_spec newStatus (lead_status lead)). }
  change (LeadService.status params) with (Some newStatus).
  rewrite Ht. cbn [orb].
  unfold bind at 1. unfold bind at 1.
  rewrite (updateLeadScore_run leadId w1 edited Hl1).
  cbn [ret]. rewrite Hc. cbn [andb when].
  set (w2 := scored leadId _ w1).
  pose proof (find_lead_scored leadId
                (ScoringService.computeScore edited
                   (prisma.activities_of leadId w1) (now w1))
                w1 edited Hl1) as Hl2.
  fold w2 in Hl2.
  rewrite (handleLeadStatusChanged_run _ _ _ w2 _ Hl2).
  cbn [lead_agentId prisma.touch ScoringService.set_score edited
       LeadService.lead_data].
  destruct (checkCampaigns_trace
              (mkContext LEAD_STATUS_CHANGED (lead_agentId lead) (Some leadId)
                         None) w2) as (w3 & rest & E3 & T3 & A3 & _).
  exists w3, rest. split; [exact E3|]. split; [|exact A3].
  rewrite T3. subst w2. unfold scored. cbn [trace].
  subst w1. cbn [trace prisma.set_leads].
  rewrite <- app_assoc. reflexivity.
Qed.

Lemma updatePolicy_not_issued policyId params s w policy :
  prisma.find_policy policyId (policies w) = Some policy ->
  PolicyService.status params = Some s ->
  In s ["DECLINED"; "POSTPONED"; "WITHDRAWN"] ->
  PolicyService.updatePolicy policyId params w
  = PolicyService.handlePolicyNotIssued policyId s
      (prisma.set_policies
         (prisma.replace_policy policyId (PolicyService.policy_data params)
                                (policies w)) w).
Proof.
  intros Hp Hs Hin. destruct params as [pt pr st dt]. cbn in Hs. subst st.
  unfold PolicyService.updatePolicy, prisma.policy_findUnique.
  unfold bind at 1. unfold gets at 1. rewrite Hp.
  unfold bind at 1. erewrite policy_update_run by exact Hp.
  cbn [PolicyService.status PolicyService.premium].
  destruct Hin as [<- | [<- | [<- | []]]];
    (destruct pr as [q|];
     [ destruct (truthy_number q && String.eqb (pol_status policy) "QUOTED")
     | ]; reflexivity).
Qed.

(** C5, as the code has it. An explicit lead edit that changes the status
    recomputes the score of the edited lead and then hands one
    LEAD_STATUS_CHANGED event to the dispatcher. An update of a policy to
    DECLINED, POSTPONED or WITHDRAWN sets the lead's status to NOT_PLACED
    (LOST when withdrawn), recomputes the score from that status, hands the
    dispatcher the ACTIVITY_LOGGED event of the note it logs and no other
    event, and recomputes the score once more. *)
Theorem status_change_recomputes_and_dispatches :
  (forall w leadId lead newStatus intent,
      prisma.find_lead leadId (leads w) = Some lead ->
      newStatus <> "" -> newStatus <> lead_status lead ->
      let params := LeadService.mkLeadParams (Some newStatus) intent in
      let edited :=
        prisma.touch (now w) (LeadService.lead_data params lead) in
      let b :=
        ScoringService.computeScore edited (prisma.activities_of leadId w)
                                    (now w) in
      exists w' rest,
        LeadService.updateLead leadId params w = (Ok tt, w')
        /\ trace w'
           = trace w
             ++ EvScoring leadId (lead_score lead)
                          (ScoringService.currentScore b)
             :: EvDispatch
                  (mkContext LEAD_STATUS_CHANGED (lead_agentId lead)
                             (Some leadId) None)
             :: rest
        /\ Forall (allowed (fun _ => False)) rest)
  /\ (forall w policyId policy lead params s,
         prisma.find_policy policyId (policies w) = Some policy ->
         prisma.find_lead (pol_leadId policy) (leads w) = Some lead ->
         PolicyService.status params = Some s ->
         In s ["DECLINED"; "POSTPONED"; "WITHDRAWN"] ->
         let leadId := pol_leadId policy in
         let leadStatus :=
           if String.eqb s "WITHDRAWN" then "LOST" else "NOT_PLACED" in
         let placed :=
           prisma.touch (now w)
                        (AutomationService.set_status leadStatus lead) in
         let w1 :=
           prisma.set_activities
             (mkActivity (pol_agentId policy) leadId "NOTE" None (now w)
                :: activities w) w in
         let b :=
           ScoringService.computeScore placed (prisma.activities_of leadId w1)
                                       (now w) in
         exists w' rest previous current,
           PolicyService.updatePolicy policyId params w = (Ok tt, w')
           /\ trace w'
              = trace w
                ++ EvScoring leadId (lead_score lead)
                             (ScoringService.currentScore b)
                :: EvDispatch
                     (mkContext ACTIVITY_LOGGED (lead_agentId lead)
                                (Some leadId) None)
                :: rest ++ [EvScoring leadId previous current]
           /\ Forall (allowed (fun _ => False)) rest).
Proof.
  split.
  - intros w leadId lead newStatus intent Hl Hne Hch.
    now apply updateLead_run.
  - intros w policyId policy lead params s Hp Hl Hs Hin.
    rewrite (updatePolicy_not_issued policyId params s w policy Hp Hs Hin).
    set (w0 := prisma.set_policies _ w).
    assert (Hp0 : prisma.find_policy policyId (policies w0)
                  = Some (PolicyService.policy_data params policy)).
    { subst w0. cbn [policies prisma.set_policies].
      rewrite find_policy_replace by reflexivity. now rewrite Hp. }
    exact (handlePolicyNotIssued_run policyId s w0 _ lead Hp0 Hl).
Qed.

End WithPlatform.

(** *** Concrete status changes *)

Lemma status_change_recomputes_and_dispatches_witness :
  (exists w' rest,
      @LeadService.updateLead Samples.platform "L1"
         (LeadService.mkLeadParams (Some "CONTACTED") None)
         Samples.dispatch_world = (Ok tt, w')
      /\ trace w'
         = trace Samples.dispatch_world
           ++ EvScoring "L1" 0 55
           :: EvDispatch (mkContext LEAD_STATUS_CHANGED "A1" (Some "L1") None)
           :: rest
      /\ Forall (allowed (fun _ => False)) rest)
  /\ (exists w' rest previous current,
         @PolicyService.updatePolicy Samples.platform "P1"
            (PolicyService.mkPolicyParams None None (Some "DECLINED") None)
            Samples.policy_world = (Ok tt, w')
         /\ trace w'
            = trace Samples.policy_world
              ++ EvScoring "L1" 0 32
              :: EvDispatch (mkContext ACTIVITY_LOGGED "A1" (Some "L1") None)
              :: rest ++ [EvScoring "L1" previous current]
         /\ Forall (allowed (fun _ => False)) rest).
Proof.
  split.
  - exact (proj1 (@status_change_recomputes_and_dispatches Samples.platform)
                 Samples.dispatch_world "L1" (Samples.lead1 "NEW")
                 "CONTACTED" None eq_refl
                 ltac:(discriminate) ltac:(discriminate)).
  - exact (proj2 (@status_change_recomputes_and_dispatches Samples.platform)
                 Samples.policy_world "P1" (Samples.policy1 "APPLIED")
                 (Samples.lead1 "APPLICATION")
                 (PolicyService.mkPolicyParams None None (Some "DECLINED") None)
                 "DECLINED" eq_refl eq_refl eq_refl
                 ltac:(left; reflexivity)).
Defined.

(** C5, as stated, fails. A policy of a lead in status APPLICATION is
    declined: the lead's status becomes NOT_PLACED and the score is
    recomputed, but the only event handed to the dispatcher is
    ACTIVITY_LOGGED: there is no LEAD_STATUS_CHANGED, POLICY_ISSUED or
    POLICY_CREATED event. *)
Lemma declined_policy_emits_no_status_event :
  let w := Samples.policy_world in
  let run :=
    @PolicyService.updatePolicy Samples.platform "P1"
       (PolicyService.mkPolicyParams None None (Some "DECLINED") None) w in
  fst run = Ok tt
  /\ option_map lead_status (prisma.find_lead "L1" (leads w))
     = Some "APPLICATION"
  /\ option_map lead_status (prisma.find_lead "L1" (leads (snd run)))
     = Some "NOT_PLACED"
  /\ scorings "L1" (trace (snd run)) = [(0, 32); (32, 32)]
  /\ dispatched (trace (snd run)) = [ACTIVITY_LOGGED]
  /\ ~ In LEAD_STATUS_CHANGED (dispatched (trace (snd run)))
  /\ ~ In POLICY_ISSUED (dispatched (trace (snd run)))
  /\ ~ In POLICY_CREATED (dispatched (trace (snd run))).
Proof.
  cbv zeta. repeat split; try reflexivity;
    vm_compute; intuition discriminate.
Qed.

(** Other writers of the status do less: a status derived from an activity
    is announced to the dispatcher, but the score was recomputed before the
    status was written and is not recomputed after it. *)
Example derived_status_is_not_rescored :
  let w := Samples.world_of [Samples.lead1 "NEW"] [] [] in
  let w' :=
    snd (@ActivityService.logActivity Samples.platform "A1" "L1"
           "CALL_OUTBOUND" None w) in
  option_map lead_status (prisma.find_lead "L1" (leads w')) = Some "CONTACTED"
  /\ dispatched (trace w') = [ACTIVITY_LOGGED; LEAD_STATUS_CHANGED]
  /\ scorings "L1" (trace w') = [(0, 55)]
  /\ option_map lead_score (prisma.find_lead "L1" (leads w')) = Some 55
  /\ option_map
       (fun l =>
          ScoringService.currentScore
            (ScoringService.computeScore l (prisma.activities_of "L1" w')
                                         (now w')))
       (prisma.find_lead "L1" (leads w'))
     = Some 60.
Proof. repeat split. Qed.

End StatusFacts.

(* ================================================================= *)
(** ** Where the code departs from its own intent *)

Module Defects.
Import Vocabulary.

(** The guards of the calls, of the scheduled meetings, of the proposals
    and of the applications only move a lead forward on the happy path. *)
Lemma guarded_updates_advance (status activityType : string)
      (outcome : option string) (newStatus : string) :
  activityType <> "MEETING_COMPLETED" ->
  ActivityService.derivedStatus status activityType outcome = Some newStatus ->
  exists i j,
    position status pipeline = Some i
    /\ position newStatus pipeline = Some j
    /\ (i < j)%nat.
Proof.
  intros Hty. unfold ActivityService.derivedStatus, includes.
  cbn [existsb].
  destruct (String.eqb_spec activityType "MEETING_COMPLETED");
    [contradiction|].
  repeat match goal with
         | |- context [String.eqb activityType ?k] =>
             destruct (String.eqb activityType k)
         end;
    cbn [orb];
    repeat match goal with
           | |- context [String.eqb status ?k] =>
               destruct (String.eqb_spec status k) as [->|_]
           end;
    cbn [orb]; intros [= <-] || discriminate;
    eexists _, _; (split; [reflexivity|]); (split; [reflexivity|]);
    repeat constructor.
Qed.

Lemma guarded_updates_advance_example :
  exists i j,
    position "NEW" pipeline = Some i
    /\ position "CONTACTED" pipeline = Some j
    /\ (i < j)%nat.
Proof.
  apply (guarded_updates_advance "NEW" "CALL_OUTBOUND" None "CONTACTED").
  - discriminate.
  - reflexivity.
Defined.

(** The two instances of the specification: an outbound call moves a NEW
    lead to CONTACTED and leaves a QUALIFIED lead alone. *)
Lemma outbound_call_instances :
  let run status :=
    snd (@ActivityService.logActivity Samples.platform "A1" "L1"
           "CALL_OUTBOUND" None
           (Samples.world_of [Samples.lead1 status] [] [])) in
  option_map lead_status (prisma.find_lead "L1" (leads (run "NEW")))
  = Some "CONTACTED"
  /\ option_map lead_status (prisma.find_lead "L1" (leads (run "QUALIFIED")))
     = Some "QUALIFIED".
Proof. split; reflexivity. Qed.

(** C4 fails on a completed meeting: the branch has no guard on the
    current status, so a lead that has reached APPLICATION (or PLACED) goes
    back to QUALIFIED when a meeting with a positive outcome is logged. *)
Theorem completed_meeting_regresses_status :
  let run status :=
    snd (@ActivityService.logActivity Samples.platform "A1" "L1"
           "MEETING_COMPLETED" (Some "POSITIVE")
           (Samples.world_of [Samples.lead1 status] [] [])) in
  option_map lead_status (prisma.find_lead "L1" (leads (run "APPLICATION")))
  = Some "QUALIFIED"
  /\ option_map lead_status (prisma.find_lead "L1" (leads (run "PLACED")))
     = Some "QUALIFIED"
  /\ position "APPLICATION" pipeline = Some 5%nat
  /\ position "PLACED" pipeline = Some 7%nat
  /\ position "QUALIFIED" pipeline = Some 3%nat
  /\ forall status,
       ActivityService.derivedStatus status "MEETING_COMPLETED"
                                     (Some "POSITIVE")
       = Some "QUALIFIED".
Proof. repeat split. Qed.

(** C6 fails before issuance outside the QUOTED status: a policy in status
    APPLIED (premium 1200, rate 90%, commission 1080) whose premium is
    changed to 2400 keeps commission 1080, which is not 2400 times 90%; the
    same update on a QUOTED policy recomputes the commission to 2160. *)
Theorem premium_change_keeps_stale_commission :
  let params := PolicyService.mkPolicyParams None (Some 2400%Q) None None in
  let after w :=
    prisma.find_policy "P1"
      (policies (snd (@PolicyService.updatePolicy Samples.platform "P1"
                        params w))) in
  option_map pol_status (prisma.find_policy "P1" (policies Samples.policy_world))
  = Some "APPLIED"
  /\ option_map pol_premium (after Samples.policy_world) = Some 2400%Q
  /\ option_map pol_commissionRate (after Samples.policy_world)
     = Some (90 # 100)
  /\ option_map pol_commissionAmount (after Samples.policy_world)
     = Some 1080%Q
  /\ ~ (1080 == 2400 * (90 # 100))%Q
  /\ option_map pol_commissionAmount (after Samples.quoted_policy_world)
     = Some (2400 * (90 # 100))%Q
  /\ (2400 * (90 # 100) == 2160)%Q.
Proof.
  cbv zeta. repeat split; try reflexivity.
  intros E. vm_compute in E. discriminate.
Qed.

End Defects.

(* ================================================================= *)
(** ** Ranges of the score components *)

Module ScoringBounds.
Import ScoringService ScoringService.SCORING_CONFIG.
Import Vocabulary.

Lemma activity_type_score_range (type : string) :
  2 <= getActivityTypeScore type <= 40.
Proof.
  unfold getActivityTypeScore. repeat rewrite switch_cons.
  repeat match goal with
         | |- context [String.eqb type ?k] =>
             destruct (String.eqb type k); [cbv; split; discriminate|]
         end.
  cbv. split; discriminate.
Qed.

(** The loop of [calculateActivityScore] adds at least 2 per activity and
    at least the points of each activity it visits. *)
Lemma activity_loop_floor (acts : list Activity) (score : Z) :
  score + 2 * Z.of_nat (List.length acts)
  <= fold_left (fun score activity =>
                  score + getActivityTypeScore (act_type activity))
               acts score.
Proof.
  revert score. induction acts as [|a acts IH]; intros score.
  - cbn. lia.
  - cbn [fold_left List.length]. specialize (IH (score + getActivityTypeScore (act_type a))).
    pose proof (activity_type_score_range (act_type a)). lia.
Qed.

Lemma activity_loop_member (acts : list Activity) (a : Activity) (score : Z) :
  In a acts ->
  score + getActivityTypeScore (act_type a)
  <= fold_left (fun score activity =>
                  score + getActivityTypeScore (act_type activity))
               acts score.
Proof.
  revert score. induction acts as [|b acts IH]; intros score Hin;
    [destruct Hin|].
  cbn [fold_left]. destruct Hin as [-> | Hin].
  - pose proof (activity_loop_floor acts
                  (score + getActivityTypeScore (act_type a))). lia.
  - specialize (IH (score + getActivityTypeScore (act_type b)) Hin).
    pose proof (activity_type_score_range (act_type b)). lia.
Qed.

Lemma calculateActivityScore_loop (acts : list Activity) :
  calculateActivityScore acts
  = Z.min 40 (fold_left (fun score activity =>
                           score + getActivityTypeScore (act_type activity))
                        (firstn 10 acts) 0).
Proof. destruct acts; reflexivity. Qed.

Lemma calculateOutcomeScore_loop (acts : list Activity) :
  calculateOutcomeScore acts
  = Z.min 30 (fold_left outcome_step (firstn 5 acts) 0).
Proof. destruct acts; reflexivity. Qed.

(** The activity component looks at the ten most recent activities only,
    lies between 0 and 40, and is at least 2 as soon as the lead has one
    activity, whatever its type. *)
Theorem activity_score_of_ten_latest (acts : list Activity) :
  calculateActivityScore acts = calculateActivityScore (firstn 10 acts)
  /\ 0 <= calculateActivityScore acts <= 40
  /\ (acts <> [] -> 2 <= calculateActivityScore acts).
Proof.
  rewrite !calculateActivityScore_loop, firstn_firstn.
  change (Nat.min 10 10) with 10%nat.
  split; [reflexivity|].
  pose proof (activity_loop_floor (firstn 10 acts) 0) as F.
  assert (L : acts <> [] -> (1 <= List.length (firstn 10 acts))%nat).
  { destruct acts; [contradiction|]. cbn [firstn List.length]. lia. }
  set (x := fold_left _ _ _) in *. set (n := List.length _) in *.
  clearbody x n.
  split; [lia|]. intros Hne. specialize (L Hne). lia.
Qed.

(** One application among the ten most recent activities is enough for the
    full activity component. *)
Theorem application_saturates_activity_score
        (acts : list Activity) (a : Activity) :
  In a (firstn 10 acts) -> act_type a = "APPLICATION_SENT" ->
  calculateActivityScore acts = 40.
Proof.
  intros Hin Hty. rewrite calculateActivityScore_loop.
  pose proof (activity_loop_member _ a 0 Hin) as F.
  rewrite Hty in F.
  change (getActivityTypeScore "APPLICATION_SENT") with 40 in F.
  set (x := fold_left _ _ _) in *. clearbody x. lia.
Qed.

Lemma application_saturates_activity_score_witness :
  calculateActivityScore
    [Samples.note None 300;
     mkActivity "A1" "L1" "APPLICATION_SENT" None 200;
     Samples.note None 100] = 40.
Proof.
  apply (application_saturates_activity_score
           _ (mkActivity "A1" "L1" "APPLICATION_SENT" None 200)).
  - cbn. right. left. reflexivity.
  - reflexivity.
Defined.

Lemma outcome_score_range (outcome : string) :
  -15 <= getOutcomeScore outcome <= 50.
Proof.
  unfold getOutcomeScore. repeat rewrite switch_cons.
  repeat match goal with
         | |- context [String.eqb outcome ?k] =>
             destruct (String.eqb outcome k); [cbv; split; discriminate|]
         end.
  cbv. split; discriminate.
Qed.

Lemma outcome_loop_floor (acts : list Activity) (score : Z) :
  score - 15 * Z.of_nat (List.length acts)
  <= fold_left outcome_step acts score.
Proof.
  revert score. induction acts as [|a acts IH]; intros score.
  - cbn. lia.
  - cbn [fold_left List.length]. specialize (IH (outcome_step score a)).
    assert (score - 15 <= outcome_step score a).
    { unfold outcome_step.
      destruct (act_outcome a) as [o|]; cbn [truthy_string]; [|lia].
      destruct (negb (String.eqb o "")); [|lia].
      pose proof (outcome_score_range o). lia. }
    set (x := fold_left _ _ _) in *. clearbody x. lia.
Qed.

(** The outcome component looks at the five most recent activities only
    and lies between -75 (five refusals) and 30. *)
Theorem outcome_score_of_five_latest (acts : list Activity) :
  calculateOutcomeScore acts = calculateOutcomeScore (firstn 5 acts)
  /\ -75 <= calculateOutcomeScore acts <= 30.
Proof.
  rewrite !calculateOutcomeScore_loop, firstn_firstn.
  change (Nat.min 5 5) with 5%nat.
  pose proof (outcome_loop_floor (firstn 5 acts) 0) as F.
  pose proof (firstn_le_length 5 acts) as L.
  set (x := fold_left _ _ _) in *. set (n := List.length _) in *.
  clearbody x n.
  split; [reflexivity | lia].
Qed.

Lemma position_in_pipeline (status : string) (i : nat) :
  position status pipeline = Some i ->
  In (status, i)
     [("NEW", 0); ("CONTACTED", 1); ("ENGAGED", 2); ("QUALIFIED", 3);
      ("PROPOSAL", 4); ("APPLICATION", 5); ("UNDERWRITING", 6);
      ("PLACED", 7)]%nat.
Proof.
  unfold pipeline. cbn [position].
  repeat match goal with
         | |- context [String.eqb status ?k] =>
             destruct (String.eqb_spec status k) as [->|_];
             [intros [= <-]; cbn; tauto|]
         end.
  discriminate.
Qed.

(** The status component rises strictly along the pipeline from NEW to
    PLACED, and no status off the pipeline scores above NEW. *)
Theorem status_score_rises_along_pipeline :
  (forall s t i j,
      position s pipeline = Some i -> position t pipeline = Some j ->
      (i < j)%nat -> getStatusScore s < getStatusScore t)
  /\ (forall s, position s pipeline = None -> getStatusScore s <= 0).
Proof.
  split.
  - intros s t i j Hs Ht Hlt.
    apply position_in_pipeline in Hs. apply position_in_pipeline in Ht.
    cbn [In] in Hs, Ht.
    repeat match goal with
           | H : _ \/ _ |- _ => destruct H as [H | H]
           | H : False |- _ => destruct H
           end;
      injection Hs as <- <-; injection Ht as <- <-;
      first [reflexivity | lia].
  - intros s. unfold pipeline. cbn [position].
    unfold getStatusScore. repeat rewrite switch_cons.
    repeat match goal with
           | |- context [String.eqb s ?k] =>
               destruct (String.eqb s k); cbn [option_map];
               try discriminate; try (intros _; cbv; discriminate)
           end.
Qed.

Lemma status_score_rises_along_pipeline_witness :
  getStatusScore "QUALIFIED" < getStatusScore "UNDERWRITING".
Proof.
  apply (proj1 status_score_rises_along_pipeline
               "QUALIFIED" "UNDERWRITING" 3%nat 6%nat);
    [reflexivity | reflexivity | lia].
Defined.

End ScoringBounds.

(* ================================================================= *)
(** ** Commission amounts from the rate tables *)

Module CommissionBounds.
Import CommissionService.

Local Open Scope Q_scope.

(** For every product type, listed or not: the renewal rate in force is
    between 0 and the first-year rate in force, which is at most 1. *)
Lemma table_rates (productType : string) :
  let firstYear := or_zero (lookup productType DEFAULT_COMMISSION_RATES) in
  let renewal := or_zero (lookup productType RENEWAL_COMMISSION_RATES) in
  0 <= renewal /\ renewal <= firstYear /\ firstYear <= 1.
Proof.
  unfold DEFAULT_COMMISSION_RATES, RENEWAL_COMMISSION_RATES.
  cbn [lookup].
  repeat match goal with
         | |- context [String.eqb productType ?k] =>
             destruct (String.eqb_spec productType k) as [->|_];
             [cbv; repeat split; discriminate|]
         end.
  cbv; repeat split; discriminate.
Qed.

Lemma or_zero_twice (o : option Q) : or_zero (Some (or_zero o)) == or_zero o.
Proof.
  unfold or_zero at 1. unfold truthy_number.
  destruct (Qeq_bool (or_zero o) 0) eqn:E; cbn [negb]; [|reflexivity].
  apply Qeq_bool_eq in E. now rewrite E.
Qed.

(** The rate that [calculateCommission] applies when the caller gives
    none. *)
Lemma rate_in_force (premium : Q) (productType type : string) :
  commissionRate (calculateCommission premium productType None type)
  == or_zero (lookup productType
                (if String.eqb type "RENEWAL" then RENEWAL_COMMISSION_RATES
                 else DEFAULT_COMMISSION_RATES))
  /\ commissionAmount (calculateCommission premium productType None type)
     == premium
        * commissionRate (calculateCommission premium productType None type).
Proof.
  unfold calculateCommission. cbn [commissionRate commissionAmount].
  destruct (String.eqb type "RENEWAL").
  - split; [apply or_zero_twice | reflexivity].
  - split; reflexivity.
Qed.

(** Without a custom rate the commission of a non-negative premium is never
    negative and never more than the premium, for every product type and
    commission type; a product type that the table in force does not list
    earns nothing instead of failing. *)
Theorem table_commission_within_premium
        (premium : Q) (productType type : string) :
  0 <= premium ->
  let result := calculateCommission premium productType None type in
  0 <= commissionRate result <= 1
  /\ 0 <= commissionAmount result <= premium
  /\ (lookup productType
        (if String.eqb type "RENEWAL" then RENEWAL_COMMISSION_RATES
         else DEFAULT_COMMISSION_RATES) = None ->
      commissionRate result == 0 /\ commissionAmount result == 0).
Proof.
  intros Hp result. subst result.
  destruct (rate_in_force premium productType type) as [Hr Ha].
  destruct (table_rates productType) as (R0 & R1 & R2). cbv zeta in *.
  assert (B : 0 <= commissionRate
                     (calculateCommission premium productType None type)
              <= 1).
  { rewrite Hr. destruct (String.eqb type "RENEWAL").
    - split; [exact R0 | now apply Qle_trans with (2 := R2)].
    - split; [now apply Qle_trans with (1 := R0) | exact R2]. }
  split; [exact B|]. split; [|].
  - rewrite Ha. split.
    + apply Qmult_le_0_compat; [exact Hp | apply B].
    + apply Qle_trans with (premium * 1).
      * apply Qmult_le_compat_nonneg; [split; [exact Hp | apply Qle_refl]|].
        exact B.
      * rewrite Qmult_1_r. apply Qle_refl.
  - intros Hnone. rewrite Ha, Hr, Hnone. cbn [or_zero].
    split; [reflexivity | apply Qmult_0_r].
Qed.

Lemma table_commission_within_premium_witness :
  let result := calculateCommission 1200 "TERM_LIFE" None "FIRST_YEAR" in
  0 <= commissionRate result <= 1
  /\ 0 <= commissionAmount result <= 1200
  /\ (lookup "TERM_LIFE" DEFAULT_COMMISSION_RATES = None ->
      commissionRate result == 0 /\ commissionAmount result == 0).
Proof.
  apply (table_commission_within_premium 1200 "TERM_LIFE" "FIRST_YEAR").
  discriminate.
Defined.

(** For the same premium and product type a renewal commission is never
    more than the first-year commission. *)
Theorem renewal_commission_at_most_first_year
        (premium : Q) (productType : string) :
  0 <= premium ->
  commissionAmount (calculateCommission premium productType None "RENEWAL")
  <= commissionAmount
       (calculateCommission premium productType None "FIRST_YEAR").
Proof.
  intros Hp.
  destruct (rate_in_force premium productType "RENEWAL") as [Hr Ha].
  destruct (rate_in_force premium productType "FIRST_YEAR") as [Hr' Ha'].
  destruct (table_rates productType) as (R0 & R1 & R2). cbv zeta in *.
  rewrite Ha, Ha', Hr, Hr'. cbn [String.eqb Ascii.eqb Bool.eqb].
  apply Qmult_le_compat_nonneg.
  - split; [exact Hp | apply Qle_refl].
  - split; [exact R0 | exact R1].
Qed.

Lemma renewal_commission_at_most_first_year_witness :
  commissionAmount (calculateCommission 1200 "WHOLE_LIFE" None "RENEWAL")
  <= commissionAmount (calculateCommission 1200 "WHOLE_LIFE" None "FIRST_YEAR").
Proof.
  apply (renewal_commission_at_most_first_year 1200 "WHOLE_LIFE").
  discriminate.
Defined.

End CommissionBounds.

(* ================================================================= *)
(** ** Score bands and the hot list *)

Module ScoreReports.
Import ScoringService Vocabulary.

Lemma count_cons {A : Type} (test : A -> bool) (row : A) (rows : list A) :
  count test (row :: rows)
  = (if test row then 1 else 0) + count test rows.
Proof.
  unfold count. cbn [filter]. destruct (test row); cbn [List.length]; lia.
Qed.

(** The counting loop, from any starting record. *)
Lemma count_loop (ls : list Lead) (d : ScoreDistribution) :
  let d' := fold_left count_lead ls d in
  hot d' = hot d + count (fun l => 70 <=? lead_score l) ls
  /\ warm d'
     = warm d
       + count (fun l => (40 <=? lead_score l) && (lead_score l <? 70)) ls
  /\ cold d'
     = cold d
       + count (fun l => (10 <=? lead_score l) && (lead_score l <? 40)) ls
  /\ inactive d' = inactive d + count (fun l => lead_score l <? 10) ls
  /\ ScoringService.total d' = ScoringService.total d.
Proof.
  revert d. induction ls as [|l ls IH]; intros d; cbv zeta.
  - unfold count. cbn. repeat split; lia.
  - cbn [fold_left]. rewrite !count_cons.
    destruct (IH (count_lead d l)) as (Hh & Hw & Hc & Hi & Ht).
    rewrite Hh, Hw, Hc, Hi, Ht. unfold count_lead.
    destruct (Z.leb_spec 70 (lead_score l)), (Z.leb_spec 40 (lead_score l)),
      (Z.leb_spec 10 (lead_score l)), (Z.ltb_spec (lead_score l) 70),
      (Z.ltb_spec (lead_score l) 40), (Z.ltb_spec (lead_score l) 10);
      cbn [hot warm cold inactive ScoringService.total andb];
      repeat split; lia.
Qed.

(** [getScoreDistribution] puts every lead of the agent in exactly one
    band: 70 and above, 40 to 69, 10 to 39, below 10 (a negative score
    included); the four counts add up to the number of the agent's leads,
    and the store is left as it was. *)
Theorem score_bands_partition_leads (agentId : string) (w : World) :
  let mine := filter (fun l => String.eqb (lead_agentId l) agentId) (leads w) in
  exists d,
    getScoreDistribution agentId w = (Ok d, w)
    /\ hot d = count (fun l => 70 <=? lead_score l) mine
    /\ warm d
       = count (fun l => (40 <=? lead_score l) && (lead_score l <? 70)) mine
    /\ cold d
       = count (fun l => (10 <=? lead_score l) && (lead_score l <? 40)) mine
    /\ inactive d = count (fun l => lead_score l <? 10) mine
    /\ ScoringService.total d = Z.of_nat (List.length mine)
    /\ hot d + warm d + cold d + inactive d = ScoringService.total d.
Proof.
  intros mine. eexists. split; [reflexivity|].
  destruct (count_loop mine
              (mkDistribution 0 0 0 0 (Z.of_nat (List.length mine))))
    as (Hh & Hw & Hc & Hi & Ht).
  cbv zeta in *. cbn [hot warm cold inactive ScoringService.total] in *.
  fold mine. rewrite Hh, Hw, Hc, Hi, Ht.
  repeat (split; [lia|]).
  clear. induction mine as [|l ls IH]; [reflexivity|].
  rewrite !count_cons. cbn [List.length].
  destruct (Z.leb_spec 70 (lead_score l)), (Z.leb_spec 40 (lead_score l)),
    (Z.leb_spec 10 (lead_score l)), (Z.ltb_spec (lead_score l) 70),
    (Z.ltb_spec (lead_score l) 40), (Z.ltb_spec (lead_score l) 10);
    cbn [andb]; lia.
Qed.

(** *** Ordering by score *)

Lemma insert_by_score_In (l x : Lead) (sorted : list Lead) :
  In x (prisma.insert_by_score l sorted) <-> x = l \/ In x sorted.
Proof.
  induction sorted as [|m rest IH]; cbn [prisma.insert_by_score In].
  - intuition.
  - destruct (lead_score m <=? lead_score l); cbn [In]; [intuition|].
    rewrite IH. intuition.
Qed.

Lemma order_by_score_In (x : Lead) (ls : list Lead) :
  In x (prisma.order_by_score_desc ls) <-> In x ls.
Proof.
  unfold prisma.order_by_score_desc.
  induction ls as [|l ls IH]; cbn [fold_right In]; [tauto|].
  rewrite insert_by_score_In, IH. intuition.
Qed.

Lemma insert_by_score_length (l : Lead) (sorted : list Lead) :
  List.length (prisma.insert_by_score l sorted) = S (List.length sorted).
Proof.
  induction sorted as [|m rest IH]; cbn [prisma.insert_by_score]; [reflexivity|].
  destruct (lead_score m <=? lead_score l); cbn [List.length]; [reflexivity|].
  now rewrite IH.
Qed.

Lemma order_by_score_length (ls : list Lead) :
  List.length (prisma.order_by_score_desc ls) = List.length ls.
Proof.
  unfold prisma.order_by_score_desc.
  induction ls as [|l ls IH]; cbn [fold_right List.length]; [reflexivity|].
  now rewrite insert_by_score_length, IH.
Qed.

Lemma insert_by_score_descending (l : Lead) (sorted : list Lead) :
  descending (map lead_score sorted) ->
  descending (map lead_score (prisma.insert_by_score l sorted)).
Proof.
  induction sorted as [|m rest IH]; cbn [prisma.insert_by_score map descending].
  - intros _. split; [constructor | exact I].
  - intros [Hm Hrest].
    destruct (Z.leb_spec (lead_score m) (lead_score l)) as [Hle|Hgt];
      cbn [map descending].
    + split; [|split; assumption].
      constructor; [exact Hle|].
      eapply Forall_impl; [|exact Hm]. cbv beta. intros z Hz. lia.
    + split; [|now apply IH].
      apply Forall_forall. intros z Hz.
      apply in_map_iff in Hz as (x & <- & Hx).
      apply insert_by_score_In in Hx as [-> | Hx]; [lia|].
      rewrite Forall_forall in Hm. apply Hm. now apply in_map.
Qed.

Lemma order_by_score_descending (ls : list Lead) :
  descending (map lead_score (prisma.order_by_score_desc ls)).
Proof.
  unfold prisma.order_by_score_desc.
  induction ls as [|l ls IH]; cbn [fold_right]; [exact I|].
  now apply insert_by_score_descending.
Qed.

Lemma filter_length_le {A : Type} (f g : A -> bool) (rows : list A) :
  (forall x, f x = true -> g x = true) ->
  (List.length (filter f rows) <= List.length (filter g rows))%nat.
Proof.
  intros Hfg. induction rows as [|x rows IH]; [reflexivity|].
  cbn [filter]. destruct (f x) eqn:F.
  - rewrite (Hfg x F). cbn [List.length]. lia.
  - destruct (g x); cbn [List.length]; lia.
Qed.

Lemma filter_twice {A : Type} (f g : A -> bool) (rows : list A) :
  filter f (filter g rows) = filter (fun x => g x && f x) rows.
Proof.
  induction rows as [|x rows IH]; [reflexivity|].
  cbn [filter]. destruct (g x); cbn [filter andb]; [|exact IH].
  destruct (f x); now rewrite IH.
Qed.

(** The hot list holds exactly the agent's leads at or above the threshold
    that are not PLACED, NOT_INTERESTED or LOST, each as often as it is
    stored, by decreasing score; at the default threshold of 70 it is never
    longer than the hot band of the score distribution, which also counts
    the closed leads. *)
Theorem hot_list_is_open_and_sorted
        (agentId : string) (minScore : Z) (w : World) :
  exists ls,
    LeadService.getHotLeads agentId minScore w = (Ok ls, w)
    /\ (forall l,
           In l ls
           <-> In l (leads w)
               /\ lead_agentId l = agentId
               /\ minScore <= lead_score l
               /\ ~ In (lead_status l) ["PLACED"; "NOT_INTERESTED"; "LOST"])
    /\ descending (map lead_score ls)
    /\ (minScore = 70 ->
        exists d,
          getScoreDistribution agentId w = (Ok d, w)
          /\ Z.of_nat (List.length ls) <= hot d).
Proof.
  eexists. split; [reflexivity|]. split; [|split].
  - intros l. rewrite order_by_score_In, filter_In.
    rewrite !andb_true_iff, negb_true_iff, String.eqb_eq, Z.leb_le.
    unfold includes. rewrite <- not_true_iff_false, existsb_exists.
    split.
    + intros (Hin & (Ha & Hs) & Hn). repeat split; try assumption.
      intros Hc. apply Hn. exists (lead_status l).
      split; [exact Hc | apply String.eqb_refl].
    + intros (Hin & Ha & Hs & Hn). repeat split; try assumption.
      intros (x & Hx & E). apply String.eqb_eq in E. subst x. now apply Hn.
  - apply order_by_score_descending.
  - intros ->. eexists. split; [reflexivity|].
    destruct (count_loop
                (filter (fun l => String.eqb (lead_agentId l) agentId)
                        (leads w))
                (mkDistribution 0 0 0 0
                   (Z.of_nat
                      (List.length
                         (filter (fun l => String.eqb (lead_agentId l) agentId)
                                 (leads w))))))
      as (Hh & _).
    cbv zeta in Hh. cbn [hot] in Hh.
    rewrite Hh, order_by_score_length. unfold count.
    rewrite filter_twice. apply inj_le. apply filter_length_le.
    intros l Hl. apply andb_true_iff in Hl as [Hl _].
    apply andb_true_iff in Hl as [Ha Hs]. now rewrite Ha, Hs.
Qed.

End ScoreReports.

(* ================================================================= *)
(** ** The commission ledger *)

Module Ledger.
Import CommissionService Vocabulary.

(** *** Renewal commissions *)

Lemma renewal_rate_of_product (productType : string) :
  (In productType
      ["WHOLE_LIFE"; "UNIVERSAL_LIFE"; "FINAL_EXPENSE"; "IUL"; "HEALTH_ACA";
       "MEDICARE_SUPPLEMENT"; "ANNUITY"] ->
   exists rate,
     lookup productType RENEWAL_COMMISSION_RATES = Some rate
     /\ truthy_number rate = true /\ (0 < rate)%Q)
  /\ (~ In productType
          ["WHOLE_LIFE"; "UNIVERSAL_LIFE"; "FINAL_EXPENSE"; "IUL";
           "HEALTH_ACA"; "MEDICARE_SUPPLEMENT"; "ANNUITY"] ->
      match lookup productType RENEWAL_COMMISSION_RATES with
      | Some rate => truthy_number rate = false
      | None => True
      end).
Proof.
  split.
  - cbn [In]. intros Hin.
    repeat match goal with
           | H : _ \/ _ |- _ => destruct H as [H | H]
           | H : False |- _ => destruct H
           end; subst productType; eexists; repeat split.
  - intros Hn. unfold RENEWAL_COMMISSION_RATES. cbn [lookup].
    repeat match goal with
           | |- context [String.eqb productType ?k] =>
               destruct (String.eqb_spec productType k) as [->|_];
               [first [reflexivity | exfalso; apply Hn; cbn; tauto]|]
           end.
    exact I.
Qed.

(** [createRenewalCommission] never fails. For an ISSUED policy of a
    product that renews (whole life, universal life, final expense, IUL, ACA
    health, Medicare supplement, annuity) every call appends one PENDING
    RENEWAL commission of the premium times the renewal rate and changes
    nothing else; for a policy that is not stored or not ISSUED, or whose
    product has no renewal rate or the rate 0, the store is left as it
    was. *)
Theorem renewal_commission_rules (policyId : string) (w : World) :
  (forall p,
      prisma.find_policy policyId (policies w) = Some p ->
      pol_status p = "ISSUED" ->
      In (pol_productType p)
         ["WHOLE_LIFE"; "UNIVERSAL_LIFE"; "FINAL_EXPENSE"; "IUL";
          "HEALTH_ACA"; "MEDICARE_SUPPLEMENT"; "ANNUITY"] ->
      exists rate,
        lookup (pol_productType p) RENEWAL_COMMISSION_RATES = Some rate
        /\ (0 < rate)%Q
        /\ createRenewalCommission policyId w
           = (Ok tt,
              prisma.set_commissions
                (commissions w
                 ++ [mkCommission policyId (pol_agentId p)
                                  (pol_premium p * rate) "RENEWAL" "PENDING"])
                w))
  /\ ((forall p,
          prisma.find_policy policyId (policies w) = Some p ->
          pol_status p <> "ISSUED"
          \/ ~ In (pol_productType p)
                  ["WHOLE_LIFE"; "UNIVERSAL_LIFE"; "FINAL_EXPENSE"; "IUL";
                   "HEALTH_ACA"; "MEDICARE_SUPPLEMENT"; "ANNUITY"]) ->
      createRenewalCommission policyId w = (Ok tt, w)).
Proof.
  split.
  - intros p Hf Hs Hin.
    destruct (proj1 (renewal_rate_of_product (pol_productType p)) Hin)
      as (rate & Hl & Ht & Hpos).
    exists rate. split; [exact Hl|]. split; [exact Hpos|].
    unfold createRenewalCommission, prisma.policy_findUnique, bind, gets.
    rewrite Hf, Hs. cbn [String.eqb Ascii.eqb Bool.eqb negb].
    rewrite Hl, Ht. cbn [negb].
    unfold calculateCommission. cbn [String.eqb Ascii.eqb Bool.eqb].
    rewrite Hl. cbn [commissionAmount or_zero]. rewrite Ht.
    cbn [or_zero]. rewrite Ht. reflexivity.
  - intros Hno.
    unfold createRenewalCommission, prisma.policy_findUnique, bind, gets.
    destruct (prisma.find_policy policyId (policies w)) as [p|] eqn:Hf;
      [|reflexivity].
    destruct (String.eqb_spec (pol_status p) "ISSUED") as [Hs|Hs];
      [|reflexivity].
    cbn [negb]. destruct (Hno p eq_refl) as [Hc|Hn]; [contradiction|].
    pose proof (proj2 (renewal_rate_of_product (pol_productType p)) Hn) as R.
    destruct (lookup (pol_productType p) RENEWAL_COMMISSION_RATES);
      [|reflexivity].
    now rewrite R.
Qed.

Lemma renewal_commission_rules_witness :
  exists rate,
    lookup "WHOLE_LIFE" RENEWAL_COMMISSION_RATES = Some rate
    /\ (0 < rate)%Q
    /\ createRenewalCommission "P2" Samples.ledger_world
       = (Ok tt,
          prisma.set_commissions
            (commissions Samples.ledger_world
             ++ [mkCommission "P2" "A1" (2000 * rate) "RENEWAL" "PENDING"])
            Samples.ledger_world).
Proof.
  exact (proj1 (renewal_commission_rules "P2" Samples.ledger_world)
               Samples.whole_life_policy eq_refl eq_refl
               ltac:(cbn; tauto)).
Defined.

(** *** Payments and clawbacks *)

Local Open Scope Q_scope.

Lemma find_index_first {A : Type} (test : A -> bool) (pre : list A) (c : A)
      (post : list A) :
  (forall x, In x pre -> test x = false) -> test c = true ->
  prisma.find_index test (pre ++ c :: post) = Some (List.length pre).
Proof.
  intros Hpre Hc. induction pre as [|x pre IH]; cbn [app prisma.find_index].
  - now rewrite Hc.
  - rewrite (Hpre x (or_introl eq_refl)), IH; [reflexivity|].
    intros y Hy. apply Hpre. now right.
Qed.

Lemma find_index_none {A : Type} (test : A -> bool) (rows : list A) :
  (forall x, In x rows -> test x = false) ->
  prisma.find_index test rows = None.
Proof.
  intros Hno. induction rows as [|x rows IH]; [reflexivity|].
  cbn [prisma.find_index]. rewrite (Hno x (or_introl eq_refl)), IH;
    [reflexivity|].
  intros y Hy. apply Hno. now right.
Qed.

Lemma update_at_middle {A : Type} (f : A -> A) (pre : list A) (c : A)
      (post : list A) :
  prisma.update_at (List.length pre) f (pre ++ c :: post) = pre ++ f c :: post.
Proof.
  induction pre as [|x pre IH]; [reflexivity|].
  cbn [app List.length prisma.update_at]. now rewrite IH.
Qed.

Lemma nth_error_middle {A : Type} (pre : list A) (c : A) (post : list A) :
  nth_error (pre ++ c :: post) (List.length pre) = Some c.
Proof. induction pre as [|x pre IH]; [reflexivity | exact IH]. Qed.

Lemma selected_middle agentId status pre c post :
  selected agentId status (pre ++ c :: post)
  = selected agentId status pre ++ share agentId status c
    ++ selected agentId status post.
Proof.
  unfold selected, share. rewrite filter_app. cbn [filter].
  now destruct (String.eqb (com_agentId c) agentId
                && String.eqb (com_status c) status).
Qed.

Lemma summary_run agentId w :
  getCommissionSummary agentId w
  = (Ok (mkSummary
           (Z.of_nat (List.length (selected agentId "PENDING" (commissions w))))
           (Z.of_nat (List.length (selected agentId "PAID" (commissions w))))),
     w).
Proof. reflexivity. Qed.

Lemma commission_update_run id data w pre c post :
  commissions w = pre ++ c :: post -> id = List.length pre ->
  prisma.commission_update id data w
  = (Ok tt, prisma.set_commissions (pre ++ data c :: post) w).
Proof.
  intros Hc ->. unfold prisma.commission_update, bind, gets.
  rewrite Hc, nth_error_middle. unfold modify.
  now rewrite Hc, update_at_middle.
Qed.

(** What a change of status of one row does to the counts of an agent. *)
Lemma summary_after_status_change (w : World) pre c post
      (status agentId : string) :
  commissions w = pre ++ c :: post ->
  let w' :=
    prisma.set_commissions
      (pre ++ set_commission_status status c :: post) w in
  let one (b : bool) : Z := if b then 1%Z else 0%Z in
  let mine := String.eqb (com_agentId c) agentId in
  exists s s',
    getCommissionSummary agentId w = (Ok s, w)
    /\ getCommissionSummary agentId w' = (Ok s', w')
    /\ (pendingCount s' + one (mine && String.eqb (com_status c) "PENDING")
        = pendingCount s + one (mine && String.eqb status "PENDING"))%Z
    /\ (paidCount s' + one (mine && String.eqb (com_status c) "PAID")
        = paidCount s + one (mine && String.eqb status "PAID"))%Z.
Proof.
  intros Hc w' one mine. eexists _, _.
  split; [apply summary_run|]. split; [apply summary_run|].
  subst w'. cbn [commissions prisma.set_commissions pendingCount paidCount].
  rewrite Hc, !selected_middle. unfold share.
  cbn [com_agentId com_status set_commission_status]. fold mine.
  rewrite !length_app. subst one. cbv beta.
  split.
  - destruct (mine && String.eqb (com_status c) "PENDING"),
      (mine && String.eqb status "PENDING"); cbn [List.length]; lia.
  - destruct (mine && String.eqb (com_status c) "PAID"),
      (mine && String.eqb status "PAID"); cbn [List.length]; lia.
Qed.

(** Paying the commission of a policy marks the first PENDING commission
    of that policy as PAID and touches no other row: in the counts of the
    row's agent one commission moves from pending to paid, and the counts of
    every other agent stay as they were. When the policy has no PENDING
    commission the call fails and changes nothing. *)
Theorem paying_moves_pending_to_paid (policyId : string) (w : World) :
  ((forall c, In c (commissions w) ->
              com_policyId c = policyId -> com_status c <> "PENDING") ->
   markPolicyCommissionAsPaid policyId w
   = (Throw (String.append "No pending commission found for policy: "
                       policyId), w))
  /\ (forall pre c post,
         commissions w = pre ++ c :: post ->
         (forall x, In x pre ->
                    com_policyId x = policyId -> com_status x <> "PENDING") ->
         com_policyId c = policyId -> com_status c = "PENDING" ->
         let w' :=
           prisma.set_commissions
             (pre ++ set_commission_status "PAID" c :: post) w in
         markPolicyCommissionAsPaid policyId w = (Ok tt, w')
         /\ (exists s s',
                getCommissionSummary (com_agentId c) w = (Ok s, w)
                /\ getCommissionSummary (com_agentId c) w' = (Ok s', w')
                /\ pendingCount s' = (pendingCount s - 1)%Z
                /\ paidCount s' = (paidCount s + 1)%Z)
         /\ (forall agentId,
                agentId <> com_agentId c ->
                exists s,
                  getCommissionSummary agentId w = (Ok s, w)
                  /\ getCommissionSummary agentId w' = (Ok s, w'))).
Proof.
  assert (T : forall rows,
             (forall x, In x rows ->
                        com_policyId x = policyId -> com_status x <> "PENDING") ->
             forall x, In x rows ->
                       String.eqb (com_policyId x) policyId
                       && String.eqb (com_status x) "PENDING" = false).
  { intros rows Hno x Hx.
    destruct (String.eqb_spec (com_policyId x) policyId) as [E|]; [|reflexivity].
    destruct (String.eqb_spec (com_status x) "PENDING") as [E'|]; [|reflexivity].
    now destruct (Hno x Hx E). }
  split.
  - intros Hno.
    unfold markPolicyCommissionAsPaid, prisma.commission_findFirst, bind, gets.
    now rewrite (find_index_none _ _ (T _ Hno)).
  - intros pre c post Hc Hpre Hp Hs w'. split; [|split].
    + unfold markPolicyCommissionAsPaid, prisma.commission_findFirst.
      unfold bind at 1. unfold gets at 1. rewrite Hc.
      rewrite (find_index_first _ pre c post (T _ Hpre))
        by (rewrite Hp, Hs, String.eqb_refl; reflexivity).
      unfold markAsPaid. now apply commission_update_run.
    + destruct (summary_after_status_change w pre c post "PAID"
                  (com_agentId c) Hc)
        as (s & s' & E & E' & Hpending & Hpaid).
      exists s, s'. split; [exact E|]. split; [exact E'|].
      rewrite Hs, String.eqb_refl in Hpending, Hpaid.
      cbn [andb String.eqb Ascii.eqb Bool.eqb] in Hpending, Hpaid.
      split; lia.
    + intros agentId Hother.
      destruct (summary_after_status_change w pre c post "PAID" agentId Hc)
        as (s & s' & E & E' & Hpending & Hpaid).
      destruct (String.eqb_spec (com_agentId c) agentId) as [Heq|_];
        [now destruct Hother|].
      cbn [andb] in Hpending, Hpaid.
      exists s. split; [exact E|]. subst w'. rewrite E'. f_equal. f_equal.
      destruct s, s'. cbn [pendingCount paidCount] in *. f_equal; lia.
Qed.

Lemma paying_moves_pending_to_paid_witness :
  let w' :=
    prisma.set_commissions
      ([mkCommission "P1" "A1" 1080 "FIRST_YEAR" "PAID";
        mkCommission "P9" "A2" 300 "FIRST_YEAR" "PENDING"]
       ++ mkCommission "P2" "A1" 1100 "FIRST_YEAR" "PAID" :: [])
      Samples.ledger_world in
  markPolicyCommissionAsPaid "P2" Samples.ledger_world = (Ok tt, w')
  /\ (exists s s',
         getCommissionSummary "A1" Samples.ledger_world
         = (Ok s, Samples.ledger_world)
         /\ getCommissionSummary "A1" w' = (Ok s', w')
         /\ pendingCount s' = (pendingCount s - 1)%Z
         /\ paidCount s' = (paidCount s + 1)%Z)
  /\ (forall agentId,
         agentId <> "A1" ->
         exists s,
           getCommissionSummary agentId Samples.ledger_world
           = (Ok s, Samples.ledger_world)
           /\ getCommissionSummary agentId w' = (Ok s, w')).
Proof.
  refine (proj2 (paying_moves_pending_to_paid "P2" Samples.ledger_world)
                [mkCommission "P1" "A1" 1080 "FIRST_YEAR" "PAID";
                 mkCommission "P9" "A2" 300 "FIRST_YEAR" "PENDING"]
                (mkCommission "P2" "A1" 1100 "FIRST_YEAR" "PENDING") []
                eq_refl _ eq_refl eq_refl).
  cbn. intros x [<- | [<- | []]]; cbn; discriminate.
Defined.



End Ledger.

(* ================================================================= *)
(** ** Relations that computations keep *)

Module Invariants.
Import Vocabulary.

Section Relation.
Variable R : World -> World -> Prop.
Hypothesis R_refl : forall w, R w w.
Hypothesis R_trans : forall w1 w2 w3, R w1 w2 -> R w2 w3 -> R w1 w3.

Lemma respects_ret {A} (a : A) : respects R (ret a).
Proof. intros w. apply R_refl. Qed.

Lemma respects_throw {A} e : respects R (@throw A e).
Proof. intros w. apply R_refl. Qed.

Lemma respects_gets {A} (f : World -> A) : respects R (gets f).
Proof. intros w. apply R_refl. Qed.

Lemma respects_bind {A B} (m : M A) (k : A -> M B) :
  respects R m -> (forall a, respects R (k a)) -> respects R (bind m k).
Proof.
  intros Hm Hk w. unfold bind. pose proof (Hm w) as Rm.
  destruct (m w) as [[a|e] w1]; cbn [snd] in *; [|exact Rm].
  apply R_trans with w1; [exact Rm | apply Hk].
Qed.

Lemma respects_try_catch {A} (m : M A) (h : string -> M A) :
  respects R m -> (forall e, respects R (h e)) -> respects R (try_catch m h).
Proof.
  intros Hm Hh w. unfold try_catch. pose proof (Hm w) as Rm.
  destruct (m w) as [[a|e] w1]; cbn [snd] in *; [exact Rm|].
  apply R_trans with w1; [exact Rm | apply Hh].
Qed.

Lemma respects_when (b : bool) (m : M unit) :
  respects R m -> respects R (when b m).
Proof. destruct b; cbn [when]; [auto | intros _; apply respects_ret]. Qed.

Lemma respects_for_each {A} (xs : list A) (body : A -> M unit) :
  (forall x, respects R (body x)) -> respects R (for_each xs body).
Proof.
  intros Hb. induction xs as [|x xs IH]; cbn [for_each].
  - apply respects_ret.
  - apply respects_bind; [apply Hb | intros _; exact IH].
Qed.

End Relation.

(** *** The quiet relation *)

Lemma scorings_app (leadId : string) (t1 t2 : list Event) :
  scorings leadId (t1 ++ t2) = scorings leadId t1 ++ scorings leadId t2.
Proof.
  induction t1 as [|e t1 IH]; [reflexivity|].
  destruct e; cbn [app scorings]; try exact IH.
  destruct (String.eqb leadId0 leadId); cbn [app]; now rewrite IH.
Qed.

Lemma dispatched_app (t1 t2 : list Event) :
  dispatched (t1 ++ t2) = dispatched t1 ++ dispatched t2.
Proof.
  induction t1 as [|e t1 IH]; [reflexivity|].
  destruct e; cbn [app dispatched]; now rewrite ?IH.
Qed.

Lemma dispatched_none (t : list Event) :
  Forall (allowed (fun _ => False)) t -> dispatched t = [].
Proof.
  induction 1 as [|e t He _ IH]; [reflexivity|].
  destruct e; cbn [dispatched allowed] in *; [exact IH | contradiction | exact IH | exact IH].
Qed.

Lemma quiet_refl w : quiet w w.
Proof.
  constructor; try reflexivity.
  exists []. now rewrite app_nil_r.
Qed.

Lemma quiet_trans w1 w2 w3 : quiet w1 w2 -> quiet w2 w3 -> quiet w1 w3.
Proof.
  intros [A1 L1 (t1 & T1 & S1)] [A2 L2 (t2 & T2 & S2)].
  constructor; try congruence.
  exists (t1 ++ t2). split.
  - now rewrite T2, T1, app_assoc.
  - intros id. now rewrite scorings_app, S1, S2.
Qed.

Lemma quiet_ret {A} (a : A) : respects quiet (ret a).
Proof. apply respects_ret, quiet_refl. Qed.

Lemma quiet_throw {A} e : respects quiet (@throw A e).
Proof. apply respects_throw, quiet_refl. Qed.

Lemma quiet_gets {A} (f : World -> A) : respects quiet (gets f).
Proof. apply respects_gets, quiet_refl. Qed.

Lemma quiet_bind {A B} (m : M A) (k : A -> M B) :
  respects quiet m -> (forall a, respects quiet (k a)) ->
  respects quiet (bind m k).
Proof. apply respects_bind, quiet_trans. Qed.

Lemma quiet_try_catch {A} (m : M A) (h : string -> M A) :
  respects quiet m -> (forall e, respects quiet (h e)) ->
  respects quiet (try_catch m h).
Proof. apply respects_try_catch, quiet_trans. Qed.

Lemma quiet_when (b : bool) (m : M unit) :
  respects quiet m -> respects quiet (when b m).
Proof. apply respects_when, quiet_refl. Qed.

Lemma quiet_for_each {A} (xs : list A) (body : A -> M unit) :
  (forall x, respects quiet (body x)) -> respects quiet (for_each xs body).
Proof. apply respects_for_each; [apply quiet_refl | apply quiet_trans]. Qed.

Lemma quiet_emit (e : Event) :
  (forall leadId, scorings leadId [e] = []) -> respects quiet (emit e).
Proof.
  intros He w. constructor; try reflexivity.
  exists [e]. split; [reflexivity | exact He].
Qed.

Lemma quiet_lead_update id (data : Lead -> Lead) :
  (forall l, lead_core (data l) = lead_core l) ->
  respects quiet (prisma.lead_update id data).
Proof.
  intros Hd w. unfold prisma.lead_update, prisma.lead_findUnique, bind, gets.
  destruct (prisma.find_lead id (leads w)); [|apply quiet_refl].
  cbn [modify snd]. constructor; try reflexivity.
  - cbn [leads prisma.set_leads]. unfold prisma.replace_lead.
    rewrite map_map. apply map_ext. intros x.
    destruct (String.eqb (lead_id x) id); [|reflexivity].
    rewrite <- (Hd x). reflexivity.
  - exists []. cbn [trace prisma.set_leads]. now rewrite app_nil_r.
Qed.

Lemma quiet_campaign_update id data :
  respects quiet (prisma.campaign_update id data).
Proof.
  intros w.
  unfold prisma.campaign_update, prisma.campaign_findUnique, bind, gets.
  destruct (prisma.find_campaign id (campaigns w)); [|apply quiet_refl].
  cbn [modify snd]. constructor; try reflexivity.
  exists []. cbn [trace prisma.set_campaigns]. now rewrite app_nil_r.
Qed.

Lemma quiet_update_status id status :
  respects quiet (AutomationService.update_status_from_action id status).
Proof.
  unfold AutomationService.update_status_from_action.
  destruct status as [| |[]]; try apply quiet_throw.
  - now apply quiet_lead_update.
  - destruct (includes AutomationService.LeadStatus s);
      [now apply quiet_lead_update | apply quiet_throw].
Qed.

Lemma quiet_executeAction action context :
  respects quiet (AutomationService.executeAction action context).
Proof.
  unfold AutomationService.executeAction.
  destruct (get_property action "type") eqn:E; [apply quiet_throw| |];
    repeat match goal with
           | |- context [if ?b then _ else _] => destruct b
           end;
    try apply quiet_ret;
    (destruct (ctx_leadId context);
     [apply quiet_update_status | apply quiet_ret]).
Qed.

Section WithPlatform.
Context `{Platform}.

Lemma quiet_evaluate campaignId context :
  respects quiet
    (AutomationService.evaluateCampaignTrigger campaignId context).
Proof.
  unfold AutomationService.evaluateCampaignTrigger.
  apply quiet_bind; [apply quiet_gets|].
  intros [c|]; [|apply quiet_ret].
  apply quiet_try_catch.
  - destruct (JSON_parse (camp_triggerCondition c)) as [v|];
      [|apply quiet_throw].
    destruct (get_property v "trigger"); [apply quiet_throw| |];
      match goal with
      | |- context [if ?b then _ else _] => destruct b
      end; apply quiet_ret.
  - intros e. apply quiet_bind; [|intros _; apply quiet_ret].
    now apply quiet_emit.
Qed.

Lemma quiet_executeCampaign campaignId context :
  respects quiet (AutomationService.executeCampaign campaignId context).
Proof.
  unfold AutomationService.executeCampaign.
  apply quiet_bind; [apply quiet_gets|].
  intros [c|]; [|apply quiet_ret].
  apply quiet_try_catch.
  - destruct (JSON_parse (camp_actions c)) as [v|]; [|apply quiet_throw].
    destruct (iterate v) as [items|]; [|apply quiet_throw].
    apply quiet_bind.
    + apply quiet_for_each. intros a.
      apply quiet_bind; [now apply quiet_emit|].
      intros _. apply quiet_executeAction.
    + intros _. apply quiet_bind; [apply quiet_gets|].
      intros t. apply quiet_campaign_update.
  - intros e. now apply quiet_emit.
Qed.

Lemma quiet_checkCampaigns context :
  respects quiet (AutomationService.checkCampaigns context).
Proof.
  unfold AutomationService.checkCampaigns.
  apply quiet_bind; [now apply quiet_emit|]. intros _.
  apply quiet_bind; [apply quiet_gets|]. intros cs.
  apply quiet_for_each. intros c.
  apply quiet_bind; [apply quiet_evaluate|]. intros b.
  apply quiet_when, quiet_executeCampaign.
Qed.

End WithPlatform.
End Invariants.

(* ================================================================= *)
(** ** What a dispatch reaches *)

Module DispatcherReach.
Import Vocabulary FrameRules AutomationService DispatcherFacts ServiceFacts.
Import Invariants.

Lemma same_key_same_row (cs : list Campaign) (c c' : Campaign) :
  NoDup (map camp_id cs) -> In c cs -> In c' cs -> camp_id c = camp_id c' ->
  c = c'.
Proof.
  intros Hnd Hc Hc' E.
  pose proof (find_campaign_unique cs c Hnd Hc) as F.
  pose proof (find_campaign_unique cs c' Hnd Hc') as F'.
  rewrite E in F. congruence.
Qed.

Section WithPlatform.
Context `{Platform}.

(** A dispatch is a leaf of the event flow: whatever the campaigns do, it
    returns normally, hands no further event to the dispatcher, recomputes
    and logs no score, creates no activity, touches no policy and no
    commission, and leaves key, agent, intent level and score of every lead
    as they were. A status that a campaign action writes is therefore
    neither announced nor re-scored. *)
Theorem dispatch_is_a_leaf (context : TriggerContext) (w : World) :
  exists w' t,
    checkCampaigns context w = (Ok tt, w')
    /\ trace w' = trace w ++ t
    /\ dispatched t = [ctx_trigger context]
    /\ (forall leadId, scorings leadId t = [])
    /\ activities w' = activities w
    /\ policies w' = policies w
    /\ commissions w' = commissions w
    /\ map lead_core (leads w') = map lead_core (leads w).
Proof.
  destruct (checkCampaigns_trace context w) as (w' & rest & E & T & A & F).
  pose proof (quiet_checkCampaigns context w) as Q.
  rewrite E in Q. cbn [snd] in Q.
  destruct Q as [QA QL (t & QT & QS)].
  exists w', (EvDispatch context :: rest).
  split; [exact E|]. split; [exact T|]. split; [|split].
  - cbn [dispatched]. now rewrite (dispatched_none rest A).
  - rewrite T in QT. apply app_inv_head in QT. rewrite QT. exact QS.
  - repeat split; try assumption.
    + apply (fr_policies _ _ _ _ F).
    + apply (fr_commissions _ _ _ _ F).
Qed.

(** A dispatch leaves alone the campaigns that are switched off and the
    campaigns of other agents: such a campaign keeps its row, with its run
    counter, no action is run for it and no failure is logged for it. *)
Theorem dispatch_skips_inactive_and_foreign
        (context : TriggerContext) (w : World) (c : Campaign) :
  distinct (map camp_id (campaigns w)) = true ->
  In c (campaigns w) ->
  camp_active c = false \/ camp_agentId c <> ctx_agentId context ->
  exists w',
    checkCampaigns context w = (Ok tt, w')
    /\ campaign_outcome (camp_id c) c [] 0 w w'.
Proof.
  intros Hd Hin Hout. apply distinct_NoDup in Hd.
  rewrite checkCampaigns_unfold. cbn [emit modify snd].
  set (w1 := mkWorld _ _ _ _ _ _ _).
  set (chosen := filter _ (campaigns w)).
  destruct (loop_frame (fun _ => True) context chosen w1) as (w2 & E2 & F2).
  exists w2. split; [exact E2|].
  assert (Hs : ~ In (camp_id c) (map camp_id chosen)).
  { intros Hc. apply in_map_iff in Hc as (c' & Eid & Hc').
    subst chosen. apply filter_In in Hc' as [Hc' Hsel].
    assert (c' = c) by (eapply same_key_same_row; eauto). subst c'.
    apply andb_true_iff in Hsel as [Ha Hact].
    apply String.eqb_eq in Ha. destruct Hout; congruence. }
  split.
  - rewrite (fr_others _ _ _ _ F2 _ Hs). subst w1. cbn [campaigns].
    now apply find_campaign_unique.
  - destruct (fr_trace _ _ _ _ F2) as (t2 & T2 & _ & A2).
    destruct (A2 _ Hs) as [A2a A2e].
    exists ([EvDispatch context] ++ t2). subst w1. cbn [trace] in T2.
    split; [|split].
    + now rewrite T2, <- app_assoc.
    + exact A2a.
    + exact A2e.
Qed.

(** How a stored trigger condition is read. A [trigger] that is a string
    other than the empty one selects the events of exactly that kind; a
    [trigger] that is falsy ([null], the empty string, [0], [false]) selects
    every event; a [trigger] that is truthy and not a string selects none.
    In every case the evaluation changes nothing. *)
Theorem trigger_condition_table
        (campaignId : string) (context : TriggerContext) (w : World)
        (c : Campaign) (v : JSON) :
  prisma.find_campaign campaignId (campaigns w) = Some c ->
  JSON_parse (camp_triggerCondition c) = Some v ->
  (forall kind,
      get_property v "trigger" = Value (JStr (trigger_value kind)) ->
      (kind = ctx_trigger context ->
       evaluateCampaignTrigger campaignId context w = (Ok true, w))
      /\ (kind <> ctx_trigger context ->
          evaluateCampaignTrigger campaignId context w = (Ok false, w)))
  /\ (forall s,
         get_property v "trigger" = Value (JStr s) -> s <> "" ->
         evaluateCampaignTrigger campaignId context w
         = (Ok (String.eqb s (trigger_value (ctx_trigger context))), w))
  /\ (forall x,
         get_property v "trigger" = Value x -> truthy x = false ->
         evaluateCampaignTrigger campaignId context w = (Ok true, w))
  /\ (forall x,
         get_property v "trigger" = Value x -> truthy x = true ->
         (forall s, x <> JStr s) ->
         evaluateCampaignTrigger campaignId context w = (Ok false, w)).
Proof.
  intros Hf Hv.
  assert (R : forall x,
             get_property v "trigger" = Value x ->
             evaluateCampaignTrigger campaignId context w
             = (Ok (negb (truthy x
                          && negb (strict_eq_string
                                     (Value x)
                                     (trigger_value (ctx_trigger context))))),
                w)).
  { intros x Hx.
    unfold evaluateCampaignTrigger, prisma.campaign_findUnique, bind, gets,
      try_catch.
    rewrite Hf, Hv, Hx. cbn [truthy_access].
    now destruct (truthy x && _). }
  assert (S : forall s,
             get_property v "trigger" = Value (JStr s) -> s <> "" ->
             evaluateCampaignTrigger campaignId context w
             = (Ok (String.eqb s (trigger_value (ctx_trigger context))), w)).
  { intros s Hs Hne. rewrite (R _ Hs). cbn [truthy strict_eq_string].
    destruct (String.eqb_spec s "") as [|_]; [contradiction|].
    cbn [negb andb]. now rewrite negb_involutive. }
  split; [|split; [exact S|split]].
  - intros kind Hk.
    assert (Hne : trigger_value kind <> "") by (destruct kind; discriminate).
    rewrite (S _ Hk Hne). split.
    + intros ->. now rewrite String.eqb_refl.
    + intros Hd.
      destruct (String.eqb_spec (trigger_value kind)
                                (trigger_value (ctx_trigger context)))
        as [E|]; [|reflexivity].
      exfalso. apply Hd.
      destruct kind, (ctx_trigger context); try reflexivity; discriminate.
  - intros x Hx Ht. rewrite (R _ Hx), Ht. reflexivity.
  - intros x Hx Ht Hns. rewrite (R _ Hx), Ht.
    destruct x; try reflexivity. now destruct (Hns s).
Qed.

End WithPlatform.

Lemma dispatch_skips_inactive_and_foreign_witness :
  exists w',
    @checkCampaigns Samples.platform
       (mkContext SCORE_CHANGED "A2" (Some "L1") None) Samples.dispatch_world
    = (Ok tt, w')
    /\ campaign_outcome "C3" Samples.sound_campaign [] 0
                        Samples.dispatch_world w'.
Proof.
  refine (@dispatch_skips_inactive_and_foreign Samples.platform
            (mkContext SCORE_CHANGED "A2" (Some "L1") None)
            Samples.dispatch_world Samples.sound_campaign eq_refl _ _).
  - cbn. tauto.
  - right. discriminate.
Defined.

Lemma trigger_condition_table_witness :
  @evaluateCampaignTrigger Samples.platform "C3"
     Samples.activity_logged_context Samples.dispatch_world
  = (Ok false, Samples.dispatch_world).
Proof.
  refine (proj2 (proj1 (@trigger_condition_table Samples.platform "C3"
                          Samples.activity_logged_context
                          Samples.dispatch_world Samples.sound_campaign
                          (JObj [("trigger", JStr "score.changed")])
                          eq_refl eq_refl)
                       SCORE_CHANGED eq_refl) _).
  discriminate.
Defined.

End DispatcherReach.

(* ================================================================= *)
(** ** Manual runs and the on/off switch of a campaign *)

Module CampaignControl.
Import Vocabulary FrameRules AutomationService DispatcherFacts.

Lemma iter_bump_static (t : Z) (n : nat) (c : Campaign) :
  camp_static (Nat.iter n (bump_run t) c) = camp_static c
  /\ camp_runCount (Nat.iter n (bump_run t) c) = camp_runCount c + Z.of_nat n.
Proof.
  induction n as [|n [IHs IHc]]; [split; [reflexivity | cbn; lia]|].
  rewrite Nat.iter_succ. split.
  - rewrite <- IHs. reflexivity.
  - cbn [bump_run camp_runCount]. rewrite IHc. lia.
Qed.

Lemma known_by_key (l : Lead) (w : World) (agentId : string) :
  In (lead_id l) (map lead_id (leads w)) ->
  lead_known (mkContext CUSTOM agentId (Some (lead_id l)) None) w = true.
Proof.
  intros Hin. unfold lead_known. cbn [ctx_leadId].
  destruct (prisma.find_lead (lead_id l) (leads w)) eqn:E; [reflexivity|].
  apply find_lead_none in E. contradiction.
Qed.

Section WithPlatform.
Context `{Platform}.

(** One execution of a campaign whose actions all run. *)
Lemma executeCampaign_runs campaignId context w c a items :
  prisma.find_campaign campaignId (campaigns w) = Some c ->
  JSON_parse (camp_actions c) = Some a -> iterate a = Some items ->
  forallb action_runs items = true -> lead_known context w = true ->
  exists w',
    executeCampaign campaignId context w = (Ok tt, w')
    /\ prisma.find_campaign campaignId (campaigns w')
       = Some (bump_run (now w) c)
    /\ now w' = now w
    /\ map lead_id (leads w') = map lead_id (leads w)
    /\ exists t,
         trace w' = trace w ++ t
         /\ actions_run campaignId t = items
         /\ errors_logged campaignId t = 0%nat.
Proof.
  intros Hf Hp Hi Hall Hl.
  destruct (run_actions_ok campaignId context items w Hall Hl)
    as (w1 & E1 & N1 & _ & C1 & t1 & T1 & A1 & R1).
  pose proof (preserves_executeCampaign (fun _ => True) (fun _ => True)
                campaignId context I w) as F.
  assert (E : executeCampaign campaignId context w
              = (Ok tt,
                 prisma.set_campaigns
                   (prisma.replace_campaign campaignId (bump_run (now w1))
                                            (campaigns w1)) w1)).
  { unfold executeCampaign, prisma.campaign_findUnique, try_catch.
    unfold bind at 1. unfold gets at 1. rewrite Hf, Hp, Hi.
    unfold bind at 1. rewrite E1.
    unfold bind at 1. unfold gets at 1.
    unfold prisma.campaign_update, prisma.campaign_findUnique, bind, gets.
    rewrite C1, Hf. reflexivity. }
  rewrite E in *. cbn [snd] in F.
  eexists. split; [reflexivity|]. split; [|split; [|split]].
  - cbn [campaigns prisma.set_campaigns].
    rewrite find_campaign_replace_same by reflexivity.
    now rewrite C1, Hf, N1.
  - exact (fr_now _ _ _ _ F).
  - exact (fr_leads _ _ _ _ F).
  - exists t1. cbn [trace prisma.set_campaigns]. now repeat split.
Qed.

(** The loop of [runCampaign] over the leads it has read. *)
Lemma manual_loop campaignId agentId a items (ls : list Lead) :
  iterate a = Some items -> forallb action_runs items = true ->
  forall w c,
    prisma.find_campaign campaignId (campaigns w) = Some c ->
    JSON_parse (camp_actions c) = Some a ->
    (forall l, In l ls -> In (lead_id l) (map lead_id (leads w))) ->
    exists w',
      for_each ls
        (fun lead =>
           executeCampaign campaignId
             (mkContext CUSTOM agentId (Some (lead_id lead)) None)) w
      = (Ok tt, w')
      /\ prisma.find_campaign campaignId (campaigns w')
         = Some (Nat.iter (List.length ls) (bump_run (now w)) c)
      /\ exists t,
           trace w' = trace w ++ t
           /\ actions_run campaignId t
              = List.concat (repeat items (List.length ls))
           /\ errors_logged campaignId t = 0%nat.
Proof.
  intros Hi Hall. induction ls as [|l ls IH]; intros w c Hf Hp Hk.
  - exists w. split; [reflexivity|]. split; [exact Hf|].
    exists []. now rewrite app_nil_r.
  - cbn [for_each]. unfold bind at 1.
    destruct (executeCampaign_runs campaignId
                (mkContext CUSTOM agentId (Some (lead_id l)) None)
                w c a items Hf Hp Hi Hall)
      as (w1 & E1 & F1 & N1 & L1 & t1 & T1 & A1 & R1).
    { apply known_by_key, Hk. now left. }
    rewrite E1.
    destruct (IH w1 (bump_run (now w) c) F1 Hp) as (w2 & E2 & F2 & t2 & T2 & A2 & R2).
    { intros x Hx. rewrite L1. apply Hk. now right. }
    exists w2. split; [exact E2|]. split.
    + rewrite F2, N1. cbn [List.length].
      now rewrite Nat.iter_succ_r.
    + exists (t1 ++ t2). split; [|split].
      * now rewrite T2, T1, app_assoc.
      * rewrite actions_run_app, A1, A2. reflexivity.
      * rewrite errors_logged_app, R1, R2. reflexivity.
Qed.

(** A manual run executes the campaign once for every lead of the
    campaign's agent: when the stored actions are a list of actions that do
    not fail, they are run once per lead, in order, the run counter grows by
    the number of these leads and no failure is logged. Neither the
    [active] flag nor the trigger condition of the campaign is consulted.
    A manual run of a campaign that is not stored fails and changes
    nothing. *)
Theorem manual_run_counts_every_lead
        (w : World) (c : Campaign) (a : JSON) (items : list JSON) :
  prisma.find_campaign (camp_id c) (campaigns w) = Some c ->
  JSON_parse (camp_actions c) = Some a -> iterate a = Some items ->
  forallb action_runs items = true ->
  let n :=
    List.length
      (filter (fun l => String.eqb (lead_agentId l) (camp_agentId c))
              (leads w)) in
  exists w' t row,
    runCampaign (camp_id c) w = (Ok tt, w')
    /\ prisma.find_campaign (camp_id c) (campaigns w') = Some row
    /\ camp_runCount row = camp_runCount c + Z.of_nat n
    /\ camp_static row = camp_static c
    /\ trace w' = trace w ++ t
    /\ actions_run (camp_id c) t = List.concat (repeat items n)
    /\ errors_logged (camp_id c) t = 0%nat.
Proof.
  intros Hf Hp Hi Hall n.
  unfold runCampaign, prisma.campaign_findUnique.
  unfold bind at 1. unfold gets at 1. rewrite Hf.
  unfold bind at 1. unfold gets at 1.
  destruct (manual_loop (camp_id c) (camp_agentId c) a items
              (filter (fun l => String.eqb (lead_agentId l) (camp_agentId c))
                      (leads w))
              Hi Hall w c Hf Hp)
    as (w' & E & F & t & T & A & R).
  { intros l Hl. apply filter_In in Hl as [Hl _]. now apply in_map. }
  fold n in F, A.
  destruct (iter_bump_static (now w) n c) as [Is Ic].
  exists w', t, (Nat.iter n (bump_run (now w)) c).
  repeat split; assumption.
Qed.

End WithPlatform.

Lemma manual_run_counts_every_lead_witness :
  exists w' t row,
    @runCampaign Samples.platform "C7" Samples.switched_off_world
    = (Ok tt, w')
    /\ prisma.find_campaign "C7" (campaigns w') = Some row
    /\ camp_runCount row = 0 + Z.of_nat 2
    /\ camp_static row = camp_static Samples.switched_off_campaign
    /\ trace w' = trace Samples.switched_off_world ++ t
    /\ actions_run "C7" t
       = List.concat (repeat [Samples.send_email; Samples.create_task] 2)
    /\ errors_logged "C7" t = 0%nat.
Proof.
  exact (@manual_run_counts_every_lead Samples.platform
           Samples.switched_off_world Samples.switched_off_campaign
           (JArr [Samples.send_email; Samples.create_task])
           [Samples.send_email; Samples.create_task]
           eq_refl eq_refl eq_refl eq_refl).
Defined.

(** *** The switch *)

Lemma replace_campaign_twice id (f g : Campaign -> Campaign) cs :
  (forall c, camp_id (f c) = camp_id c) ->
  prisma.replace_campaign id g (prisma.replace_campaign id f cs)
  = prisma.replace_campaign id (fun c => g (f c)) cs.
Proof.
  intros Hf. unfold prisma.replace_campaign. rewrite map_map.
  apply map_ext. intros c.
  destruct (String.eqb (camp_id c) id) eqn:E; [|now rewrite E].
  now rewrite Hf, E.
Qed.

Lemma set_active_back (c : Campaign) :
  set_active (negb (negb (camp_active c)))
             (set_active (negb (camp_active c)) c) = c.
Proof. destruct c as [i a b tc ac rc lr]. cbn. now rewrite negb_involutive. Qed.

(** Toggling a stored campaign flips its [active] flag and nothing else,
    and toggling it again restores the store; toggling a campaign that is
    not stored fails and changes nothing. *)
Theorem toggling_twice_restores (w : World) (c : Campaign) :
  distinct (map camp_id (campaigns w)) = true -> In c (campaigns w) ->
  exists w1,
    toggleCampaign (camp_id c) w = (Ok tt, w1)
    /\ prisma.find_campaign (camp_id c) (campaigns w1)
       = Some (set_active (negb (camp_active c)) c)
    /\ (forall id, id <> camp_id c ->
                   prisma.find_campaign id (campaigns w1)
                   = prisma.find_campaign id (campaigns w))
    /\ toggleCampaign (camp_id c) w1 = (Ok tt, w)
    /\ (forall id, prisma.find_campaign id (campaigns w) = None ->
                   toggleCampaign id w
                   = (Throw (String.append "Campaign not found: " id), w)).
Proof.
  intros Hd Hin. apply distinct_NoDup in Hd.
  pose proof (find_campaign_unique _ c Hd Hin) as Hf.
  set (flip := set_active (negb (camp_active c))).
  set (w1 := prisma.set_campaigns
               (prisma.replace_campaign (camp_id c) flip (campaigns w)) w).
  assert (E1 : toggleCampaign (camp_id c) w = (Ok tt, w1)).
  { unfold toggleCampaign, prisma.campaign_update, prisma.campaign_findUnique,
      bind, gets.
    now rewrite Hf, Hf. }
  assert (F1 : prisma.find_campaign (camp_id c) (campaigns w1) = Some (flip c)).
  { subst w1. cbn [campaigns prisma.set_campaigns].
    rewrite find_campaign_replace_same by reflexivity. now rewrite Hf. }
  exists w1. split; [exact E1|]. split; [exact F1|]. split; [|split].
  - intros id Hne. subst w1. cbn [campaigns prisma.set_campaigns].
    now apply find_campaign_replace_other.
  - unfold toggleCampaign, prisma.campaign_update, prisma.campaign_findUnique,
      bind, gets.
    rewrite F1, F1. unfold modify. f_equal.
    subst w1. cbn [campaigns prisma.set_campaigns].
    rewrite replace_campaign_twice by reflexivity.
    unfold prisma.set_campaigns. cbn.
    assert (Hid : prisma.replace_campaign (camp_id c)
                    (fun x => set_active (negb (negb (camp_active c))) (flip x))
                    (campaigns w) = campaigns w).
    { unfold prisma.replace_campaign.
      rewrite <- (map_id (campaigns w)) at 2.
      apply map_ext_in. intros x Hx.
      destruct (String.eqb_spec (camp_id x) (camp_id c)) as [Eid|]; [|reflexivity].
      assert (x = c) by (eapply DispatcherReach.same_key_same_row; eauto).
      subst x. apply set_active_back. }
    rewrite Hid. now destruct w.
  - intros id Hn.
    unfold toggleCampaign, prisma.campaign_findUnique, bind, gets.
    now rewrite Hn.
Qed.

Lemma toggling_twice_restores_witness :
  exists w1,
    toggleCampaign "C7" Samples.switched_off_world = (Ok tt, w1)
    /\ prisma.find_campaign "C7" (campaigns w1)
       = Some (set_active (negb false) Samples.switched_off_campaign)
    /\ (forall id, id <> "C7" ->
                   prisma.find_campaign id (campaigns w1)
                   = prisma.find_campaign id
                       (campaigns Samples.switched_off_world))
    /\ toggleCampaign "C7" w1 = (Ok tt, Samples.switched_off_world)
    /\ (forall id,
           prisma.find_campaign id (campaigns Samples.switched_off_world)
           = None ->
           toggleCampaign id Samples.switched_off_world
           = (Throw (String.append "Campaign not found: " id),
              Samples.switched_off_world)).
Proof.
  refine (toggling_twice_restores Samples.switched_off_world
            Samples.switched_off_campaign eq_refl _).
  cbn. tauto.
Defined.

End CampaignControl.

(* ================================================================= *)
(** ** Edits that dispatch nothing *)

Module QuietEdits.
Import Vocabulary FrameRules ServiceFacts PolicyFacts.
Import ScoringService.

Lemma replace_lead_twice id (f g : Lead -> Lead) ls :
  (forall l, lead_id (f l) = lead_id l) ->
  prisma.replace_lead id g (prisma.replace_lead id f ls)
  = prisma.replace_lead id (fun l => g (f l)) ls.
Proof.
  intros Hf. unfold prisma.replace_lead. rewrite map_map.
  apply map_ext. intros l.
  destruct (String.eqb (lead_id l) id) eqn:E; [|now rewrite E].
  now rewrite Hf, E.
Qed.

(** With at least one activity the score depends on the lead through its
    intent level and its status only. *)
Lemma currentScore_of_status_and_intent (l l' : Lead) (acts : list Activity)
      (today : Z) :
  acts <> [] ->
  lead_status l' = lead_status l -> lead_intentLevel l' = lead_intentLevel l ->
  currentScore (computeScore l' acts today)
  = currentScore (computeScore l acts today).
Proof.
  intros Hne Hs Hi. destruct acts as [|a acts]; [contradiction|].
  unfold computeScore. cbn [currentScore]. rewrite Hs, Hi. reflexivity.
Qed.

(** Re-scoring a lead that has at least one activity a second time, at the
    same or a later instant and with nothing else changed, never raises the
    score: the second [updateLeadScore] starts from the score the first one
    stored and can only subtract more time decay. As long as the whole days
    since the latest activity of the lead stay under the same decay step, it
    finds the same score, reports a change of 0, and changes only the update
    stamp of the lead's row. *)
Theorem rescoring_is_stable_between_decay_steps
        (leadId : string) (w : World) (lead : Lead)
        (latest : Activity) (earlier : list Activity) (later : Z) :
  prisma.find_lead leadId (leads w) = Some lead ->
  prisma.activities_of leadId w = latest :: earlier ->
  now w <= later ->
  let days t := (t - act_timestamp latest) / MS_PER_DAY in
  exists b1 w1 b2 w2,
    updateLeadScore leadId w = (Ok b1, w1)
    /\ updateLeadScore leadId (at_time later w1) = (Ok b2, w2)
    /\ previousScore b2 = currentScore b1
    /\ currentScore b2 <= currentScore b1
    /\ (decayForDays (days later) = decayForDays (days (now w)) ->
        currentScore b2 = currentScore b1
        /\ change b2 = 0
        /\ leads w2
           = prisma.replace_lead leadId (prisma.touch later) (leads w1)).
Proof.
  intros Hf Hacts Hlater days.
  pose proof (updateLeadScore_run leadId w lead Hf) as E1. cbv zeta in E1.
  rewrite Hacts in E1.
  set (b1 := computeScore lead (latest :: earlier) (now w)) in *.
  set (l1 := prisma.touch (now w) (set_score (currentScore b1) lead)).
  set (w1 := at_time later (scored leadId b1 w)).
  assert (Hf1 : prisma.find_lead leadId (leads w1) = Some l1).
  { subst w1. unfold at_time, scored. cbn [leads].
    rewrite find_lead_replace by reflexivity. now rewrite Hf. }
  pose proof (updateLeadScore_run leadId w1 l1 Hf1) as E2. cbv zeta in E2.
  change (prisma.activities_of leadId w1)
    with (prisma.activities_of leadId w) in E2.
  change (now w1) with later in E2. rewrite Hacts in E2.
  set (b2 := computeScore l1 (latest :: earlier) later) in *.
  assert (Hdays : days (now w) <= days later).
  { subst days. cbv beta. apply Z.div_le_mono; [reflexivity | lia]. }
  assert (Hdecay : decayForDays (days (now w)) <= decayForDays (days later)).
  { rewrite !ScoringFacts.decayForDays_thresholds.
    destruct (Z.leb_spec 90 (days (now w))), (Z.leb_spec 60 (days (now w))),
      (Z.leb_spec 30 (days (now w))), (Z.leb_spec 90 (days later)),
      (Z.leb_spec 60 (days later)), (Z.leb_spec 30 (days later)); lia. }
  assert (C1 : currentScore b1
               = Z.max 0 (Z.min SCORING_CONFIG.MAX_SCORE
                            (SCORING_CONFIG.BASE_SCORE
                             + getIntentScore (lead_intentLevel lead)
                             + getStatusScore (lead_status lead)
                             + calculateActivityScore (latest :: earlier)
                             + calculateOutcomeScore (latest :: earlier)
                             - decayForDays (days (now w)))))
    by reflexivity.
  assert (C2 : currentScore b2
               = Z.max 0 (Z.min SCORING_CONFIG.MAX_SCORE
                            (SCORING_CONFIG.BASE_SCORE
                             + getIntentScore (lead_intentLevel lead)
                             + getStatusScore (lead_status lead)
                             + calculateActivityScore (latest :: earlier)
                             + calculateOutcomeScore (latest :: earlier)
                             - decayForDays (days later))))
    by reflexivity.
  exists b1, (scored leadId b1 w), b2, (scored leadId b2 w1).
  split; [exact E1|]. split; [exact E2|]. split; [reflexivity|].
  split; [rewrite C1, C2; lia|].
  intros Hsame.
  assert (C : currentScore b2 = currentScore b1).
  { rewrite C1, C2, Hsame. reflexivity. }
  split; [exact C|]. split.
  - change (change b2) with (currentScore b2 - currentScore b1). lia.
  - subst w1. unfold scored, at_time. cbn [leads now].
    rewrite !replace_lead_twice by reflexivity. rewrite C.
    unfold prisma.replace_lead. apply map_ext. intros l.
    destruct (String.eqb (lead_id l) leadId); reflexivity.
Qed.

Lemma rescoring_is_stable_between_decay_steps_witness :
  exists b1 w1 b2 w2,
    updateLeadScore "L1" Samples.scored_world = (Ok b1, w1)
    /\ updateLeadScore "L1" (at_time 2000 w1) = (Ok b2, w2)
    /\ previousScore b2 = currentScore b1
    /\ currentScore b2 <= currentScore b1
    /\ (decayForDays ((2000 - 900) / MS_PER_DAY)
        = decayForDays ((1000 - 900) / MS_PER_DAY) ->
        currentScore b2 = currentScore b1
        /\ change b2 = 0
        /\ leads w2 = prisma.replace_lead "L1" (prisma.touch 2000) (leads w1)).
Proof.
  apply (rescoring_is_stable_between_decay_steps "L1" Samples.scored_world
           (Samples.lead1 "CONTACTED")
           (mkActivity "A1" "L1" "CALL_OUTBOUND" (Some "LEFT_MESSAGE") 900) []
           2000 eq_refl eq_refl).
  cbn. lia.
Defined.

Section WithPlatform.
Context `{Platform}.

(** An edit of a lead that does not change the status hands nothing to the
    dispatcher and touches no campaign. It re-scores the lead, once and from
    the edited row, when it names a status or an intent level (so a change
    of the intent level alone is re-scored and not announced), and only
    stores the edited row otherwise. *)
Theorem edit_without_status_change_is_silent
        (leadId : string) (params : LeadService.UpdateLeadParams)
        (w : World) (lead : Lead) :
  prisma.find_lead leadId (leads w) = Some lead ->
  LeadService.status params = None
  \/ LeadService.status params = Some (lead_status lead) ->
  let edited := prisma.touch (now w) (LeadService.lead_data params lead) in
  let b := computeScore edited (prisma.activities_of leadId w) (now w) in
  exists w',
    LeadService.updateLead leadId params w = (Ok tt, w')
    /\ campaigns w' = campaigns w
    /\ activities w' = activities w
    /\ (truthy_string (LeadService.status params)
        || truthy_string (LeadService.intentLevel params) = true ->
        trace w' = trace w ++ [EvScoring leadId (lead_score lead) (currentScore b)]
        /\ prisma.find_lead leadId (leads w')
           = Some (prisma.touch (now w) (set_score (currentScore b) edited)))
    /\ (truthy_string (LeadService.status params)
        || truthy_string (LeadService.intentLevel params) = false ->
        trace w' = trace w
        /\ prisma.find_lead leadId (leads w') = Some edited).
Proof.
  intros Hl Hsame edited b.
  unfold LeadService.updateLead, prisma.lead_findUnique.
  unfold bind at 1. unfold gets at 1. rewrite Hl.
  unfold bind at 1. rewrite (lead_update_run leadId _ w lead Hl).
  set (w1 := prisma.set_leads _ w).
  assert (Hl1 : prisma.find_lead leadId (leads w1) = Some edited).
  { subst w1. cbn [leads prisma.set_leads].
    now apply find_lead_after_update. }
  assert (Tail : forall w2,
             (match LeadService.status params with
              | Some newStatus =>
                  when (truthy_string (LeadService.status params)
                        && negb (String.eqb newStatus (lead_status lead)))
                    (AutomationService.handleLeadStatusChanged
                       leadId (lead_status lead) newStatus)
              | None => ret tt
              end) w2 = (Ok tt, w2)).
  { intros w2. destruct Hsame as [-> | ->]; [reflexivity|].
    now rewrite String.eqb_refl, andb_false_r. }
  destruct (truthy_string (LeadService.status params)
            || truthy_string (LeadService.intentLevel params)).
  - unfold bind at 1. unfold bind at 1.
    rewrite (updateLeadScore_run leadId w1 edited Hl1). cbn [ret].
    rewrite Tail. eexists. split; [reflexivity|].
    split; [reflexivity|]. split; [reflexivity|]. split; [|discriminate].
    intros _. split; [reflexivity|].
    unfold scored. cbn [leads].
    rewrite find_lead_replace by reflexivity. now rewrite Hl1.
  - unfold bind at 1. cbn [ret]. rewrite Tail.
    eexists. split; [reflexivity|].
    split; [reflexivity|]. split; [reflexivity|]. split; [discriminate|].
    intros _. split; [reflexivity | exact Hl1].
Qed.

(** A change of the premium of a QUOTED policy, made without naming a
    status, recomputes the commission from the new premium and the
    first-year rate of the product type as it is after the update. A new
    premium of 0 is not taken as a change: the premium is stored and the
    commission columns keep their old values. Leads, commissions and
    campaigns are not touched and nothing is dispatched. *)
Theorem quoted_premium_change_recomputes
        (policyId : string) (params : PolicyService.UpdatePolicyParams)
        (w : World) (policy : Policy) (newPremium : Q) :
  prisma.find_policy policyId (policies w) = Some policy ->
  pol_status policy = "QUOTED" ->
  PolicyService.status params = None ->
  PolicyService.premium params = Some newPremium ->
  let updated := PolicyService.policy_data params policy in
  let rate :=
    or_zero (CommissionService.lookup
               (pol_productType updated)
               CommissionService.DEFAULT_COMMISSION_RATES) in
  exists w' row,
    PolicyService.updatePolicy policyId params w = (Ok tt, w')
    /\ prisma.find_policy policyId (policies w') = Some row
    /\ pol_premium row = newPremium
    /\ (~ (newPremium == 0)%Q ->
        row = CommissionService.set_commission (newPremium * rate)%Q rate
                                               updated)
    /\ ((newPremium == 0)%Q -> row = updated)
    /\ leads w' = leads w
    /\ commissions w' = commissions w
    /\ campaigns w' = campaigns w
    /\ trace w' = trace w.
Proof.
  intros Hp Hq Hs Hpr updated rate.
  assert (Hprem : pol_premium updated = newPremium).
  { subst updated. unfold PolicyService.policy_data. cbn [pol_premium].
    now rewrite Hpr. }
  unfold PolicyService.updatePolicy, prisma.policy_findUnique.
  unfold bind at 1. unfold gets at 1. rewrite Hp.
  unfold bind at 1. erewrite policy_update_run by exact Hp.
  set (w1 := prisma.set_policies _ w).
  assert (F1 : prisma.find_policy policyId (policies w1) = Some updated).
  { subst w1. cbn [policies prisma.set_policies].
    rewrite find_policy_replace by reflexivity. now rewrite Hp. }
  rewrite Hpr, Hs, Hq. cbn [truthy_string negb andb].
  rewrite String.eqb_refl, andb_true_r, andb_true_r.
  unfold truthy_number.
  destruct (Qeq_bool newPremium 0) eqn:Z0; cbn [negb when].
  - apply Qeq_bool_eq in Z0.
    exists w1, updated. cbn. split; [reflexivity|].
    split; [exact F1|]. split; [exact Hprem|].
    split; [intros Hn; now destruct Hn|].
    repeat split.
  - apply Qeq_bool_neq in Z0.
    unfold bind at 1. cbv zeta.
    erewrite policy_update_run by exact F1.
    set (w2 := prisma.set_policies _ w1).
    exists w2, (CommissionService.set_commission (newPremium * rate)%Q rate
                                                 updated).
    split; [reflexivity|]. split.
    + subst w2. cbn [policies prisma.set_policies].
      rewrite find_policy_replace by reflexivity. rewrite F1. reflexivity.
    + split; [exact Hprem|]. split; [intros _; reflexivity|].
      split; [intros Hz; now destruct Z0|]. repeat split.
Qed.

End WithPlatform.

Lemma edit_without_status_change_is_silent_witness :
  let w := Samples.dispatch_world in
  let edited :=
    prisma.touch 1000
      (LeadService.lead_data (LeadService.mkLeadParams None (Some "WARM"))
                             (Samples.lead1 "NEW")) in
  let b := computeScore edited (prisma.activities_of "L1" w) 1000 in
  exists w',
    @LeadService.updateIntentLevel Samples.platform "L1" "WARM" w = (Ok tt, w')
    /\ campaigns w' = campaigns w
    /\ activities w' = activities w
    /\ (false || true = true ->
        trace w' = trace w ++ [EvScoring "L1" 0 (currentScore b)]
        /\ prisma.find_lead "L1" (leads w')
           = Some (prisma.touch 1000 (set_score (currentScore b) edited)))
    /\ (false || true = false ->
        trace w' = trace w
        /\ prisma.find_lead "L1" (leads w') = Some edited).
Proof.
  exact (@edit_without_status_change_is_silent Samples.platform "L1"
           (LeadService.mkLeadParams None (Some "WARM"))
           Samples.dispatch_world (Samples.lead1 "NEW") eq_refl
           (or_introl eq_refl)).
Defined.

Lemma quoted_premium_change_recomputes_witness :
  let params := PolicyService.mkPolicyParams None (Some 2400%Q) None None in
  let updated := PolicyService.policy_data params (Samples.policy1 "QUOTED") in
  exists w' row,
    @PolicyService.updatePolicy Samples.platform "P1" params
       Samples.quoted_policy_world = (Ok tt, w')
    /\ prisma.find_policy "P1" (policies w') = Some row
    /\ pol_premium row = 2400%Q
    /\ (~ (2400 == 0)%Q ->
        row = CommissionService.set_commission
                (2400 * or_zero (Some (90 # 100)))%Q (or_zero (Some (90 # 100)%Q))
                updated)
    /\ ((2400 == 0)%Q -> row = updated)
    /\ leads w' = leads Samples.quoted_policy_world
    /\ commissions w' = commissions Samples.quoted_policy_world
    /\ campaigns w' = campaigns Samples.quoted_policy_world
    /\ trace w' = trace Samples.quoted_policy_world.
Proof.
  exact (@quoted_premium_change_recomputes Samples.platform "P1"
           (PolicyService.mkPolicyParams None (Some 2400%Q) None None)
           Samples.quoted_policy_world (Samples.policy1 "QUOTED") 2400%Q
           eq_refl eq_refl eq_refl eq_refl).
Defined.

End QuietEdits.

(* ================================================================= *)
(** ** Logging an activity *)

Module ActivityFlow.
Import Vocabulary FrameRules DispatcherFacts ServiceFacts Invariants.
Import ScoringService.

Lemma core_of_stored_lead (ls ls' : list Lead) (id : string) (l : Lead) :
  map lead_core ls' = map lead_core ls ->
  prisma.find_lead id ls = Some l ->
  exists l', prisma.find_lead id ls' = Some l' /\ lead_core l' = lead_core l.
Proof.
  unfold prisma.find_lead. revert ls'.
  induction ls as [|x ls IH]; intros ls' Hm Hf; [discriminate|].
  destruct ls' as [|x' ls']; [discriminate|].
  cbn [map] in Hm.
  assert (Hx : lead_core x' = lead_core x) by congruence.
  assert (Hrest : map lead_core ls' = map lead_core ls) by congruence.
  assert (Hid : lead_id x' = lead_id x).
  { unfold lead_core in Hx. congruence. }
  cbn [find] in *. rewrite Hid. destruct (String.eqb (lead_id x) id).
  - injection Hf as <-. exists x'. split; [reflexivity | exact Hx].
  - now apply IH.
Qed.

Section WithPlatform.
Context `{Platform}.

Lemma quiet_handler (kind : AutomationTrigger) (leadId : string)
      (policyId : option string) :
  respects quiet
    (lead <- prisma.lead_findUnique leadId ;;
     match lead with
     | None => ret tt
     | Some lead =>
         AutomationService.checkCampaigns
           (mkContext kind (lead_agentId lead) (Some leadId) policyId)
     end)%monad.
Proof.
  apply quiet_bind; [apply quiet_gets|].
  intros [l|]; [apply quiet_checkCampaigns | apply quiet_ret].
Qed.

(** One event handler of the automation service, for a stored lead. *)
Lemma handler_run (kind : AutomationTrigger) (leadId : string)
      (policyId : option string) (w : World) (l : Lead) :
  prisma.find_lead leadId (leads w) = Some l ->
  exists w' t,
    (lead <- prisma.lead_findUnique leadId ;;
     match lead with
     | None => ret tt
     | Some lead =>
         AutomationService.checkCampaigns
           (mkContext kind (lead_agentId lead) (Some leadId) policyId)
     end)%monad w = (Ok tt, w')
    /\ trace w' = trace w ++ t
    /\ dispatched t = [kind]
    /\ (forall id, scorings id t = [])
    /\ quiet w w'
    /\ frame (fun k => k = kind) (fun _ => True) w w'.
Proof.
  intros Hf. unfold prisma.lead_findUnique.
  unfold bind at 1. unfold gets at 1. rewrite Hf.
  set (ctx := mkContext kind (lead_agentId l) (Some leadId) policyId).
  destruct (checkCampaigns_trace ctx w) as (w' & rest & E & T & A & F).
  pose proof (quiet_checkCampaigns ctx w) as Q.
  rewrite E in Q. cbn [snd] in Q.
  exists w', (EvDispatch ctx :: rest).
  split; [exact E|]. split; [exact T|]. split; [|split; [|split]].
  - cbn [dispatched]. now rewrite (dispatched_none rest A).
  - destruct Q as [_ _ (t & QT & QS)].
    rewrite T in QT. apply app_inv_head in QT. rewrite QT. exact QS.
  - exact Q.
  - exact F.
Qed.

(** The dispatch that an event handler makes for a stored lead. *)
Lemma handler_dispatch (kind : AutomationTrigger) (leadId : string)
      (policyId : option string) (w w' : World) (l : Lead) :
  prisma.find_lead leadId (leads w) = Some l ->
  (lead <- prisma.lead_findUnique leadId ;;
   match lead with
   | None => ret tt
   | Some lead =>
       AutomationService.checkCampaigns
         (mkContext kind (lead_agentId lead) (Some leadId) policyId)
   end)%monad w = (Ok tt, w') ->
  AutomationService.checkCampaigns
    (mkContext kind (lead_agentId l) (Some leadId) policyId) w = (Ok tt, w').
Proof.
  intros Hf. unfold prisma.lead_findUnique.
  unfold bind at 1. unfold gets at 1. rewrite Hf. exact (fun E => E).
Qed.

(** The derived status update, for a stored lead, step by step: it returns
    normally; it does nothing when the activity derives no status or the
    status the lead has; otherwise it writes the derived status and then
    dispatches LEAD_STATUS_CHANGED, once. *)
Lemma autoUpdate_steps leadId ty outcome w l :
  prisma.find_lead leadId (leads w) = Some l ->
  exists w' t,
    ActivityService.autoUpdateLeadStatus leadId ty outcome w = (Ok tt, w')
    /\ trace w' = trace w ++ t
    /\ dispatched t
       = (if moves (lead_status l) ty outcome
          then [LEAD_STATUS_CHANGED] else [])
    /\ (moves (lead_status l) ty outcome = false -> w' = w)
    /\ (forall s,
           ActivityService.derivedStatus (lead_status l) ty outcome = Some s ->
           s <> lead_status l ->
           AutomationService.checkCampaigns
             (mkContext LEAD_STATUS_CHANGED (lead_agentId l) (Some leadId) None)
             (prisma.set_leads
                (prisma.replace_lead leadId
                   (fun x => prisma.touch (now w)
                               (AutomationService.set_status s x))
                   (leads w)) w)
           = (Ok tt, w'))
    /\ (forall id, scorings id t = [])
    /\ quiet w w'
    /\ frame (fun k => k = LEAD_STATUS_CHANGED) (fun _ => True) w w'.
Proof.
  intros Hf.
  unfold ActivityService.autoUpdateLeadStatus, prisma.lead_findUnique.
  unfold bind at 1. unfold gets at 1. rewrite Hf. unfold moves.
  destruct (ActivityService.derivedStatus (lead_status l) ty outcome)
    as [newStatus|] eqn:Hder.
  - destruct (String.eqb_spec newStatus (lead_status l)) as [Heq|Hne];
      cbn [negb].
    + exists w, []. rewrite app_nil_r.
      split; [reflexivity|]. split; [reflexivity|]. split; [reflexivity|].
      split; [reflexivity|]. split; [|split; [reflexivity|split]].
      * intros s Hs Hdiff. injection Hs as <-. contradiction.
      * apply quiet_refl.
      * apply frame_refl.
    + unfold bind at 1. rewrite (lead_update_run leadId _ w l Hf).
      set (w1 := prisma.set_leads _ w).
      set (l1 := prisma.touch (now w)
                   (AutomationService.set_status newStatus l)).
      assert (Hf1 : prisma.find_lead leadId (leads w1) = Some l1).
      { subst w1 l1. cbn [leads prisma.set_leads].
        apply (find_lead_after_update leadId _ w l); [reflexivity | exact Hf]. }
      destruct (handler_run LEAD_STATUS_CHANGED leadId None w1 l1 Hf1)
        as (w2 & t & E & T & D & S & Q & F).
      exists w2, t. split; [exact E|]. split; [exact T|].
      split; [exact D|]. split; [discriminate|].
      split; [|split; [exact S|split]].
      * intros s Hs _. injection Hs as <-.
        exact (handler_dispatch LEAD_STATUS_CHANGED leadId None w1 w2 l1
                 Hf1 E).
      * apply quiet_trans with w1; [|exact Q].
        pose proof (quiet_lead_update leadId
                      (AutomationService.set_status newStatus)
                      (fun _ => eq_refl) w) as Q1.
        rewrite (lead_update_run leadId _ w l Hf) in Q1. exact Q1.
      * apply frame_trans with w1; [|exact F].
        pose proof (preserves_lead_update (fun k => k = LEAD_STATUS_CHANGED)
                      (fun _ => True) leadId
                      (AutomationService.set_status newStatus)
                      (fun _ => eq_refl) w) as F1.
        rewrite (lead_update_run leadId _ w l Hf) in F1. exact F1.
  - exists w, []. rewrite app_nil_r.
    split; [reflexivity|]. split; [reflexivity|]. split; [reflexivity|].
    split; [reflexivity|]. split; [discriminate|].
    split; [reflexivity|]. split; [apply quiet_refl | apply frame_refl].
Qed.

(** The derived status update, for a stored lead: it returns normally,
    dispatches LEAD_STATUS_CHANGED at most once and stays quiet. *)
Lemma autoUpdate_run leadId ty outcome w l :
  prisma.find_lead leadId (leads w) = Some l ->
  exists w' t,
    ActivityService.autoUpdateLeadStatus leadId ty outcome w = (Ok tt, w')
    /\ trace w' = trace w ++ t
    /\ (dispatched t = [] \/ dispatched t = [LEAD_STATUS_CHANGED])
    /\ ((forall status,
            ActivityService.derivedStatus status ty outcome = None) ->
        dispatched t = [])
    /\ (forall id, scorings id t = [])
    /\ quiet w w'
    /\ frame (fun k => k = LEAD_STATUS_CHANGED) (fun _ => True) w w'.
Proof.
  intros Hf.
  destruct (autoUpdate_steps leadId ty outcome w l Hf)
    as (w' & t & E & T & D & _ & _ & S & Q & F).
  exists w', t. split; [exact E|]. split; [exact T|].
  split; [|split; [|split; [exact S|split; [exact Q | exact F]]]].
  - rewrite D. destruct (moves (lead_status l) ty outcome); auto.
  - intros Hnone. rewrite D. unfold moves. now rewrite Hnone.
Qed.

(** Everything [logActivity] does for a stored lead, step by step. [w3] is
    the store after the ACTIVITY_LOGGED dispatch and [seen] the row of the
    lead in it, which the derived status update reads. *)
Lemma logActivity_steps agentId leadId ty outcome w l :
  prisma.find_lead leadId (leads w) = Some l ->
  let logged := mkActivity agentId leadId ty outcome (now w) in
  let w1 := prisma.set_activities (logged :: activities w) w in
  let b := computeScore l (prisma.activities_of leadId w1) (now w) in
  let announce kind := mkContext kind (lead_agentId l) (Some leadId) None in
  exists w' t l' w3 seen,
    ActivityService.logActivity agentId leadId ty outcome w = (Ok tt, w')
    /\ activities w' = logged :: activities w
    /\ trace w' = trace w ++ t
    /\ scorings leadId t = [(lead_score l, currentScore b)]
    /\ AutomationService.checkCampaigns (announce ACTIVITY_LOGGED)
         (scored leadId b w1) = (Ok tt, w3)
    /\ prisma.find_lead leadId (leads w3) = Some seen
    /\ dispatched t
       = (if moves (lead_status seen) ty outcome
          then [ACTIVITY_LOGGED; LEAD_STATUS_CHANGED]
          else [ACTIVITY_LOGGED])
    /\ (moves (lead_status seen) ty outcome = false -> w' = w3)
    /\ (forall s,
           ActivityService.derivedStatus (lead_status seen) ty outcome
           = Some s ->
           s <> lead_status seen ->
           AutomationService.checkCampaigns (announce LEAD_STATUS_CHANGED)
             (prisma.set_leads
                (prisma.replace_lead leadId
                   (fun x => prisma.touch (now w)
                               (AutomationService.set_status s x))
                   (leads w3)) w3)
           = (Ok tt, w'))
    /\ prisma.find_lead leadId (leads w') = Some l'
    /\ lead_core l'
       = (leadId, lead_agentId l, lead_intentLevel l, currentScore b)
    /\ frame (fun k => k = ACTIVITY_LOGGED \/ k = LEAD_STATUS_CHANGED)
             (fun _ => True) w w'.
Proof.
  intros Hf logged w1 b announce.
  unfold ActivityService.logActivity, prisma.lead_findUnique.
  unfold bind at 1. unfold gets at 1. rewrite Hf.
  unfold bind at 1. unfold prisma.activity_create at 1. cbn [modify].
  fold logged. fold w1.
  assert (Hf1 : prisma.find_lead leadId (leads w1) = Some l) by exact Hf.
  unfold bind at 1. rewrite (updateLeadScore_run leadId w1 l Hf1).
  change (now w1) with (now w). fold b.
  set (w2 := scored leadId b w1).
  set (l2 := prisma.touch (now w1) (set_score (currentScore b) l)).
  assert (Hf2 : prisma.find_lead leadId (leads w2) = Some l2).
  { subst w2 l2. unfold scored. cbn [leads].
    rewrite find_lead_replace by reflexivity. now rewrite Hf1. }
  unfold bind at 1.
  destruct (handler_run ACTIVITY_LOGGED leadId None w2 l2 Hf2)
    as (w3 & t3 & E3 & T3 & D3 & S3 & Q3 & F3).
  change (AutomationService.handleActivityLogged leadId ty outcome w2)
    with ((lead <- prisma.lead_findUnique leadId ;;
           match lead with
           | None => ret tt
           | Some lead =>
               AutomationService.checkCampaigns
                 (mkContext ACTIVITY_LOGGED (lead_agentId lead) (Some leadId)
                            None)
           end)%monad w2).
  rewrite E3.
  destruct (core_of_stored_lead _ _ leadId l2 (qu_leads _ _ Q3) Hf2)
    as (l3 & Hf3 & C3).
  assert (Hag : lead_agentId l3 = lead_agentId l).
  { unfold lead_core in C3. injection C3 as _ C3 _ _. exact C3. }
  assert (N3 : now w3 = now w) by exact (fr_now _ _ _ _ F3).
  destruct (autoUpdate_steps leadId ty outcome w3 l3 Hf3)
    as (w4 & t4 & E4 & T4 & D4 & Stay4 & Move4 & S4 & Q4 & F4).
  destruct (core_of_stored_lead _ _ leadId l3 (qu_leads _ _ Q4) Hf3)
    as (l4 & Hf4 & C4).
  exists w4, ([EvScoring leadId (lead_score l) (currentScore b)] ++ t3 ++ t4),
    l4, w3, l3.
  split; [exact E4|].
  split; [|split; [|split; [|split; [|split; [|split; [|split;
    [|split; [|split; [|split]]]]]]]]].
  - rewrite (qu_activities _ _ Q4), (qu_activities _ _ Q3). reflexivity.
  - rewrite T4, T3. subst w2. unfold scored. cbn [trace].
    subst w1. cbn [trace prisma.set_activities].
    now rewrite <- !app_assoc.
  - rewrite !scorings_app, S3, S4. cbn [scorings].
    now rewrite String.eqb_refl.
  - exact (handler_dispatch ACTIVITY_LOGGED leadId None w2 w3 l2 Hf2 E3).
  - exact Hf3.
  - rewrite !dispatched_app, D3, D4. cbn [dispatched app].
    now destruct (moves (lead_status l3) ty outcome).
  - exact Stay4.
  - intros s Hs Hdiff. subst announce. cbv beta.
    rewrite <- Hag, <- N3. now apply Move4.
  - exact Hf4.
  - rewrite C4, C3. subst l2. unfold lead_core. cbn.
    now rewrite (find_lead_id _ _ _ Hf).
  - apply frame_trans with w3.
    + apply frame_trans with w2.
      * constructor; try reflexivity.
        -- subst w2 w1. unfold scored. cbn [leads prisma.set_activities].
           now apply map_replace_lead_id.
        -- exists [EvScoring leadId (lead_score l) (currentScore b)].
           split; [reflexivity|]. split; [repeat constructor|].
           intros id _. split; reflexivity.
      * eapply frame_weaken; [| |exact F3]; cbn; auto.
    + eapply frame_weaken; [| |exact F4]; cbn; auto.
Qed.

(** Everything [logActivity] does for a stored lead. *)
Lemma logActivity_run agentId leadId ty outcome w l :
  prisma.find_lead leadId (leads w) = Some l ->
  let logged := mkActivity agentId leadId ty outcome (now w) in
  let w1 := prisma.set_activities (logged :: activities w) w in
  let b := computeScore l (prisma.activities_of leadId w1) (now w) in
  exists w' t l',
    ActivityService.logActivity agentId leadId ty outcome w = (Ok tt, w')
    /\ activities w' = logged :: activities w
    /\ trace w' = trace w ++ t
    /\ scorings leadId t = [(lead_score l, currentScore b)]
    /\ (dispatched t = [ACTIVITY_LOGGED]
        \/ dispatched t = [ACTIVITY_LOGGED; LEAD_STATUS_CHANGED])
    /\ ((forall status,
            ActivityService.derivedStatus status ty outcome = None) ->
        dispatched t = [ACTIVITY_LOGGED])
    /\ prisma.find_lead leadId (leads w') = Some l'
    /\ lead_core l'
       = (leadId, lead_agentId l, lead_intentLevel l, currentScore b)
    /\ frame (fun k => k = ACTIVITY_LOGGED \/ k = LEAD_STATUS_CHANGED)
             (fun _ => True) w w'.
Proof.
  intros Hf logged w1 b.
  destruct (logActivity_steps agentId leadId ty outcome w l Hf)
    as (w' & t & l' & w3 & seen & E & A & T & S & _ & _ & D & _ & _ & Hf'
        & C & F).
  exists w', t, l'. split; [exact E|]. split; [exact A|]. split; [exact T|].
  split; [exact S|].
  split; [|split; [|split; [exact Hf'|split; [exact C | exact F]]]].
  - rewrite D. destruct (moves (lead_status seen) ty outcome); auto.
  - intros Hnone. rewrite D. unfold moves. now rewrite Hnone.
Qed.

(** Logging an activity for a stored lead returns normally whatever the
    campaigns do, stores exactly one activity, and scores the lead exactly
    once, before any event is dispatched: the stored score is the one
    computed from the new activity list and from the status the lead had
    before the call. ACTIVITY_LOGGED is dispatched first. The derived status
    update then reads the lead as that dispatch left it ([seen]): when the
    activity derives from that status a status different from it, the
    derived status is written and LEAD_STATUS_CHANGED is dispatched on the
    store that holds it, and the score is not recomputed; otherwise nothing
    more is dispatched and the store stays as the first dispatch left it.
    Policies and commissions are not touched. *)
Theorem logged_activity_is_scored_once
        (agentId leadId type : string) (outcome : option string)
        (w : World) (lead : Lead) :
  prisma.find_lead leadId (leads w) = Some lead ->
  let logged := mkActivity agentId leadId type outcome (now w) in
  let w1 := prisma.set_activities (logged :: activities w) w in
  let b := computeScore lead (prisma.activities_of leadId w1) (now w) in
  let announce kind :=
    mkContext kind (lead_agentId lead) (Some leadId) None in
  exists w' t lead' w3 seen,
    ActivityService.logActivity agentId leadId type outcome w = (Ok tt, w')
    /\ activities w' = logged :: activities w
    /\ trace w' = trace w ++ t
    /\ scorings leadId t = [(lead_score lead, currentScore b)]
    /\ AutomationService.checkCampaigns (announce ACTIVITY_LOGGED)
         (scored leadId b w1) = (Ok tt, w3)
    /\ prisma.find_lead leadId (leads w3) = Some seen
    /\ dispatched t
       = (if moves (lead_status seen) type outcome
          then [ACTIVITY_LOGGED; LEAD_STATUS_CHANGED]
          else [ACTIVITY_LOGGED])
    /\ (moves (lead_status seen) type outcome = false -> w' = w3)
    /\ (forall s,
           ActivityService.derivedStatus (lead_status seen) type outcome
           = Some s ->
           s <> lead_status seen ->
           AutomationService.checkCampaigns (announce LEAD_STATUS_CHANGED)
             (prisma.set_leads
                (prisma.replace_lead leadId
                   (fun x => prisma.touch (now w)
                               (AutomationService.set_status s x))
                   (leads w3)) w3)
           = (Ok tt, w'))
    /\ prisma.find_lead leadId (leads w') = Some lead'
    /\ lead_score lead' = currentScore b
    /\ policies w' = policies w
    /\ commissions w' = commissions w.
Proof.
  intros Hf logged w1 b announce.
  destruct (logActivity_steps agentId leadId type outcome w lead Hf)
    as (w' & t & l' & w3 & seen & E & A & T & S & E3 & Hseen & D & Stay
        & Move & Hf' & C & F).
  exists w', t, l', w3, seen. repeat (split; [assumption|]).
  split; [|split].
  - unfold lead_core in C. now injection C.
  - apply (fr_policies _ _ _ _ F).
  - apply (fr_commissions _ _ _ _ F).
Qed.

End WithPlatform.

Lemma logged_activity_is_scored_once_witness :
  let w := Samples.dispatch_world in
  let logged := mkActivity "A1" "L1" "CALL_OUTBOUND" None 1000 in
  let w1 := prisma.set_activities (logged :: activities w) w in
  let b := computeScore (Samples.lead1 "NEW") (prisma.activities_of "L1" w1)
                        1000 in
  let announce kind := mkContext kind "A1" (Some "L1") None in
  exists w' t lead' w3 seen,
    @ActivityService.logActivity Samples.platform "A1" "L1" "CALL_OUTBOUND"
       None w = (Ok tt, w')
    /\ activities w' = logged :: activities w
    /\ trace w' = trace w ++ t
    /\ scorings "L1" t = [(0, currentScore b)]
    /\ @AutomationService.checkCampaigns Samples.platform
         (announce ACTIVITY_LOGGED) (scored "L1" b w1) = (Ok tt, w3)
    /\ prisma.find_lead "L1" (leads w3) = Some seen
    /\ dispatched t
       = (if moves (lead_status seen) "CALL_OUTBOUND" None
          then [ACTIVITY_LOGGED; LEAD_STATUS_CHANGED]
          else [ACTIVITY_LOGGED])
    /\ (moves (lead_status seen) "CALL_OUTBOUND" None = false -> w' = w3)
    /\ (forall s,
           ActivityService.derivedStatus (lead_status seen) "CALL_OUTBOUND"
                                         None
           = Some s ->
           s <> lead_status seen ->
           @AutomationService.checkCampaigns Samples.platform
             (announce LEAD_STATUS_CHANGED)
             (prisma.set_leads
                (prisma.replace_lead "L1"
                   (fun x => prisma.touch 1000
                               (AutomationService.set_status s x))
                   (leads w3)) w3)
           = (Ok tt, w'))
    /\ prisma.find_lead "L1" (leads w') = Some lead'
    /\ lead_score lead' = currentScore b
    /\ policies w' = policies w
    /\ commissions w' = commissions w.
Proof.
  exact (@logged_activity_is_scored_once Samples.platform "A1" "L1"
           "CALL_OUTBOUND" None Samples.dispatch_world (Samples.lead1 "NEW")
           eq_refl).
Defined.

End ActivityFlow.

(* ================================================================= *)
(** ** Policy transitions, step by step *)

Module PolicyFlow.
Import Vocabulary FrameRules DispatcherFacts ServiceFacts PolicyFacts.
Import Invariants ActivityFlow.
Import ScoringService.

Lemma commission_handler_run id w p :
  prisma.find_policy id (policies w) = Some p ->
  let rate :=
    or_zero (CommissionService.lookup
               (pol_productType p)
               CommissionService.DEFAULT_COMMISSION_RATES) in
  let amount := (pol_premium p * rate)%Q in
  let w1 :=
    prisma.set_commissions
      (commissions w
       ++ [mkCommission id (pol_agentId p) amount "FIRST_YEAR" "PENDING"]) w in
  CommissionService.handlePolicyIssued id w
  = (Ok tt,
     prisma.set_policies
       (prisma.replace_policy id
          (CommissionService.set_commission amount rate) (policies w1)) w1).
Proof.
  intros Hf rate amount w1.
  unfold CommissionService.handlePolicyIssued, prisma.policy_findUnique.
  unfold bind at 1. unfold gets at 1. rewrite Hf.
  unfold CommissionService.createCommission, prisma.commission_create.
  unfold bind at 1. unfold modify at 1. cbv zeta.
  erewrite policy_update_run by (cbn [policies prisma.set_commissions];
                                 exact Hf).
  reflexivity.
Qed.

Section WithPlatform.
Context `{Platform}.

(** The tail of [updatePolicy] when the new status is neither UNDERWRITING
    nor one of DECLINED, POSTPONED, WITHDRAWN. *)
Lemma no_other_transition policyId (params : PolicyService.UpdatePolicyParams)
      (previousStatus s : string) (w : World) :
  PolicyService.status params = Some s ->
  s <> "UNDERWRITING" -> ~ In s ["DECLINED"; "POSTPONED"; "WITHDRAWN"] ->
  (when (match PolicyService.status params with
         | Some s => String.eqb s "UNDERWRITING"
         | None => false
         end
         && negb (String.eqb previousStatus "UNDERWRITING"))
     (PolicyService.handlePolicyInUnderwriting policyId) ;;
   match PolicyService.status params with
   | Some s =>
       when (truthy_string (PolicyService.status params)
             && includes ["DECLINED"; "POSTPONED"; "WITHDRAWN"] s)
         (PolicyService.handlePolicyNotIssued policyId s)
   | None => ret tt
   end)%monad w = (Ok tt, w).
Proof.
  intros Hs Hu Hn. rewrite Hs.
  destruct (String.eqb_spec s "UNDERWRITING") as [|_]; [contradiction|].
  cbn [andb when]. unfold bind, ret.
  assert (I : includes ["DECLINED"; "POSTPONED"; "WITHDRAWN"] s = false).
  { unfold includes. cbn [existsb].
    repeat match goal with
           | |- context [String.eqb s ?k] =>
               destruct (String.eqb_spec s k) as [->|_];
               [exfalso; apply Hn; cbn; tauto|]
           end.
    reflexivity. }
  now rewrite I, andb_false_r.
Qed.

(** Issuing a policy whose lead is stored returns normally, whatever the
    campaigns do. The policy row gets the new status, an issue date (the
    given one, else the current instant when it had none) and commission
    columns recomputed at the first-year table rate of its product type,
    whatever rate it carried before (a custom rate given at creation is
    replaced). The lead is set to PLACED and one SOLD note is logged for it;
    the score is recomputed once, from that status and that note; the
    dispatcher receives ACTIVITY_LOGGED and then POLICY_ISSUED, and no
    LEAD_STATUS_CHANGED. *)
Theorem issuing_stamps_rescores_and_announces
        (policyId : string) (params : PolicyService.UpdatePolicyParams)
        (w : World) (policy : Policy) (lead : Lead) :
  prisma.find_policy policyId (policies w) = Some policy ->
  prisma.find_lead (pol_leadId policy) (leads w) = Some lead ->
  PolicyService.status params = Some "ISSUED" ->
  pol_status policy <> "ISSUED" ->
  let issued := PolicyService.policy_data params policy in
  let stamped :=
    match pol_issueDate issued with
    | Some _ => issued
    | None => PolicyService.set_issueDate (now w) issued
    end in
  let rate :=
    or_zero (CommissionService.lookup
               (pol_productType issued)
               CommissionService.DEFAULT_COMMISSION_RATES) in
  let leadId := pol_leadId policy in
  let placed :=
    prisma.touch (now w) (AutomationService.set_status "PLACED" lead) in
  let sold :=
    mkActivity (pol_agentId policy) leadId "NOTE" (Some "SOLD") (now w) in
  let b :=
    computeScore placed
      (prisma.activities_of leadId
         (prisma.set_activities (sold :: activities w) w))
      (now w) in
  exists w' t,
    PolicyService.updatePolicy policyId params w = (Ok tt, w')
    /\ prisma.find_policy policyId (policies w')
       = Some (CommissionService.set_commission
                 (pol_premium issued * rate)%Q rate stamped)
    /\ activities w' = sold :: activities w
    /\ trace w' = trace w ++ t
    /\ dispatched t = [ACTIVITY_LOGGED; POLICY_ISSUED]
    /\ scorings leadId t = [(lead_score lead, currentScore b)].
Proof.
  intros Hp Hl Hs Hprev issued stamped rate leadId placed sold b.
  unfold PolicyService.updatePolicy, prisma.policy_findUnique.
  unfold bind at 1. unfold gets at 1. rewrite Hp.
  unfold bind at 1. erewrite policy_update_run by exact Hp.
  set (w1 := prisma.set_policies _ w).
  assert (F1 : prisma.find_policy policyId (policies w1) = Some issued).
  { subst w1. cbn [policies prisma.set_policies].
    rewrite find_policy_replace by reflexivity. now rewrite Hp. }
  (* no premium recomputation: a status is named *)
  unfold bind at 1.
  assert (E0 : (match PolicyService.premium params with
                | Some newPremium =>
                    when (truthy_number newPremium
                          && String.eqb (pol_status policy) "QUOTED"
                          && negb (truthy_string (PolicyService.status params)))
                      (let commissionResult :=
                         CommissionService.calculateCommission
                           newPremium
                           (pol_productType
                              (PolicyService.policy_data params policy))
                           None "FIRST_YEAR" in
                       prisma.policy_update policyId
                         (CommissionService.set_commission
                            (CommissionService.commissionAmount
                               commissionResult)
                            (CommissionService.commissionRate
                               commissionResult)))
                | None => ret tt
                end) w1 = (Ok tt, w1)).
  { rewrite Hs. cbn [truthy_string String.eqb Ascii.eqb Bool.eqb negb].
    destruct (PolicyService.premium params); [|reflexivity].
    now rewrite andb_false_r. }
  cbv zeta in E0. cbv zeta. rewrite E0. clear E0.
  (* the issue handler runs *)
  unfold bind at 1.
  assert (G : (match PolicyService.status params with
               | Some s => String.eqb s "ISSUED"
               | None => false
               end && negb (String.eqb (pol_status policy) "ISSUED")) = true).
  { rewrite Hs, String.eqb_refl.
    now destruct (String.eqb_spec (pol_status policy) "ISSUED"). }
  rewrite G. cbn [when].
  unfold PolicyService.handlePolicyIssued, prisma.policy_findUnique.
  unfold bind at 1. unfold gets at 1. rewrite F1.
  (* the issue date *)
  unfold bind at 1.
  assert (E2 : exists w2,
             (match pol_issueDate issued with
              | Some _ => ret tt
              | None =>
                  (t <- gets now ;;
                   prisma.policy_update policyId (PolicyService.set_issueDate t)
                  )%monad
              end) w1 = (Ok tt, w2)
             /\ prisma.find_policy policyId (policies w2) = Some stamped
             /\ leads w2 = leads w /\ activities w2 = activities w
             /\ trace w2 = trace w /\ now w2 = now w).
  { subst stamped. destruct (pol_issueDate issued).
    - exists w1. now repeat split.
    - unfold bind, gets. erewrite policy_update_run by exact F1.
      eexists. split; [reflexivity|]. split; [|now repeat split].
      cbn [policies prisma.set_policies].
      rewrite find_policy_replace by reflexivity. now rewrite F1. }
  destruct E2 as (w2 & E2 & F2 & L2 & A2 & T2 & N2). rewrite E2.
  (* the commission *)
  unfold bind at 1. rewrite (commission_handler_run policyId w2 stamped F2).
  cbv zeta.
  assert (Hst : pol_productType stamped = pol_productType issued
                /\ pol_premium stamped = pol_premium issued
                /\ pol_agentId stamped = pol_agentId policy).
  { subst stamped. now destruct (pol_issueDate issued). }
  destruct Hst as (Hpt & Hpr & Hag). rewrite Hpt, Hpr, Hag. fold rate.
  set (w3 := prisma.set_policies _ _).
  assert (F3 : prisma.find_policy policyId (policies w3)
               = Some (CommissionService.set_commission
                         (pol_premium issued * rate)%Q rate stamped)).
  { subst w3. cbn [policies prisma.set_policies prisma.set_commissions].
    rewrite find_policy_replace by reflexivity. now rewrite F2. }
  (* the lead is placed *)
  assert (L3 : prisma.find_lead leadId (leads w3) = Some lead).
  { subst w3. cbn [leads prisma.set_policies prisma.set_commissions].
    now rewrite L2. }
  unfold bind at 1.
  change (pol_leadId issued) with leadId.
  rewrite (lead_update_run leadId _ w3 lead L3).
  set (w4 := prisma.set_leads _ w3).
  assert (N4 : now w4 = now w) by exact N2.
  assert (L4 : prisma.find_lead leadId (leads w4) = Some placed).
  { subst w4 placed. cbn [leads prisma.set_leads]. rewrite <- N2.
    apply (find_lead_after_update leadId _ w3 lead); [reflexivity | exact L3]. }
  (* the note *)
  unfold bind at 1.
  change (pol_agentId issued) with (pol_agentId policy).
  destruct (logActivity_run (pol_agentId policy) leadId "NOTE" (Some "SOLD")
              w4 placed L4)
    as (w5 & t5 & l5 & E5 & A5 & T5 & S5 & _ & D5 & L5 & _ & F5).
  rewrite E5.
  (* the announcement *)
  destruct (handler_run POLICY_ISSUED leadId (Some policyId) w5 l5 L5)
    as (w6 & t6 & E6 & T6 & D6 & S6 & Q6 & F6).
  change (AutomationService.handlePolicyIssued policyId leadId w5)
    with ((lead <- prisma.lead_findUnique leadId ;;
           match lead with
           | None => ret tt
           | Some lead =>
               AutomationService.checkCampaigns
                 (mkContext POLICY_ISSUED (lead_agentId lead) (Some leadId)
                            (Some policyId))
           end)%monad w5).
  rewrite E6.
  rewrite (no_other_transition policyId params (pol_status policy) "ISSUED"
             w6 Hs)
    by (cbn; intuition discriminate).
  exists w6, (t5 ++ t6). split; [reflexivity|].
  split; [|split; [|split; [|split]]].
  - rewrite (fr_policies _ _ _ _ F6), (fr_policies _ _ _ _ F5). exact F3.
  - rewrite (qu_activities _ _ Q6), A5, N4. subst w4 w3.
    cbn [activities prisma.set_leads prisma.set_policies
         prisma.set_commissions].
    now rewrite A2.
  - rewrite T6, T5. subst w4 w3.
    cbn [trace prisma.set_leads prisma.set_policies prisma.set_commissions].
    now rewrite T2, app_assoc.
  - rewrite dispatched_app, D6, (D5 (fun _ => eq_refl)). reflexivity.
  - rewrite scorings_app, S6, S5, app_nil_r, N4.
    subst w4 w3.
    cbn [activities prisma.set_leads prisma.set_policies
         prisma.set_commissions].
    rewrite A2. reflexivity.
Qed.

(** Moving a policy to UNDERWRITING from another status sets the lead to
    UNDERWRITING, logs one note and recomputes the score twice (once when
    the note is logged, from the new status, and once more at the end); the
    dispatcher receives ACTIVITY_LOGGED only, and no LEAD_STATUS_CHANGED;
    no commission is created. Naming UNDERWRITING for a policy that is
    already in underwriting only stores the policy update. *)
Theorem underwriting_rescores_twice_announces_once
        (policyId : string) (params : PolicyService.UpdatePolicyParams)
        (w : World) (policy : Policy) (lead : Lead) :
  prisma.find_policy policyId (policies w) = Some policy ->
  prisma.find_lead (pol_leadId policy) (leads w) = Some lead ->
  PolicyService.status params = Some "UNDERWRITING" ->
  let leadId := pol_leadId policy in
  let moved :=
    prisma.touch (now w) (AutomationService.set_status "UNDERWRITING" lead) in
  let note := mkActivity (pol_agentId policy) leadId "NOTE" None (now w) in
  let b :=
    computeScore moved
      (prisma.activities_of leadId
         (prisma.set_activities (note :: activities w) w))
      (now w) in
  (pol_status policy <> "UNDERWRITING" ->
   exists w' t again,
     PolicyService.updatePolicy policyId params w = (Ok tt, w')
     /\ activities w' = note :: activities w
     /\ commissions w' = commissions w
     /\ trace w' = trace w ++ t
     /\ dispatched t = [ACTIVITY_LOGGED]
     /\ scorings leadId t
        = [(lead_score lead, currentScore b); (currentScore b, again)])
  /\ (pol_status policy = "UNDERWRITING" ->
      exists w',
        PolicyService.updatePolicy policyId params w = (Ok tt, w')
        /\ leads w' = leads w
        /\ activities w' = activities w
        /\ commissions w' = commissions w
        /\ trace w' = trace w).
Proof.
  intros Hp Hl Hs leadId moved note b.
  set (changed := PolicyService.policy_data params policy).
  set (w1 := prisma.set_policies
               (prisma.replace_policy policyId
                  (PolicyService.policy_data params) (policies w)) w).
  assert (F1 : prisma.find_policy policyId (policies w1) = Some changed).
  { subst w1. cbn [policies prisma.set_policies].
    rewrite find_policy_replace by reflexivity. now rewrite Hp. }
  (* up to the underwriting handler *)
  assert (Pre : PolicyService.updatePolicy policyId params w
                = (when (negb (String.eqb (pol_status policy) "UNDERWRITING"))
                     (PolicyService.handlePolicyInUnderwriting policyId) ;;
                   ret tt)%monad w1).
  { unfold PolicyService.updatePolicy, prisma.policy_findUnique.
    unfold bind at 1. unfold gets at 1. rewrite Hp.
    unfold bind at 1. erewrite policy_update_run by exact Hp.
    fold w1. fold changed.
    unfold bind at 1.
    assert (E0 : (match PolicyService.premium params with
                  | Some newPremium =>
                      when (truthy_number newPremium
                            && String.eqb (pol_status policy) "QUOTED"
                            && negb (truthy_string
                                       (PolicyService.status params)))
                        (let commissionResult :=
                           CommissionService.calculateCommission
                             newPremium (pol_productType changed)
                             None "FIRST_YEAR" in
                         prisma.policy_update policyId
                           (CommissionService.set_commission
                              (CommissionService.commissionAmount
                                 commissionResult)
                              (CommissionService.commissionRate
                                 commissionResult)))
                  | None => ret tt
                  end) w1 = (Ok tt, w1)).
    { rewrite Hs. cbn [truthy_string String.eqb Ascii.eqb Bool.eqb negb].
      destruct (PolicyService.premium params); [|reflexivity].
      now rewrite andb_false_r. }
    cbv zeta in E0. cbv zeta. rewrite E0. clear E0.
    rewrite Hs. cbn [String.eqb Ascii.eqb Bool.eqb andb when truthy_string negb
                     includes existsb orb].
    unfold bind at 1. unfold ret at 1. reflexivity. }
  rewrite Pre. clear Pre.
  split.
  - intros Hprev.
    destruct (String.eqb_spec (pol_status policy) "UNDERWRITING") as [|_];
      [contradiction|].
    cbn [negb when]. unfold bind at 1.
    unfold PolicyService.handlePolicyInUnderwriting, prisma.policy_findUnique.
    unfold bind at 1. unfold gets at 1. rewrite F1.
    change (pol_leadId changed) with leadId.
    change (pol_agentId changed) with (pol_agentId policy).
    assert (L1 : prisma.find_lead leadId (leads w1) = Some lead) by exact Hl.
    unfold bind at 1. rewrite (lead_update_run leadId _ w1 lead L1).
    set (w2 := prisma.set_leads _ w1).
    assert (L2 : prisma.find_lead leadId (leads w2) = Some moved).
    { subst w2 moved. cbn [leads prisma.set_leads].
      apply (find_lead_after_update leadId _ w1 lead); [reflexivity | exact L1]. }
    unfold bind at 1.
    destruct (logActivity_run (pol_agentId policy) leadId "NOTE" None
                w2 moved L2)
      as (w3 & t3 & l3 & E3 & A3 & T3 & S3 & _ & D3 & L3 & C3 & F3).
    rewrite E3.
    unfold bind at 1. rewrite (updateLeadScore_run leadId w3 l3 L3).
    cbn [ret].
    set (b3 := computeScore l3 (prisma.activities_of leadId w3) (now w3)).
    exists (scored leadId b3 w3),
      (t3 ++ [EvScoring leadId (lead_score l3) (currentScore b3)]),
      (currentScore b3).
    split; [reflexivity|]. split; [|split; [|split; [|split]]].
    + unfold scored. cbn [activities]. exact A3.
    + unfold scored. cbn [commissions].
      exact (fr_commissions _ _ _ _ F3).
    + unfold scored. cbn [trace]. rewrite T3.
      change (trace w2) with (trace w). now rewrite <- app_assoc.
    + rewrite dispatched_app, (D3 (fun _ => eq_refl)). reflexivity.
    + rewrite scorings_app, S3. cbn [scorings app].
      rewrite String.eqb_refl.
      unfold lead_core in C3. injection C3 as _ _ _ C3. rewrite C3.
      reflexivity.
  - intros Hprev. rewrite Hprev. cbn [String.eqb Ascii.eqb Bool.eqb negb when].
    unfold bind, ret. exists w1. now repeat split.
Qed.

Lemma insert_desc_length (a : Activity) (sorted : list Activity) :
  List.length (prisma.insert_desc a sorted) = S (List.length sorted).
Proof.
  induction sorted as [|b rest IH]; cbn [prisma.insert_desc]; [reflexivity|].
  destruct (act_timestamp b <=? act_timestamp a); cbn [List.length];
    [reflexivity|].
  now rewrite IH.
Qed.

(** A lead that has an activity in the table has a non-empty history. *)
Lemma history_not_empty (a : Activity) (w : World) :
  In a (activities w) ->
  prisma.activities_of (act_leadId a) w <> [].
Proof.
  intros Hin. unfold prisma.activities_of.
  assert (Hf : In a (filter (fun x => String.eqb (act_leadId x) (act_leadId a))
                            (activities w))).
  { apply filter_In. split; [exact Hin | apply String.eqb_refl]. }
  destruct (filter _ (activities w)) as [|x rest]; [destruct Hf|].
  unfold prisma.order_by_timestamp_desc. cbn [fold_right].
  intros E. apply (f_equal (@List.length Activity)) in E.
  rewrite insert_desc_length in E. discriminate.
Qed.

(** Creating a policy with a status other than ISSUED, for a stored lead,
    returns normally whatever the campaigns do. One policy row is stored,
    with the commission of the custom rate when one is given and of the
    first-year table rate otherwise; no commission row is created; one
    APPLICATION_SENT activity is logged; the dispatcher receives
    ACTIVITY_LOGGED, a LEAD_STATUS_CHANGED when the activity moved the lead,
    and POLICY_CREATED last. The lead read at the start decides the status:
    unless it was in APPLICATION or UNDERWRITING then (PLACED included), the
    lead is set to APPLICATION and the stored score is the one computed from
    that status and the new activity. *)
Theorem new_policy_is_stored_scored_and_announced
        (policyId : string) (params : PolicyService.CreatePolicyParams)
        (w : World) (lead : Lead) :
  prisma.find_lead (PolicyService.new_leadId params) (leads w) = Some lead ->
  PolicyService.new_status params <> Some "ISSUED" ->
  let leadId := PolicyService.new_leadId params in
  let result :=
    CommissionService.calculateCommission
      (PolicyService.new_premium params)
      (PolicyService.new_productType params)
      (PolicyService.new_commissionRate params) "FIRST_YEAR" in
  let row :=
    mkPolicy policyId (PolicyService.new_agentId params) leadId
             (PolicyService.new_productType params)
             (PolicyService.new_premium params)
             (CommissionService.commissionRate result)
             (CommissionService.commissionAmount result)
             (match PolicyService.new_status params with
              | Some s => s
              | None => "APPLIED"
              end)
             None in
  let sent :=
    mkActivity (PolicyService.new_agentId params) leadId "APPLICATION_SENT"
               None (now w) in
  let history :=
    prisma.activities_of leadId
      (prisma.set_activities (sent :: activities w) w) in
  exists w' t lead',
    PolicyService.createPolicy policyId params w = (Ok tt, w')
    /\ policies w' = policies w ++ [row]
    /\ commissions w' = commissions w
    /\ activities w' = sent :: activities w
    /\ trace w' = trace w ++ t
    /\ (dispatched t = [ACTIVITY_LOGGED; POLICY_CREATED]
        \/ dispatched t
           = [ACTIVITY_LOGGED; LEAD_STATUS_CHANGED; POLICY_CREATED])
    /\ prisma.find_lead leadId (leads w') = Some lead'
    /\ (lead_status lead <> "APPLICATION" ->
        lead_status lead <> "UNDERWRITING" ->
        lead_score lead'
        = currentScore
            (computeScore (AutomationService.set_status "APPLICATION" lead)
                          history (now w))).
Proof.
  intros Hl Hni leadId result row sent history.
  fold leadId in Hl.
  unfold PolicyService.createPolicy. cbv zeta.
  unfold prisma.lead_findUnique.
  unfold bind at 1. unfold gets at 1. fold leadId. rewrite Hl.
  unfold bind at 1. unfold prisma.policy_create at 1. unfold modify at 1.
  fold result. fold row.
  set (w1 := prisma.set_policies (policies w ++ [row]) w).
  assert (L1 : prisma.find_lead leadId (leads w1) = Some lead) by exact Hl.
  (* the activity *)
  unfold bind at 1.
  destruct (logActivity_run (PolicyService.new_agentId params) leadId
              "APPLICATION_SENT" None w1 lead L1)
    as (w2 & t2 & l2 & E2 & A2 & T2 & S2 & D2 & _ & L2 & C2 & F2).
  rewrite E2.
  (* the status, decided by the lead read at the start *)
  unfold bind at 1.
  set (stale := negb (String.eqb (lead_status lead) "APPLICATION")
                && negb (String.eqb (lead_status lead) "UNDERWRITING")).
  assert (E3 : exists w3 l3,
             when stale
               (prisma.lead_update leadId
                  (AutomationService.set_status "APPLICATION")) w2
             = (Ok tt, w3)
             /\ prisma.find_lead leadId (leads w3) = Some l3
             /\ lead_core l3 = lead_core l2
             /\ (stale = true -> lead_status l3 = "APPLICATION")
             /\ policies w3 = policies w2 /\ commissions w3 = commissions w2
             /\ activities w3 = activities w2 /\ trace w3 = trace w2
             /\ now w3 = now w2).
  { destruct stale; cbn [when].
    - rewrite (lead_update_run leadId _ w2 l2 L2).
      eexists _, _. split; [reflexivity|]. split.
      + cbn [leads prisma.set_leads].
        apply (find_lead_after_update leadId _ w2 l2); [reflexivity | exact L2].
      + now repeat split.
    - exists w2, l2. repeat split; try assumption. discriminate. }
  destruct E3 as (w3 & l3 & E3 & L3 & C3 & St3 & P3 & Co3 & A3 & T3 & N3).
  rewrite E3.
  (* the score *)
  unfold bind at 1. rewrite (updateLeadScore_run leadId w3 l3 L3).
  set (b3 := computeScore l3 (prisma.activities_of leadId w3) (now w3)).
  set (w4 := scored leadId b3 w3).
  assert (L4 : prisma.find_lead leadId (leads w4)
               = Some (prisma.touch (now w3)
                         (set_score (currentScore b3) l3))).
  { subst w4. unfold scored. cbn [leads].
    rewrite find_lead_replace by reflexivity. now rewrite L3. }
  (* the announcement *)
  unfold bind at 1.
  destruct (handler_run POLICY_CREATED leadId (Some policyId) w4 _ L4)
    as (w5 & t5 & E5 & T5 & D5 & S5 & Q5 & F5).
  change (AutomationService.handlePolicyCreated policyId leadId w4)
    with ((lead <- prisma.lead_findUnique leadId ;;
           match lead with
           | None => ret tt
           | Some lead =>
               AutomationService.checkCampaigns
                 (mkContext POLICY_CREATED (lead_agentId lead) (Some leadId)
                            (Some policyId))
           end)%monad w4).
  rewrite E5.
  assert (Hnot : String.eqb (match PolicyService.new_status params with
                             | Some s => s
                             | None => "APPLIED"
                             end) "ISSUED" = false).
  { destruct (PolicyService.new_status params) as [s|]; [|reflexivity].
    destruct (String.eqb_spec s "ISSUED") as [->|]; [|reflexivity].
    now destruct Hni. }
  rewrite Hnot. cbn [when ret].
  destruct (core_of_stored_lead _ _ leadId _ (qu_leads _ _ Q5) L4)
    as (l5 & L5 & C5).
  exists w5, (t2 ++ [EvScoring leadId (lead_score l3) (currentScore b3)] ++ t5),
    l5.
  split; [reflexivity|].
  split; [|split; [|split; [|split; [|split; [|split]]]]].
  - rewrite (fr_policies _ _ _ _ F5). subst w4. unfold scored.
    cbn [policies]. rewrite P3, (fr_policies _ _ _ _ F2). reflexivity.
  - rewrite (fr_commissions _ _ _ _ F5). subst w4. unfold scored.
    cbn [commissions]. rewrite Co3, (fr_commissions _ _ _ _ F2). reflexivity.
  - rewrite (qu_activities _ _ Q5). subst w4. unfold scored.
    cbn [activities]. rewrite A3, A2. reflexivity.
  - rewrite T5. subst w4. unfold scored. cbn [trace].
    rewrite T3, T2. subst w1. cbn [trace prisma.set_policies].
    now rewrite <- !app_assoc.
  - rewrite !dispatched_app, D5. cbn [dispatched app].
    destruct D2 as [-> | ->]; [left | right]; reflexivity.
  - exact L5.
  - intros Ha Hu.
    assert (Hstale : stale = true).
    { subst stale.
      destruct (String.eqb_spec (lead_status lead) "APPLICATION");
        [contradiction|].
      now destruct (String.eqb_spec (lead_status lead) "UNDERWRITING"). }
    unfold lead_core in C5. injection C5 as _ _ _ C5.
    rewrite C5. cbn [lead_score prisma.touch set_score].
    subst b3.
    assert (Hacts : prisma.activities_of leadId w3 = history).
    { unfold prisma.activities_of. rewrite A3, A2. reflexivity. }
    rewrite Hacts, N3, (fr_now _ _ _ _ F2).
    change (now w1) with (now w).
    apply QuietEdits.currentScore_of_status_and_intent.
    + subst history.
      apply (history_not_empty sent
               (prisma.set_activities (sent :: activities w) w)).
      now left.
    + rewrite (St3 Hstale). reflexivity.
    + unfold lead_core in C3, C2.
      injection C3 as _ _ C3 _. injection C2 as _ _ C2 _.
      rewrite C3, C2. reflexivity.
Qed.

End WithPlatform.

Lemma issuing_stamps_rescores_and_announces_witness :
  let params := PolicyService.mkPolicyParams None None (Some "ISSUED") None in
  let w := Samples.policy_world in
  let sold := mkActivity "A1" "L1" "NOTE" (Some "SOLD") 1000 in
  exists w' t,
    @PolicyService.updatePolicy Samples.platform "P1" params w = (Ok tt, w')
    /\ prisma.find_policy "P1" (policies w')
       = Some (mkPolicy "P1" "A1" "L1" "TERM_LIFE" 1200
                        (or_zero (Some (90 # 100)%Q))
                        (1200 * or_zero (Some (90 # 100)%Q))%Q
                        "ISSUED" (Some 1000))
    /\ activities w' = sold :: activities w
    /\ trace w' = trace w ++ t
    /\ dispatched t = [ACTIVITY_LOGGED; POLICY_ISSUED]
    /\ scorings "L1" t = [(0, 100)].
Proof.
  exact (@issuing_stamps_rescores_and_announces Samples.platform "P1"
           (PolicyService.mkPolicyParams None None (Some "ISSUED") None)
           Samples.policy_world (Samples.policy1 "APPLIED")
           (Samples.lead1 "APPLICATION") eq_refl eq_refl eq_refl
           ltac:(discriminate)).
Defined.

Lemma underwriting_rescores_twice_announces_once_witness :
  let w := Samples.policy_world in
  let note := mkActivity "A1" "L1" "NOTE" None 1000 in
  exists w' t again,
    @PolicyService.updatePolicy Samples.platform "P1"
       (PolicyService.mkPolicyParams None None (Some "UNDERWRITING") None) w
    = (Ok tt, w')
    /\ activities w' = note :: activities w
    /\ commissions w' = commissions w
    /\ trace w' = trace w ++ t
    /\ dispatched t = [ACTIVITY_LOGGED]
    /\ scorings "L1" t = [(0, 100); (100, again)].
Proof.
  exact (proj1 (@underwriting_rescores_twice_announces_once Samples.platform
                  "P1"
                  (PolicyService.mkPolicyParams None None (Some "UNDERWRITING")
                                                None)
                  Samples.policy_world (Samples.policy1 "APPLIED")
                  (Samples.lead1 "APPLICATION") eq_refl eq_refl eq_refl)
               ltac:(discriminate)).
Defined.

Lemma new_policy_is_stored_scored_and_announced_witness :
  let w := Samples.ledger_world in
  let params :=
    PolicyService.mkCreatePolicy "A1" "L1" "IUL" 3000 (Some (1 # 2)) None in
  let sent := mkActivity "A1" "L1" "APPLICATION_SENT" None 1000 in
  exists w' t lead',
    @PolicyService.createPolicy Samples.platform "P3" params w = (Ok tt, w')
    /\ policies w'
       = policies w
         ++ [mkPolicy "P3" "A1" "L1" "IUL" 3000 (or_zero (Some (1 # 2)%Q))
                      (3000 * or_zero (Some (1 # 2)%Q))%Q "APPLIED" None]
    /\ commissions w' = commissions w
    /\ activities w' = sent :: activities w
    /\ trace w' = trace w ++ t
    /\ (dispatched t = [ACTIVITY_LOGGED; POLICY_CREATED]
        \/ dispatched t
           = [ACTIVITY_LOGGED; LEAD_STATUS_CHANGED; POLICY_CREATED])
    /\ prisma.find_lead "L1" (leads w') = Some lead'
    /\ ("PLACED" <> "APPLICATION" -> "PLACED" <> "UNDERWRITING" ->
        lead_score lead' = 100).
Proof.
  exact (@new_policy_is_stored_scored_and_announced Samples.platform "P3"
           (PolicyService.mkCreatePolicy "A1" "L1" "IUL" 3000 (Some (1 # 2))
                                         None)
           Samples.ledger_world (Samples.lead1 "PLACED") eq_refl
           ltac:(discriminate)).
Defined.

End PolicyFlow.
